(** * awesh: command dispatch pipeline

    A shallow embedding of the three C programs of the repository:
    - [security_agent.c], the transparent proxy between frontend and backend;
    - [awesh_sandbox.c], the PTY driven validator and its verdict record;
    - [awesh.c], the frontend: verdict parsing, AI heuristic and dispatcher.

    C buffers are lists of bytes.  A function that takes a [const char*]
    sees a buffer up to its first NUL ([cstr]); functions that take an
    explicit length (send, memcpy) see the bytes themselves.  [int] values
    are in [Z]; system calls are modelled by the values they return, which
    the environment chooses. *)

From Stdlib Require Import List Ascii String ZArith Lia Bool Arith.
Import ListNotations.

Local Open Scope list_scope.

(** ** C strings *)

Module CStr.

Definition bytes := list ascii.

Definition NUL : ascii := Ascii.zero.
Definition LF : ascii := ascii_of_nat 10.
Definition CR : ascii := ascii_of_nat 13.
Definition DQUOTE : ascii := ascii_of_nat 34.

(** A string literal of the source. *)
Definition lit (s : string) : bytes := list_ascii_of_string s.

(** What a [const char*] argument denotes: the bytes before the first NUL. *)
Fixpoint cstr (b : bytes) : bytes :=
  match b with
  | [] => []
  | c :: r => if Ascii.eqb c NUL then [] else c :: cstr r
  end.

Definition strlen (b : bytes) : Z := Z.of_nat (List.length (cstr b)).

Fixpoint bytes_eqb (a b : bytes) : bool :=
  match a, b with
  | [], [] => true
  | x :: a', y :: b' => Ascii.eqb x y && bytes_eqb a' b'
  | _, _ => false
  end.

(** [strcmp(a, b) == 0] on C strings. *)
Definition strcmp_eq (a b : bytes) : bool := bytes_eqb a b.

(** [strncmp(s, p, strlen(p)) == 0]: [p] is a prefix of [s]. *)
Fixpoint prefixb (p s : bytes) : bool :=
  match p, s with
  | [], _ => true
  | _ :: _, [] => false
  | a :: p', b :: s' => Ascii.eqb a b && prefixb p' s'
  end.

(** [strstr(s, pat)]: the suffix of [s] that starts at the first
    occurrence of [pat], or [None] for a NULL result. *)
Fixpoint strstr (s pat : bytes) : option bytes :=
  if prefixb pat s then Some s
  else match s with
       | [] => None
       | _ :: s' => strstr s' pat
       end.

Definition contains (s pat : bytes) : bool :=
  match strstr s pat with Some _ => true | None => false end.

(** [strchr(s, c)]. *)
Fixpoint strchr (s : bytes) (c : ascii) : option bytes :=
  match s with
  | [] => None
  | x :: s' => if Ascii.eqb x c then Some s else strchr s' c
  end.

Definition has_char (s : bytes) (c : ascii) : bool :=
  match strchr s c with Some _ => true | None => false end.

(** [isspace] in the C locale. *)
Definition isspace (c : ascii) : bool :=
  let n := nat_of_ascii c in
  Nat.eqb n 32 || (Nat.leb 9 n && Nat.leb n 13).

Definition isdigit (c : ascii) : bool :=
  let n := nat_of_ascii c in Nat.leb 48 n && Nat.leb n 57.

Definition tolower (c : ascii) : ascii :=
  let n := nat_of_ascii c in
  if Nat.leb 65 n && Nat.leb n 90 then ascii_of_nat (n + 32) else c.

(** [pat] and [t] differ at a position both of them have. *)
Fixpoint mismatch (pat t : bytes) : bool :=
  match pat, t with
  | p :: pat', c :: t' => negb (Ascii.eqb p c) || mismatch pat' t'
  | _, _ => false
  end.

(** No occurrence of [pat] can start inside [a], whatever follows [a]. *)
Fixpoint starts_nowhere (pat a : bytes) : bool :=
  match a with
  | [] => true
  | c :: a' => mismatch pat (c :: a') && starts_nowhere pat a'
  end.

Definition no_nul (b : bytes) : Prop := Forall (fun c => c <> NUL) b.
Definition no_lf (s : bytes) : Prop := Forall (fun c => c <> LF) s.

End CStr.
Import CStr.

(** ** POSIX extended regular expressions, as far as the agent uses them *)

Module Regex.

Inductive re : Type :=
| Fail
| Eps
| Chr (c : ascii)
| Space                      (* \s *)
| Alt (a b : re)
| Seq (a b : re)
| Star (a : re).

Definition Plus (r : re) : re := Seq r (Star r).

Fixpoint Lit (s : bytes) : re :=
  match s with
  | [] => Eps
  | c :: s' => Seq (Chr c) (Lit s')
  end.

Fixpoint nullable (r : re) : bool :=
  match r with
  | Fail => false
  | Eps => true
  | Chr _ => false
  | Space => false
  | Alt a b => nullable a || nullable b
  | Seq a b => nullable a && nullable b
  | Star _ => true
  end.

Fixpoint deriv (c : ascii) (r : re) : re :=
  match r with
  | Fail => Fail
  | Eps => Fail
  | Chr d => if Ascii.eqb c d then Eps else Fail
  | Space => if isspace c then Eps else Fail
  | Alt a b => Alt (deriv c a) (deriv c b)
  | Seq a b =>
      if nullable a then Alt (Seq (deriv c a) b) (deriv c b)
      else Seq (deriv c a) b
  | Star a => Seq (deriv c a) (Star a)
  end.

(** Some prefix of [s] is in the language of [r]. *)
Fixpoint match_prefix (r : re) (s : bytes) : bool :=
  nullable r ||
  match s with
  | [] => false
  | c :: s' => match_prefix (deriv c r) s'
  end.

(** [regexec(&r, s, 0, NULL, 0) == 0]: an unanchored search. *)
Fixpoint regexec (r : re) (s : bytes) : bool :=
  match_prefix r s ||
  match s with
  | [] => false
  | _ :: s' => regexec r s'
  end.

End Regex.

(** ** security_agent.c *)

Module SecurityAgent.
Import Regex.

Definition sp : re := Plus Space.
Definition cat (l : list re) : re := fold_right Seq Eps l.

(** [init_security_patterns]. *)
Definition dangerous_patterns : list re :=
  [ cat [Lit (lit "rm"); sp; Lit (lit "-rf"); sp; Lit (lit "/")];
    cat [Lit (lit "sudo"); sp; Lit (lit "rm"); sp; Lit (lit "-rf")];
    cat [Lit (lit "dd"); sp; Lit (lit "if=/dev/urandom")];
    cat [Lit (lit "mkfs"); sp];
    cat [Lit (lit "fdisk"); sp] ].

Definition sensitive_patterns : list re :=
  [ cat [Lit (lit "passwd"); sp];
    cat [Lit (lit "chmod"); sp; Lit (lit "777")];
    cat [Lit (lit "chown"); sp];
    cat [Lit (lit "iptables"); sp];
    cat [Lit (lit "systemctl"); sp] ].

Definition matches_dangerous (command : bytes) : bool :=
  existsb (fun r => regexec r command) dangerous_patterns.

Definition matches_sensitive (command : bytes) : bool :=
  existsb (fun r => regexec r command) sensitive_patterns.

Definition rm_rf_rule (command : bytes) : bool :=
  contains command (lit "rm") && contains command (lit "-rf").

(** The test at the head of [validate_command]. *)
Definition is_system_command (command : bytes) : bool :=
  prefixb (lit "CWD:") command
  || strcmp_eq command (lit "STATUS")
  || prefixb (lit "BASH_FAILED:") command.

(** [validate_command]: [true] for 1 (allow), [false] for 0 (block). *)
Definition validate_command (command : bytes) : bool :=
  if is_system_command command then true
  else if matches_dangerous command then false
  else if matches_sensitive command then false
  else if rm_rf_rule command then false
  else true.

Definition error_msg : bytes :=
  lit "SECURITY_BLOCKED: Command blocked by security agent" ++ [LF].

Inductive action : Type :=
| SendBackend (b : bytes)
| SendFrontend (b : bytes).

(** How a [send] ends.  No [send] of the agent passes MSG_NOSIGNAL and
    [main] installs handlers for SIGINT and SIGTERM only, so a [send] on a
    socket whose peer has closed raises SIGPIPE, which ends the process. *)
Inductive send_result : Type :=
| Sent          (* the bytes are handed to the socket *)
| SendFailed    (* send returns a negative value *)
| Sigpipe.      (* the peer has closed: the signal ends the agent *)

Inductive flow : Type :=
| Continue      (* next iteration of the relay loop *)
| Break         (* the connection is dropped *)
| Killed.       (* the agent is gone *)

(** After a [send] whose result is tested. *)
Definition after_send (r : send_result) : flow :=
  match r with
  | Sent => Continue
  | SendFailed => Break
  | Sigpipe => Killed
  end.

(** After the [send] of the refusal, whose result is not looked at. *)
Definition after_refusal (r : send_result) : flow :=
  match r with
  | Sent | SendFailed => Continue
  | Sigpipe => Killed
  end.

(** The branch of the relay loop of [main] taken when the frontend socket
    is readable.  [received] is what [recv] delivers (empty when it
    returns 0 or fails); [sent] tells how the one [send] of the branch
    ends: the forwarding to the backend, or the refusal to the frontend.
    An action records the call of [send] with its buffer. *)
Definition on_frontend_data (received : bytes) (sent : send_result)
  : list action * flow :=
  let buffer := firstn 4095 received in
  match buffer with
  | [] => ([], Break)
  | _ :: _ =>
      if validate_command (cstr buffer)
      then ([SendBackend buffer], after_send sent)
      else ([SendFrontend error_msg], after_refusal sent)
  end.

(** The branch taken when the backend socket is readable. *)
Definition on_backend_data (received : bytes) (sent : send_result)
  : list action * flow :=
  let buffer := firstn 4095 received in
  match buffer with
  | [] => ([], Break)
  | _ :: _ => ([SendFrontend buffer], after_send sent)
  end.

(** The payload starts with one of the three system prefixes. *)
Definition begins_with_system_prefix (payload : bytes) : bool :=
  prefixb (lit "CWD:") payload
  || prefixb (lit "STATUS") payload
  || prefixb (lit "BASH_FAILED:") payload.

Definition to_backend (a : action) : bytes :=
  match a with SendBackend b => b | SendFrontend _ => [] end.

(** All bytes an action list hands to [send] on the backend socket. *)
Definition backend_bytes (l : list action) : bytes := flat_map to_backend l.

End SecurityAgent.

(** ** libc: number formatting and parsing *)

Module LibC.

Definition len (b : bytes) : Z := Z.of_nat (List.length b).

(** Conversion to a 32-bit [int] and of an [int] to a 64-bit [size_t]. *)
Definition to_int (z : Z) : Z := ((z + 2 ^ 31) mod 2 ^ 32 - 2 ^ 31)%Z.
Definition to_size_t (z : Z) : Z := (z mod 2 ^ 64)%Z.
Definition clamp_long (z : Z) : Z :=
  Z.max (- 2 ^ 63) (Z.min (2 ^ 63 - 1) z).

Definition digit (d : Z) : ascii := ascii_of_nat (48 + Z.to_nat d).
Definition digit_value (c : ascii) : Z := (Z.of_nat (nat_of_ascii c) - 48)%Z.

(** Decimal digits of a non-negative number, most significant first. *)
Fixpoint print_digits (fuel : nat) (n : Z) (acc : bytes) : bytes :=
  match fuel with
  | O => acc
  | S f =>
      let acc' := digit (n mod 10) :: acc in
      if (n / 10 =? 0)%Z then acc' else print_digits f (n / 10) acc'
  end.

(** [%zu] of a [size_t] and [%d] of an [int]. *)
Definition print_unsigned (n : Z) : bytes := print_digits 20 n [].
Definition print_int (n : Z) : bytes :=
  if (n <? 0)%Z then "-"%char :: print_unsigned (- n) else print_unsigned n.

Fixpoint skip_spaces (s : bytes) : bytes :=
  match s with
  | c :: r => if isspace c then skip_spaces r else s
  | [] => []
  end.

Fixpoint parse_digits (acc : Z) (s : bytes) : Z :=
  match s with
  | c :: r => if isdigit c then parse_digits (acc * 10 + digit_value c) r
              else acc
  | [] => acc
  end.

(** [strtol(s, NULL, 10)]: the value saturates at the bounds of [long]. *)
Definition strtol (s : bytes) : Z :=
  clamp_long
    match skip_spaces s with
    | c :: r =>
        if Ascii.eqb c "-" then (- parse_digits 0 r)%Z
        else if Ascii.eqb c "+" then parse_digits 0 r
        else parse_digits 0 (c :: r)
    | [] => 0%Z
    end.

(** [atoi(s)] is [(int) strtol(s, NULL, 10)]. *)
Definition atoi (s : bytes) : Z := to_int (strtol s).

Arguments print_int : simpl never.
Arguments print_unsigned : simpl never.

End LibC.
Import LibC.

(** ** awesh_sandbox.c *)

Module Sandbox.

Definition MAX_CMD_LEN : Z := 1024.
Definition MAX_RESPONSE_LEN : Z := 65536.
Definition MMAP_SIZE : Z := 1024 * 1024.

Definition ESC : ascii := ascii_of_nat 27.
Definition ETX : ascii := ascii_of_nat 3.
Definition TAB : ascii := ascii_of_nat 9.

(** *** The verdict record ([write_result_to_mmap]) *)

(** The writer's cursor: the bytes between [mmap_ptr] and [ptr], and
    [remaining]. *)
Definition cursor : Type := (bytes * Z)%type.

(** [written = snprintf(ptr, remaining, text)] and the test
    [written > 0 && written < remaining]; [None] when the test fails and
    the cursor stays where it is. *)
Definition snprintf_advance (text : bytes) (c : cursor) : option cursor :=
  let '(buf, remaining) := c in
  let written := len text in
  if ((0 <? written) && (written <? remaining))%Z
  then Some (buf ++ text, (remaining - written)%Z)
  else None.

(** The [memcpy] of a payload and the newline after it. *)
Definition copy_payload (payload : bytes) (c : cursor) : cursor :=
  let '(buf, remaining) := c in
  let n := len payload in
  let '(buf, remaining) :=
    if ((0 <? n) && (to_int n <? remaining))%Z
    then (buf ++ payload, (remaining - to_int n)%Z)
    else (buf, remaining) in
  if (0 <? remaining)%Z then (buf ++ [LF], (remaining - 1)%Z)
  else (buf, remaining).

Definition write_section (label_len label : bytes) (content : bytes)
  (c : cursor) : cursor :=
  let str := cstr content in
  match snprintf_advance
          (label_len ++ print_unsigned (len str) ++ [LF] ++ label) c with
  | Some c' => copy_payload str c'
  | None => c
  end.

(** The text the region holds after [write_result_to_mmap]: the region is
    zeroed first and a NUL is stored at the final [ptr], so the region
    read as a string is what lies before [ptr]. *)
Definition write_result_to_mmap (exit_code : Z)
  (stdout_content stderr_content : bytes) : bytes :=
  let c0 : cursor := ([], (MMAP_SIZE - 1)%Z) in
  let c1 :=
    match snprintf_advance
            (lit "EXIT_CODE:" ++ print_int exit_code ++ [LF]) c0 with
    | Some c => c
    | None => c0
    end in
  let c2 := write_section (lit "STDOUT_LEN:") (lit "STDOUT:")
              stdout_content c1 in
  let c3 := write_section (lit "STDERR_LEN:") (lit "STDERR:")
              stderr_content c2 in
  fst c3.

(** The shared region: [mmap_ptr] may be unset, in which case writes are
    skipped. *)
Record mmap_state : Type := {
  mmap_ready : bool;
  region : bytes
}.

(** [setup_mmap_file] leaves this text in the region. *)
Definition initial_region : bytes :=
  lit "EXIT_CODE:0" ++ [LF] ++ lit "STDOUT:" ++ [LF] ++ lit "STDERR:" ++ [LF].

(** *** The PTY session *)

(** What one [select] plus [read] on the PTY master yields. *)
Inductive pty_event : Type :=
| Ready (data : bytes)   (* select > 0; read returns the bytes, none for <= 0 *)
| NotReady.              (* select returns 0 (time-out) or fails *)

Inductive pty_op : Type :=
| PtyWrite (b : bytes)
| PtyDiscard                (* a read whose data is thrown away *)
| Usleep (usec : Z).

(** The accumulation loop's variables. *)
Record acc_state : Type := {
  attempts : Z;
  captured : bytes;                (* stdout_buf[0 .. total_len) *)
  prompt_detected : bool;
  consecutive_empty_reads : Z
}.

Definition total_len (st : acc_state) : Z := len (captured st).

Definition max_attempts : Z := 50.

Definition acc_init : acc_state :=
  {| attempts := 0; captured := []; prompt_detected := false;
     consecutive_empty_reads := 0 |}.

Inductive outcome : Type :=
| Next (st : acc_state)
| Exit (st : acc_state).

(** One iteration of the body of [while (attempts < max_attempts)]. *)
Definition loop_body (ps1_prompt : bytes) (ev : pty_event) (st : acc_state)
  : outcome :=
  match ev with
  | Ready data =>
      let buffer := firstn 1023 data in
      match buffer with
      | _ :: _ =>
          let captured' :=
            if (total_len st + len buffer <? MAX_RESPONSE_LEN - 1)%Z
            then captured st ++ buffer else captured st in
          if contains (cstr buffer) ps1_prompt
          then Next {| attempts := attempts st + 1;
                       captured := captured';
                       prompt_detected := true;
                       consecutive_empty_reads := 0 |}
          else Next {| attempts := attempts st;
                       captured := captured';
                       prompt_detected := prompt_detected st;
                       consecutive_empty_reads := 0 |}
      | [] =>
          let n := (consecutive_empty_reads st + 1)%Z in
          let st' := {| attempts := attempts st;
                        captured := captured st;
                        prompt_detected := prompt_detected st;
                        consecutive_empty_reads := n |} in
          if (10 <=? n)%Z then Exit st' else Next st'
      end
  | NotReady =>
      if (0 <? total_len st)%Z && prompt_detected st then Exit st
      else Next {| attempts := attempts st + 1;
                   captured := captured st;
                   prompt_detected := prompt_detected st;
                   consecutive_empty_reads := consecutive_empty_reads st |}
  end.

(** The loop.  [env i] is what the PTY yields at the [i]-th iteration;
    [None] means the loop is still running when the fuel is used up. *)
Fixpoint accumulate (ps1_prompt : bytes) (env : nat -> pty_event)
  (fuel : nat) (i : nat) (st : acc_state) : option acc_state :=
  if (max_attempts <=? attempts st)%Z then Some st
  else
    match fuel with
    | O => None
    | S fuel' =>
        match loop_body ps1_prompt (env i) st with
        | Exit st' => Some st'
        | Next st' => accumulate ps1_prompt env fuel' (S i) st'
        end
    end.

(** The prefix of [s] before the first [c], when [c] occurs. *)
Fixpoint before_char (s : bytes) (c : ascii) : option bytes :=
  match s with
  | [] => None
  | x :: r =>
      if Ascii.eqb x c then Some []
      else match before_char r c with
           | Some p => Some (x :: p)
           | None => None
           end
  end.

(** The prompt probe: the text between [PS1_PROMPT:] and the next newline
    of one read of at most 511 bytes, or the default prompt. *)
Definition probe_ps1 (probe : pty_event) : bytes :=
  let ps1_prompt :=
    match probe with
    | Ready data =>
        match strstr (cstr (firstn 511 data)) (lit "PS1_PROMPT:") with
        | Some s =>
            match before_char (skipn 11 s) LF with
            | Some p => if (len p <? 256)%Z then p else []
            | None => []
            end
        | None => []
        end
    | NotReady => []
    end in
  match ps1_prompt with
  | [] => lit "$ "
  | _ :: _ => ps1_prompt
  end.

(** *** Filtering the captured output *)

(** The lines of a string: the pieces between newlines. *)
Fixpoint lines (s : bytes) : list bytes :=
  match s with
  | [] => [[]]
  | c :: r =>
      if Ascii.eqb c LF then [] :: lines r
      else match lines r with
           | l :: ls => (c :: l) :: ls
           | [] => [[c]]
           end
  end.

(** The test that keeps a line.  A line of 256 bytes or more is not
    copied to [current_line] and is dropped; an empty line is dropped by
    the [strlen] test. *)
Definition keep_line (cmd : bytes) (current_line : bytes) : bool :=
  (len current_line <? 256)%Z
  && negb (strcmp_eq current_line cmd)
  && negb (prefixb cmd current_line)
  && negb (contains current_line (lit "$ "))
  && negb (contains current_line (lit "# "))
  && negb (contains current_line (lit "> "))
  && (0 <? len current_line)%Z.

(** Kept lines are moved to the front of the buffer one after the other,
    without their newlines. *)
Definition filter_lines (cmd : bytes) (stdout_buf : bytes) : bytes :=
  List.concat (filter (keep_line cmd) (lines stdout_buf)).

Definition ends_escape (c : ascii) : bool :=
  Ascii.eqb c "m" || Ascii.eqb c "l" || Ascii.eqb c "h"
  || Ascii.eqb c "J" || Ascii.eqb c "K" || Ascii.eqb c "H".

Fixpoint strip_escapes (in_escape : bool) (s : bytes) : bytes :=
  match s with
  | [] => []
  | c :: r =>
      if Ascii.eqb c ESC then strip_escapes true r
      else if in_escape then strip_escapes (negb (ends_escape c)) r
      else c :: strip_escapes false r
  end.

Definition clean_output (cmd : bytes) (acc : acc_state) : bytes :=
  strip_escapes false (filter_lines cmd (cstr (captured acc))).

(** *** Classification *)

Definition error_indicators : list bytes :=
  [ lit "command not found"; lit "Permission denied";
    lit "No such file or directory"; lit "bash:"; lit "sh:";
    lit "error:"; lit "Error:" ].

Definition has_shell_error (stdout_buf : bytes) : bool :=
  existsb (contains stdout_buf) error_indicators.

Definition is_delim (c : ascii) : bool :=
  Ascii.eqb c " " || Ascii.eqb c TAB.

(** The tokens successive [strtok(..., " \t")] calls return; [cur] is the
    token being read, reversed. *)
Fixpoint strtok_all (s : bytes) (cur : bytes) : list bytes :=
  match s with
  | [] => match cur with [] => [] | _ :: _ => [rev cur] end
  | c :: r =>
      if is_delim c
      then match cur with
           | [] => strtok_all r []
           | _ :: _ => rev cur :: strtok_all r []
           end
      else strtok_all r (c :: cur)
  end.

Definition words (cmd : bytes) : list bytes := strtok_all cmd [].

(** [while (word && word_count < 10) word_count++]. *)
Fixpoint count_loop (ws : list bytes) (word_count : Z) : Z :=
  match ws with
  | [] => word_count
  | _ :: ws' =>
      if (word_count <? 10)%Z then count_loop ws' (word_count + 1)%Z
      else word_count
  end.

Definition word_count (cmd : bytes) : Z :=
  count_loop (words (firstn 1023 cmd)) 0.

(** The part of [s] before the first occurrence of [pat]. *)
Fixpoint before_match (s pat : bytes) : bytes :=
  if prefixb pat s then []
  else match s with
       | [] => []
       | c :: s' => c :: before_match s' pat
       end.

(** The prefix of [s] up to and including its last newline. *)
Fixpoint upto_last_lf (s : bytes) : bytes :=
  match s with
  | [] => []
  | c :: r =>
      if has_char r LF then c :: upto_last_lf r
      else if Ascii.eqb c LF then [c] else []
  end.

(** What follows the first newline of [s]; nothing when there is none. *)
Definition after_line (s : bytes) : bytes :=
  match strchr s LF with
  | Some t => skipn 1 t
  | None => []
  end.

Inductive exec_result : Type :=
| ExecFailed (ops : list pty_op)                       (* returns -1 *)
| ExecOk (ops : list pty_op) (exit_code : Z) (stdout_buf stderr_buf : bytes).

(** The last part of [execute_command_in_sandbox], from the test of
    [prompt_detected] on.  [cleanup_ready] is the result of the [select]
    that follows the Ctrl-C. *)
Definition classify (cmd : bytes) (cleanup_ready : bool)
  (prompt : bool) (stdout_buf : bytes) : list pty_op * Z * bytes :=
  if negb prompt then
    ([PtyWrite [ETX]; Usleep 100000] ++
     (if cleanup_ready then [PtyDiscard] else []),
     (-103)%Z, lit "INTERACTIVE_COMMAND")
  else if has_shell_error stdout_buf then
    ([], if (3 <=? word_count cmd)%Z then (-113)%Z else (-109)%Z, stdout_buf)
  else
    match strstr stdout_buf (lit "EXIT_CODE:") with
    | Some exit_code_line =>
        ([], atoi (skipn 10 exit_code_line),
         upto_last_lf (before_match stdout_buf (lit "EXIT_CODE:"))
         ++ after_line exit_code_line)
    | None => ([], 0%Z, stdout_buf)
    end.

(** The session up to the first write of one request.  The initial drain,
    [while (select(...) > 0) read(...)], has no bound of its own and does
    not look at what [read] returns: it ends only when a [select] finds
    the master not readable. *)
Record session : Type := {
  bash_ready : bool;
  drain_ends : bool;       (* some select of the initial drain returns <= 0 *)
  write_succeeds : bool    (* write of the wrapped command returns >= 0 *)
}.

(** The write of the wrapped command is reached and succeeds. *)
Definition write_ok (s : session) : bool := drain_ends s && write_succeeds s.

(** What the PTY does during one request. *)
Record pty_env : Type := {
  residue : list bytes;           (* reads of the initial drain, when it ends *)
  probe : pty_event;              (* the read of the prompt probe *)
  output : nat -> pty_event;      (* the reads of the accumulation loop *)
  cleanup_ready : bool
}.

Definition full_cmd (cmd : bytes) : bytes :=
  firstn 1073
    (lit "bash -c '" ++ cmd ++ lit "'; echo " ++ [DQUOTE]
     ++ lit "EXIT_CODE:$?" ++ [DQUOTE; LF]).

Definition ps1_query : bytes :=
  lit "echo " ++ [DQUOTE] ++ lit "PS1_PROMPT:$PS1" ++ [DQUOTE; LF].

(** [execute_command_in_sandbox]; [cmd] is the command as a string.
    [None] means that the function does not return: the initial drain goes
    on for ever, or the accumulation loop is still running when the fuel
    is used up. *)
Definition execute_command_in_sandbox (fuel : nat) (s : session)
  (env : pty_env) (cmd : bytes) : option exec_result :=
  if negb (bash_ready s) then Some (ExecFailed [])
  else if negb (drain_ends s) then None
  else
    let drain := map (fun _ => PtyDiscard) (residue env) in
    if negb (write_succeeds s)
    then Some (ExecFailed (drain ++ [PtyWrite (full_cmd cmd)]))
    else
      let ops := drain ++ [PtyWrite (full_cmd cmd); PtyWrite ps1_query] in
      let ps1_prompt := probe_ps1 (probe env) in
      match accumulate ps1_prompt (output env) fuel 0 acc_init with
      | None => None
      | Some acc =>
          let '(ops', exit_code, out) :=
            classify cmd (cleanup_ready env) (prompt_detected acc)
              (clean_output cmd acc) in
          Some (ExecOk (ops ++ ops') exit_code out [])
      end.

(** *** The request handler *)

Inductive event : Type :=
| Pty (op : pty_op)
| MmapWrite (record : bytes)
| SockSend (ack : bytes).

Definition do_write_result (m : mmap_state) (exit_code : Z)
  (out err : bytes) : mmap_state * list event :=
  if mmap_ready m
  then let record := write_result_to_mmap exit_code out err in
       ({| mmap_ready := true; region := record |}, [MmapWrite record])
  else (m, []).

(** [handle_client_request]: [received] is what [recv] delivers on the
    client socket, empty when it returns 0 or fails. *)
Definition handle_client_request (fuel : nat) (s : session) (env : pty_env)
  (m : mmap_state) (received : bytes) : option (mmap_state * list event) :=
  match firstn 1023 received with
  | [] => Some (m, [])
  | c :: r =>
      let cmd := cstr (c :: r) in
      match execute_command_in_sandbox fuel s env cmd with
      | None => None
      | Some (ExecOk ops exit_code out err) =>
          let '(m', w) := do_write_result m exit_code out err in
          Some (m', map Pty ops ++ w ++ [SockSend (lit "OK")])
      | Some (ExecFailed ops) =>
          let '(m', w) :=
            do_write_result m (-1) [] (lit "Sandbox execution failed") in
          Some (m', map Pty ops ++ w ++ [SockSend (lit "ERROR")])
      end
  end.

(** A read that delivers data in which the prompt is not found: the one
    iteration of the loop that counts neither as an attempt nor as an
    empty read. *)
Definition unprompted (ps1_prompt : bytes) (ev : pty_event) : bool :=
  match ev with
  | Ready data =>
      match firstn 1023 data with
      | [] => false
      | c :: r => negb (contains (cstr (c :: r)) ps1_prompt)
      end
  | NotReady => false
  end.

(** A read that delivers data in which the prompt is found. *)
Definition shows_prompt (ps1_prompt : bytes) (ev : pty_event) : bool :=
  match ev with
  | Ready data =>
      match firstn 1023 data with
      | [] => false
      | c :: r => contains (cstr (c :: r)) ps1_prompt
      end
  | NotReady => false
  end.

(** A variant of the loop for the iterations that are not [unprompted]. *)
Definition budget_left (st : acc_state) : nat :=
  Z.to_nat (10 * (max_attempts - attempts st))
  + Z.to_nat (9 - consecutive_empty_reads st).

Definition mmap_writes (t : list event) : list bytes :=
  flat_map (fun e => match e with MmapWrite r => [r] | _ => [] end) t.

Definition acks (t : list event) : list bytes :=
  flat_map (fun e => match e with SockSend a => [a] | _ => [] end) t.

(** The trace without the PTY traffic. *)
Definition ipc (t : list event) : list event :=
  filter (fun e => match e with Pty _ => false | _ => true end) t.

End Sandbox.

(** ** awesh.c *)

Module Frontend.

(** [send_to_sandbox]: [ack] is what is received on the socket within the
    time-out (empty when nothing arrives or a call fails); the response is
    the region copied with [strncpy] into a buffer of 4096 bytes. *)
Definition send_to_sandbox (ack : bytes) (region : bytes) : option bytes :=
  match ack with
  | [] => None
  | _ :: _ => Some (firstn 4095 (cstr region))
  end.

Definition parse_exit_code (response : bytes) : Z :=
  match strstr response (lit "EXIT_CODE:") with
  | Some exit_line => atoi (skipn 10 exit_line)
  | None => 0%Z
  end.

(** [stderr_content] after the parsing of [STDERR_LEN] and [STDERR]. *)
Definition parse_stderr (response : bytes) : bytes :=
  match strstr response (lit "STDERR_LEN:") with
  | Some stderr_len_line =>
      let stderr_len := to_size_t (atoi (skipn 11 stderr_len_line)) in
      match strstr stderr_len_line (lit "STDERR:") with
      | Some stderr_start =>
          if ((0 <? stderr_len) && (stderr_len <? 4096))%Z
          then firstn (Z.to_nat stderr_len) (skipn 7 stderr_start)
          else []
      | None => []
      end
  | None => []
  end.

(** The exit codes the sandbox uses for its own verdicts. *)
Definition special_code (code : Z) : bool :=
  ((code =? -103) || (code =? -113) || (code =? -109))%Z.

(** The verdict computed from a response. *)
Definition verdict_of_response (response : bytes) : Z :=
  if contains response (lit "INTERACTIVE_COMMAND") then (-103)%Z
  else
    let exit_code := parse_exit_code response in
    let stderr_content := parse_stderr response in
    if ((exit_code =? -103) || (exit_code =? -113) || (exit_code =? -109))%Z
    then exit_code
    else if (exit_code =? 0)%Z && (len stderr_content =? 0)%Z then 0%Z
    else (-2)%Z.

(** [test_command_in_sandbox]; [reply] is the result of
    [send_to_sandbox]. *)
Definition test_command_in_sandbox (sandbox_running : bool)
  (reply : option bytes) : Z :=
  if negb sandbox_running then (-1)%Z
  else match reply with
       | Some response => verdict_of_response response
       | None => (-1)%Z
       end.

(** *** The AI heuristic *)

Definition ai_indicators : list bytes :=
  map lit
    [ "write"; "create"; "generate"; "explain"; "analyze"; "summarize";
      "what"; "how"; "why"; "when"; "where"; "who"; "which";
      "help"; "assist"; "suggest"; "recommend"; "find"; "search";
      "poem"; "story"; "code"; "script"; "function"; "class";
      "error"; "bug"; "issue"; "problem"; "fix"; "solution" ]%string.

Definition shell_commands : list bytes :=
  map lit
    [ "ls"; "cd"; "pwd"; "cat"; "grep"; "find"; "ps"; "top"; "kill";
      "mkdir"; "rmdir"; "rm"; "cp"; "mv"; "chmod"; "chown"; "sudo";
      "git"; "docker"; "kubectl"; "ssh"; "scp"; "rsync"; "tar"; "gzip";
      "vim"; "nano"; "emacs"; "less"; "more"; "head"; "tail"; "sort";
      "awk"; "sed"; "cut"; "uniq"; "wc"; "diff"; "patch"; "make" ]%string.

Definition shell_meta : list ascii :=
  [ "|"; ">"; "<"; "&"; ";"; "`" ]%char.

Fixpoint take_word (n : nat) (s : bytes) : bytes :=
  match n, s with
  | S n', c :: r => if isspace c then [] else c :: take_word n' r
  | _, _ => []
  end.

(** [sscanf(cmd, "%255s", first_word)]: leading white space is skipped and
    up to 255 bytes that are not white space are read.  When [cmd] holds
    no word the C array is left as it was; the model gives the empty
    string. *)
Definition first_word (cmd : bytes) : bytes :=
  take_word 255 (skip_spaces cmd).

Definition lower_cmd (cmd : bytes) : bytes := map tolower (firstn 1023 cmd).

Definition has_ai_indicator (cmd : bytes) : bool :=
  existsb (contains (lower_cmd cmd)) ai_indicators.

Definition known_shell_command (cmd : bytes) : bool :=
  existsb (strcmp_eq (first_word cmd)) shell_commands.

(** [is_ai_query], tests in the order of the source. *)
Definition is_ai_query (cmd : bytes) : bool :=
  if has_ai_indicator cmd then true
  else if has_char cmd "?" then true
  else if existsb (has_char cmd) shell_meta then false
  else if known_shell_command cmd then false
  else false.

(** *** The dispatcher *)

Inductive dispatch_action : Type :=
| RunDirect (cmd : bytes)                (* system(cmd) *)
| SendToBackend (cmd : bytes)            (* send_to_backend_directly *)
| AskSandbox (cmd : bytes)               (* test_command_in_sandbox *)
| RunInteractive (cmd : bytes)           (* run_interactive_command *)
| PrintCommandFailed (exit_code : Z)
| PrintNotFound
| PrintBackendUnavailable.

(** [WEXITSTATUS]. *)
Definition WEXITSTATUS (status : Z) : Z :=
  Z.land (Z.shiftr status 8) 255.

Definition when (b : bool) (l : list dispatch_action) : list dispatch_action :=
  if b then l else [].

Definition route_to_ai (backend_ready : bool) (cmd : bytes)
  : list dispatch_action :=
  if backend_ready then [SendToBackend cmd] else [PrintBackendUnavailable].

(** The branches of [execute_command_securely] on [sandbox_result]. *)
Definition after_sandbox (backend_ready : bool) (verbose : Z) (cmd : bytes)
  (exit_code : Z) (sandbox_result : Z) : list dispatch_action :=
  if (sandbox_result =? 0)%Z then
    when (1 <=? verbose)%Z [PrintCommandFailed exit_code]
  else if (sandbox_result =? -113)%Z then route_to_ai backend_ready cmd
  else if (sandbox_result =? -103)%Z then [RunInteractive cmd]
  else if (sandbox_result =? -109)%Z then when (1 <=? verbose)%Z [PrintNotFound]
  else route_to_ai backend_ready cmd.

(** [execute_command_securely].  [result] is the status [system(cmd)]
    returns and [reply] the answer of the sandbox, both used only on the
    paths that ask for them. *)
Definition execute_command_securely (backend_ready sandbox_ready : bool)
  (verbose : Z) (cmd : bytes) (result : Z) (reply : option bytes)
  : list dispatch_action :=
  if negb backend_ready && negb sandbox_ready then
    RunDirect cmd
    :: when (negb (result =? 0)%Z && (1 <=? verbose)%Z)
         [PrintCommandFailed result]
  else if is_ai_query cmd && backend_ready then [SendToBackend cmd]
  else
    RunDirect cmd ::
    if (result =? 0)%Z then []
    else
      AskSandbox cmd ::
      after_sandbox backend_ready verbose cmd (WEXITSTATUS result)
        (test_command_in_sandbox sandbox_ready reply).

End Frontend.

(** ** Scenarios *)

Module Scenario.
Import Sandbox.

Definition session_ok : session :=
  {| bash_ready := true; drain_ends := true; write_succeeds := true |}.

Definition mmap0 : mmap_state :=
  {| mmap_ready := true; region := initial_region |}.

(** The PTY stays silent for [n] iterations of the loop (and during the
    prompt probe before them), then one read brings [data], then it is
    silent again. *)
Definition after_silence (n : nat) (data : bytes) : pty_env :=
  {| residue := []; probe := NotReady;
     output := fun i => if (i =? n)%nat then Ready data else NotReady;
     cleanup_ready := false |}.

(** [foobar --baz]: bash reports an unknown command. *)
Definition env_not_found : pty_env :=
  after_silence 0
    (lit "bash: foobar: command not found" ++ [CR; LF]
     ++ lit "EXIT_CODE:127" ++ [CR; LF] ++ lit "$ ").

(** The variables of the loop when it ends on [env_not_found]. *)
Definition seen_not_found : acc_state :=
  {| attempts := 1;
     captured := lit "bash: foobar: command not found" ++ [CR; LF]
                 ++ lit "EXIT_CODE:127" ++ [CR; LF] ++ lit "$ ";
     prompt_detected := true;
     consecutive_empty_reads := 0 |}.

(** [sleep 2; false]: nothing for two seconds, then status 1. *)
Definition env_exit_1 : pty_env :=
  after_silence 10 (lit "EXIT_CODE:1" ++ [CR; LF] ++ lit "$ ").

(** [b]: the line that reports the error begins with the command. *)
Definition env_b : pty_env :=
  after_silence 0
    (lit "bash: line 1: b: command not found" ++ [CR; LF]
     ++ lit "EXIT_CODE:127" ++ [CR; LF] ++ lit "$ ").

(** [foobar --baz] when the two bytes of the prompt come in two reads. *)
Definition env_cut_prompt : pty_env :=
  {| residue := []; probe := NotReady;
     output := fun i =>
       match i with
       | 0%nat => Ready (lit "bash: foobar: command not found" ++ [CR; LF]
                         ++ lit "EXIT_CODE:127" ++ [CR; LF] ++ lit "$")
       | 1%nat => Ready (lit " ")
       | _ => NotReady
       end;
     cleanup_ready := false |}.

(** Three words on three lines. *)
Definition three_lines : bytes :=
  lit "foobar" ++ [LF] ++ lit "--baz" ++ [LF] ++ lit "qux".

Definition redraw : bytes := ESC :: lit "[2J" ++ ESC :: lit "[1;1H~".

(** [vim notes.txt]: the screen is drawn, then the editor waits. *)
Definition env_vim : pty_env :=
  {| residue := []; probe := Ready (ESC :: lit "[?1049h");
     output := fun i => if (i <? 2)%nat then Ready redraw else NotReady;
     cleanup_ready := true |}.

Definition yes_output : bytes := lit "y" ++ [CR; LF] ++ lit "y" ++ [CR; LF].

(** [yes]: every read brings more output, never the prompt. *)
Definition env_yes : pty_env :=
  {| residue := []; probe := Ready yes_output;
     output := fun _ => Ready yes_output;
     cleanup_ready := true |}.

(** One validation seen from the frontend: the sandbox serves the request
    and the frontend, woken by the acknowledgment, copies the region. *)
Definition validate (fuel : nat) (s : session) (env : pty_env)
  (cmd : bytes) : option bytes :=
  match handle_client_request fuel s env mmap0 cmd with
  | Some (m, t) =>
      match acks t with
      | ack :: _ => Frontend.send_to_sandbox ack (region m)
      | [] => None
      end
  | None => None
  end.

End Scenario.

(** ** Time

    The loop of the validator waits in [select] with a time-out of 100 ms
    and the validator pauses for 100 ms after the Ctrl-C; the frontend
    waits 5 s for the acknowledgment.  Time is counted in milliseconds and
    from below: a [select] that reports nothing has taken its whole
    time-out unless it failed, and nothing else is taken to cost time. *)

Module Timing.
Import Sandbox.

Definition loop_timeout : Z := 100.     (* timeout.tv_usec = 100000 *)
Definition cleanup_pause : Z := 100.    (* usleep(100000) *)
Definition ack_timeout : Z := 5000.     (* send_to_sandbox: timeout.tv_sec = 5 *)

(** The least time the [select] of iteration [i] takes; [failed i] tells
    that it returned -1. *)
Definition select_time (failed : nat -> bool) (i : nat) (ev : pty_event) : Z :=
  match ev with
  | NotReady => if failed i then 0 else loop_timeout
  | Ready _ => 0
  end.

(** The least time spent in the accumulation loop when it returns. *)
Fixpoint loop_time (ps1_prompt : bytes) (env : nat -> pty_event)
  (failed : nat -> bool) (fuel : nat) (i : nat) (st : acc_state) : option Z :=
  if (max_attempts <=? attempts st)%Z then Some 0%Z
  else
    match fuel with
    | O => None
    | S fuel' =>
        let t := select_time failed i (env i) in
        match loop_body ps1_prompt (env i) st with
        | Exit _ => Some t
        | Next st' =>
            match loop_time ps1_prompt env failed fuel' (S i) st' with
            | Some t' => Some (t + t')%Z
            | None => None
            end
        end
    end.

(** The least time between the arrival of a request and its
    acknowledgment when the validation ends without the prompt: the loop,
    then the pause after the Ctrl-C. *)
Definition answer_time (ps1_prompt : bytes) (env : nat -> pty_event)
  (failed : nat -> bool) (fuel : nat) : option Z :=
  match loop_time ps1_prompt env failed fuel 0 acc_init with
  | Some t => Some (t + cleanup_pause)%Z
  | None => None
  end.

(** What the [select] of [send_to_sandbox] finds.  Times are counted from
    the frontend's [send]: the frontend enters its [select] at
    [waits_from], the sandbox sends [ack] at [acked_at]. *)
Definition received_ack (waits_from acked_at : Z) (ack : bytes) : bytes :=
  if (acked_at <? waits_from + ack_timeout)%Z then ack else [].

End Timing.

(** ** security_agent.c: the relay loop *)

Module Proxy.
Import SecurityAgent.

(** What one [select] of the relay loop of [main] yields.  For a socket
    that is readable: what [recv] delivers on it and how the [send] that
    follows ends. *)
Inductive select_result : Type :=
| SelectTimeout                                   (* result == 0 *)
| SelectInterrupted                               (* result < 0, EINTR *)
| SelectError                                     (* result < 0 otherwise *)
| SelectReady (frontend backend : option (bytes * send_result)).

(** One iteration of the inner [while (running)] loop. *)
Definition relay_step (ev : select_result) : list action * flow :=
  match ev with
  | SelectTimeout => ([], Continue)
  | SelectInterrupted => ([], Continue)
  | SelectError => ([], Break)
  | SelectReady f b =>
      let '(a1, fl1) :=
        match f with
        | Some (received, sent) => on_frontend_data received sent
        | None => ([], Continue)
        end in
      match fl1 with
      | Break => (a1, Break)
      | Killed => (a1, Killed)
      | Continue =>
          let '(a2, fl2) :=
            match b with
            | Some (received, sent) => on_backend_data received sent
            | None => ([], Continue)
            end in
          (a1 ++ a2, fl2)
      end
  end.

(** The loop over the events of one connection, up to the [break] or the
    death of the agent (or to the end of the list, when [running] is
    cleared). *)
Fixpoint relay (evs : list select_result) : list action :=
  match evs with
  | [] => []
  | ev :: rest =>
      let '(a, fl) := relay_step ev in
      match fl with
      | Break | Killed => a
      | Continue => a ++ relay rest
      end
  end.

(** The pieces in which a payload that is queued whole on a socket comes
    out of it: each [recv] of the loop asks for 4095 bytes. *)
Fixpoint pieces_of (fuel : nat) (payload : bytes) : list bytes :=
  match fuel, payload with
  | S fuel', _ :: _ =>
      firstn 4095 payload :: pieces_of fuel' (skipn 4095 payload)
  | _, _ => []
  end.

Definition pieces (payload : bytes) : list bytes :=
  pieces_of (List.length payload) payload.

(** The events of a payload the frontend sends while the backend is
    silent and every [send] succeeds. *)
Definition arrival (payload : bytes) : list select_result :=
  map (fun piece => SelectReady (Some (piece, Sent)) None) (pieces payload).

(** [b] is what one [recv] on the frontend (backend) socket put in the
    4096-byte buffer during the events [evs]. *)
Definition from_frontend (evs : list select_result) (b : bytes) : Prop :=
  exists received ok bk,
    In (SelectReady (Some (received, ok)) bk) evs /\ b = firstn 4095 received.

Definition from_backend (evs : list select_result) (b : bytes) : Prop :=
  exists received ok fr,
    In (SelectReady fr (Some (received, ok))) evs /\ b = firstn 4095 received.

End Proxy.

(** ** Configuration files (awesh.c and security_agent.c) *)

Module Config.

(** The process environment. *)
Definition env : Type := bytes -> option bytes.

Definition getenv (e : env) (name : bytes) : option bytes := e name.

(** [setenv(name, value, 1)]; it fails, and changes nothing, for an empty
    name and for a name that contains ['=']. *)
Definition setenv (name value : bytes) (e : env) : env :=
  match name with
  | [] => e
  | _ :: _ =>
      if has_char name "=" then e
      else fun n => if bytes_eqb n name then Some value else e n
  end.

(** The chunks that [fgets(line, size, file)] returns until the end of the
    file: each holds at most [size - 1] bytes and ends after a newline.
    [room] is what is left of the buffer and [cur] what was read into it,
    last byte first. *)
Fixpoint fgets_all (size1 room : nat) (cur : bytes) (s : bytes)
  : list bytes :=
  match s with
  | [] => match cur with [] => [] | _ :: _ => [rev cur] end
  | c :: r =>
      if Ascii.eqb c LF then rev (c :: cur) :: fgets_all size1 size1 [] r
      else match room with
           | S (S room') => fgets_all size1 (S room') (c :: cur) r
           | _ => rev (c :: cur) :: fgets_all size1 size1 [] r
           end
  end.

(** [char line[256]]. *)
Definition file_chunks (file : bytes) : list bytes :=
  fgets_all 255 255 [] file.

(** [line[strcspn(line, "\n")] = 0]: the line as a string, cut at its
    first newline. *)
Fixpoint chomp (line : bytes) : bytes :=
  match line with
  | [] => []
  | c :: r => if Ascii.eqb c LF || Ascii.eqb c NUL then [] else c :: chomp r
  end.

(** [equals = strchr(line, '=')]: key and value, or [None]. *)
Fixpoint split_equals (line : bytes) : option (bytes * bytes) :=
  match line with
  | [] => None
  | c :: r =>
      if Ascii.eqb c "=" then Some ([], r)
      else match split_equals r with
           | Some (k, v) => Some (c :: k, v)
           | None => None
           end
  end.

Record settings : Type := {
  verbose : Z;
  environ : env
}.

(** The body of the loop of [load_config] on a line already cut. *)
Definition load_parsed (st : settings) (line : bytes) : settings :=
  match line with
  | [] => st
  | c :: _ =>
      if Ascii.eqb c "#" then st
      else
        match split_equals line with
        | None => st
        | Some (key, value) =>
            {| verbose := if strcmp_eq key (lit "VERBOSE") then atoi value
                          else verbose st;
               environ := if strcmp_eq key (lit "MODEL") then environ st
                          else setenv key value (environ st) |}
        end
  end.

Definition load_line (st : settings) (chunk : bytes) : settings :=
  load_parsed st (chomp chunk).

Definition load_file (st : settings) (file : bytes) : settings :=
  fold_left load_line (file_chunks file) st.

(** [load_config]: [aweshrc] and [ini] are the contents of [~/.aweshrc]
    and [~/.awesh_config.ini], [None] when [fopen] fails. *)
Definition load_config (aweshrc ini : option bytes) (st : settings)
  : settings :=
  let st1 :=
    match aweshrc with
    | Some f => load_file st f
    | None => match ini with
              | Some f => load_file st f
              | None => st
              end
    end in
  match getenv (environ st1) (lit "MODEL") with
  | Some _ => st1
  | None =>
      let ai_provider :=
        match getenv (environ st1) (lit "AI_PROVIDER") with
        | Some p => p
        | None => lit "openai"
        end in
      {| verbose := verbose st1;
         environ := setenv (lit "MODEL")
                      (if strcmp_eq ai_provider (lit "openrouter")
                       then lit "claude-sonnet" else lit "gpt-5")
                      (environ st1) |}
  end.

(** The body of the loop of [read_config_and_set_env] (security agent). *)
Definition agent_parsed (st : settings) (line : bytes) : settings :=
  match line with
  | [] => st
  | c :: _ =>
      if Ascii.eqb c "#" then st
      else
        match split_equals line with
        | None => st
        | Some (key, value) =>
            {| verbose := if strcmp_eq key (lit "VERBOSE") then atoi value
                          else verbose st;
               environ := setenv key value (environ st) |}
        end
  end.

(** [read_config_and_set_env]: the value returned and the state left;
    [verbose st] is [verbose_level]. *)
Definition read_config_and_set_env (home : bool) (file : option bytes)
  (st : settings) : Z * settings :=
  if negb home then (0%Z, st)
  else match file with
       | None => (0%Z, st)
       | Some f =>
           let st' := fold_left (fun st chunk => agent_parsed st (chomp chunk))
                        (file_chunks f) st in
           (verbose st', st')
       end.

(** [strncmp(line, key, strlen(key)) == 0 && line[strlen(key)] == '=']. *)
Definition key_line (key line : bytes) : bool :=
  prefixb (key ++ ["="%char]) line.

(** [snprintf(lines[i], 256, "%s=%s", key, value)]. *)
Definition assignment (key value : bytes) : bytes :=
  firstn 255 (key ++ "="%char :: value).

Definition update_line (key value line : bytes) : bytes :=
  if key_line key line then assignment key value else line.

(** The [lines] array of [update_config_file] when the file is written
    back: at most 99 chunks are kept. *)
Definition updated_lines (key value : bytes) (old : option bytes)
  : list bytes :=
  let lines :=
    match old with
    | Some f => map chomp (firstn 99 (file_chunks f))
    | None => []
    end in
  let key_found := existsb (key_line key) lines in
  let lines' := map (update_line key value) lines in
  if negb key_found && (List.length lines' <? 99)%nat
  then lines' ++ [assignment key value]
  else lines'.

(** [update_config_file]: the new content of [~/.aweshrc], given the old
    one ([None] when it cannot be read); the file is opened for writing
    with success. *)
Definition update_config_file (key value : bytes) (old : option bytes)
  : bytes :=
  List.concat (map (fun l => l ++ [LF]) (updated_lines key value old)).

(** Bytes that can stand in a key or a value: no newline, no NUL. *)
Definition plain (s : bytes) : Prop :=
  Forall (fun c => c <> LF /\ c <> NUL) s.

End Config.

(** ** awesh.c: supervision of the children *)

Module Supervisor.

Inductive ai_status_t : Type := AI_LOADING | AI_READY | AI_FAILED.

(** [state] and [sandbox_socket_fd], without the verbosity. *)
Record awesh_state : Type := {
  backend_pid : Z;
  security_agent_pid : Z;
  sandbox_pid : Z;
  socket_fd : Z;
  ai_status : ai_status_t;
  sandbox_socket_fd : Z
}.

(** What the system answers during one health check. *)
Record world : Type := {
  alive : Z -> bool;          (* kill(pid, 0) == 0 *)
  home : bool;                (* getenv("HOME") != NULL *)
  socket_result : Z;          (* socket() in init_sandbox_socket *)
  bind_listen_ok : bool;      (* bind() and listen() succeed *)
  agent_fork : Z;             (* fork() in restart_security_agent *)
  sandbox_fork : Z            (* fork() in restart_sandbox *)
}.

Inductive sup_op : Type :=
| ForkSecurityAgent
| ForkSandbox
| CloseSocket (fd : Z)
| UnlinkSandboxSocket.

Definition is_process_running (w : world) (pid : Z) : bool :=
  if (pid <=? 0)%Z then false else alive w pid.

(** [cleanup_sandbox_socket]. *)
Definition cleanup_sandbox_socket (st : awesh_state)
  : awesh_state * list sup_op :=
  if (sandbox_socket_fd st =? -1)%Z then (st, [UnlinkSandboxSocket])
  else ({| backend_pid := backend_pid st;
           security_agent_pid := security_agent_pid st;
           sandbox_pid := sandbox_pid st;
           socket_fd := socket_fd st;
           ai_status := ai_status st;
           sandbox_socket_fd := -1 |},
        [CloseSocket (sandbox_socket_fd st); UnlinkSandboxSocket]).

(** [init_sandbox_socket]: the value returned and the state left. *)
Definition init_sandbox_socket (w : world) (st : awesh_state)
  : Z * awesh_state * list sup_op :=
  if negb (home w) then ((-1)%Z, st, [])
  else
    let st' := {| backend_pid := backend_pid st;
                  security_agent_pid := security_agent_pid st;
                  sandbox_pid := sandbox_pid st;
                  socket_fd := socket_fd st;
                  ai_status := ai_status st;
                  sandbox_socket_fd := socket_result w |} in
    if (socket_result w <? 0)%Z then ((-1)%Z, st', [UnlinkSandboxSocket])
    else if bind_listen_ok w then (0%Z, st', [UnlinkSandboxSocket])
    else ((-1)%Z, st', [UnlinkSandboxSocket; CloseSocket (socket_result w)]).

(** [restart_security_agent], in the parent: [state] is not touched. *)
Definition restart_security_agent (w : world) (st : awesh_state)
  : Z * awesh_state * list sup_op :=
  (if (0 <? agent_fork w)%Z then 0%Z else (-1)%Z, st, [ForkSecurityAgent]).

(** [restart_sandbox], in the parent. *)
Definition restart_sandbox (w : world) (st : awesh_state)
  : Z * awesh_state * list sup_op :=
  let '(st1, ops1) := cleanup_sandbox_socket st in
  let '(rc, st2, ops2) := init_sandbox_socket w st1 in
  if negb (rc =? 0)%Z then ((-1)%Z, st2, ops1 ++ ops2)
  else if (0 <? sandbox_fork w)%Z
  then (0%Z,
        {| backend_pid := backend_pid st2;
           security_agent_pid := security_agent_pid st2;
           sandbox_pid := sandbox_fork w;
           socket_fd := socket_fd st2;
           ai_status := ai_status st2;
           sandbox_socket_fd := sandbox_socket_fd st2 |},
        ops1 ++ ops2 ++ [ForkSandbox])
  else ((-1)%Z, st2, ops1 ++ ops2 ++ [ForkSandbox]).

(** [check_child_process_health]. *)
Definition check_child_process_health (w : world) (st : awesh_state)
  : awesh_state * list sup_op :=
  let st1 :=
    if (0 <? backend_pid st)%Z && negb (is_process_running w (backend_pid st))
    then {| backend_pid := -1;
            security_agent_pid := security_agent_pid st;
            sandbox_pid := sandbox_pid st;
            socket_fd := socket_fd st;
            ai_status := AI_FAILED;
            sandbox_socket_fd := sandbox_socket_fd st |}
    else st in
  let st2 :=
    if (0 <? security_agent_pid st1)%Z
       && negb (is_process_running w (security_agent_pid st1))
    then {| backend_pid := backend_pid st1;
            security_agent_pid := -1;
            sandbox_pid := sandbox_pid st1;
            socket_fd := socket_fd st1;
            ai_status := ai_status st1;
            sandbox_socket_fd := sandbox_socket_fd st1 |}
    else st1 in
  let st3 :=
    if (0 <? sandbox_pid st2)%Z
       && negb (is_process_running w (sandbox_pid st2))
    then {| backend_pid := backend_pid st2;
            security_agent_pid := security_agent_pid st2;
            sandbox_pid := -1;
            socket_fd := socket_fd st2;
            ai_status := ai_status st2;
            sandbox_socket_fd := -1 |}
    else st2 in
  let '(st4, ops4) :=
    if (security_agent_pid st3 <=? 0)%Z
    then let '(_, st', ops) := restart_security_agent w st3 in (st', ops)
    else (st3, []) in
  let '(st5, ops5) :=
    if (sandbox_pid st4 <=? 0)%Z
    then let '(_, st', ops) := restart_sandbox w st4 in (st', ops)
    else (st4, []) in
  (st5, ops4 ++ ops5).

(** Health checks one after the other, each in its own world. *)
Fixpoint health_checks (ws : list world) (st : awesh_state)
  : awesh_state * list sup_op :=
  match ws with
  | [] => (st, [])
  | w :: ws' =>
      let '(st1, ops1) := check_child_process_health w st in
      let '(st2, ops2) := health_checks ws' st1 in
      (st2, ops1 ++ ops2)
  end.

Definition agent_forks (ops : list sup_op) : nat :=
  List.length
    (filter (fun o => match o with ForkSecurityAgent => true | _ => false end)
       ops).

End Supervisor.

(** ** awesh.c: waiting for the backend *)

Module Backend.

(** What one iteration of the loop of [send_to_backend_directly] sees. *)
Inductive wait_event : Type :=
| Readable (received : bytes)  (* select > 0; recv delivers these, none for <= 0 *)
| Tick (now : Z)               (* select == 0; now = time(NULL) *)
| Failure.                     (* select < 0 *)

Inductive shown : Type :=
| Dot
| Response (b : bytes)         (* printf("%s", response): the text before a NUL *)
| TimeoutNotice
| ErrorNotice.

Definition MAX_WAIT_SECONDS : Z := 300.
Definition DOT_INTERVAL_SECONDS : Z := 5.

(** The loop of [send_to_backend_directly] after the command was sent:
    what it prints, or [None] while it is still waiting when the fuel is
    used up. *)
Fixpoint wait_for_reply (env : nat -> wait_event) (fuel : nat) (i : nat)
  (start_time last_dot_time : Z) : option (list shown) :=
  match fuel with
  | O => None
  | S fuel' =>
      match env i with
      | Readable received =>
          match firstn (Z.to_nat 65535) received with
          | (_ :: _) as response => Some [Response (cstr response)]
          | [] => wait_for_reply env fuel' (S i) start_time last_dot_time
          end
      | Tick now =>
          let dot := (DOT_INTERVAL_SECONDS <=? now - last_dot_time)%Z in
          let last := if dot then now else last_dot_time in
          let out := if dot then [Dot] else [] in
          if (MAX_WAIT_SECONDS <=? now - start_time)%Z
          then Some (out ++ [TimeoutNotice])
          else match wait_for_reply env fuel' (S i) start_time last with
               | Some l => Some (out ++ l)
               | None => None
               end
      | Failure => Some [ErrorNotice]
      end
  end.

End Backend.

(** ** awesh.c: control commands *)

Module Control.

Inductive effect : Type :=
| UpdateConfig (key value : bytes)     (* update_config_file *)
| SendCommand (text : bytes)           (* send_command *)
| SetVerbose (level : Z)               (* state.verbose = level *)
| SetModel (model : bytes)             (* setenv("MODEL", model, 1) *)
| CheckAiStatus.

(** [is_awesh_command]. *)
Definition is_awesh_command (cmd : bytes) : bool :=
  strcmp_eq cmd (lit "aweh")
  || strcmp_eq cmd (lit "awes")
  || prefixb (lit "awev") cmd
  || prefixb (lit "awea") cmd
  || prefixb (lit "awem") cmd.

Definition set_verbose (value : string) (level : Z) : list effect :=
  [ UpdateConfig (lit "VERBOSE") (lit value);
    SendCommand (lit "VERBOSE:" ++ lit value);
    SetVerbose level; CheckAiStatus ].

Definition set_provider (name : string) : list effect :=
  [ UpdateConfig (lit "AI_PROVIDER") (lit name);
    SendCommand (lit "AI_PROVIDER:" ++ lit name) ].

Definition set_model (name : string) : list effect :=
  [ SetModel (lit name); SendCommand (lit "MODEL:" ++ lit name) ].

(** [handle_awesh_command], without what it prints. *)
Definition handle_awesh_command (cmd : bytes) : list effect :=
  if strcmp_eq cmd (lit "aweh") then []
  else if strcmp_eq cmd (lit "awes") then []
  else if prefixb (lit "awev") cmd then
    if strcmp_eq cmd (lit "awev") then []
    else if strcmp_eq cmd (lit "awev 0") then set_verbose "0" 0
    else if strcmp_eq cmd (lit "awev 1") then set_verbose "1" 1
    else if strcmp_eq cmd (lit "awev 2") then set_verbose "2" 2
    else if strcmp_eq cmd (lit "awev on") then set_verbose "1" 1
    else if strcmp_eq cmd (lit "awev off") then set_verbose "0" 0
    else []
  else if prefixb (lit "awea") cmd then
    if strcmp_eq cmd (lit "awea") then []
    else if strcmp_eq cmd (lit "awea openai") then set_provider "openai"
    else if strcmp_eq cmd (lit "awea openrouter") then set_provider "openrouter"
    else []
  else if prefixb (lit "awem") cmd then
    if strcmp_eq cmd (lit "awem") then []
    else if strcmp_eq cmd (lit "awem gpt-4") then set_model "gpt-4"
    else if strcmp_eq cmd (lit "awem gpt-5") then set_model "gpt-5"
    else if strcmp_eq cmd (lit "awem kimi-k2") then set_model "kimi-k2"
    else if strcmp_eq cmd (lit "awem claude-sonnet") then set_model "claude-sonnet"
    else []
  else [].

(** The frontend's settings and the content of [~/.aweshrc]. *)
Definition machine : Type := (Config.settings * option bytes)%type.

Definition apply_effect (m : machine) (e : effect) : machine :=
  let '(st, file) := m in
  match e with
  | UpdateConfig key value =>
      (st, Some (Config.update_config_file key value file))
  | SetVerbose level =>
      ({| Config.verbose := level; Config.environ := Config.environ st |},
       file)
  | SetModel model =>
      ({| Config.verbose := Config.verbose st;
          Config.environ := Config.setenv (lit "MODEL") model
                              (Config.environ st) |}, file)
  | SendCommand _ => m
  | CheckAiStatus => m
  end.

Definition run_command (cmd : bytes) (m : machine) : machine :=
  fold_left apply_effect (handle_awesh_command cmd) m.

End Control.

(** ** awesh_sandbox.c: the server loop *)

Module Server.
Import Sandbox.

(** One accepted connection: the state of the session while it is
    served, what the PTY does meanwhile and what [recv] delivers. *)
Record connection : Type := {
  conn_session : session;
  conn_env : pty_env;
  conn_received : bytes
}.

(** The loop of [main] over the accepted connections, one after the
    other; [None] when a request is still being handled when the fuel of
    its loop is used up, so that the next [accept] is never reached. *)
Fixpoint serve (fuel : nat) (conns : list connection) (m : mmap_state)
  : option (mmap_state * list event) :=
  match conns with
  | [] => Some (m, [])
  | c :: rest =>
      match handle_client_request fuel (conn_session c) (conn_env c) m
              (conn_received c) with
      | None => None
      | Some (m1, t1) =>
          match serve fuel rest m1 with
          | None => None
          | Some (m2, t2) => Some (m2, t1 ++ t2)
          end
      end
  end.

(** The connections on which a command arrived. *)
Definition with_command (conns : list connection) : list connection :=
  filter (fun c => match conn_received c with [] => false | _ :: _ => true end)
    conns.

(** A record followed by its acknowledgment. *)
Definition answer (a : bytes * bytes) : list event :=
  [MmapWrite (fst a); SockSend (snd a)].

End Server.

(** ** Concrete cases *)

Module Cases.

(** The settings before any file is read. *)
Definition unset : Config.settings :=
  {| Config.verbose := 0; Config.environ := fun _ => None |}.

(** A small [~/.aweshrc]. *)
Definition aweshrc : bytes :=
  lit "# awesh" ++ [LF] ++ lit "VERBOSE=1" ++ [LF]
  ++ lit "AI_PROVIDER=openai" ++ [LF].

(** A file of 120 lines. *)
Definition long_aweshrc : bytes :=
  List.concat (repeat (lit "# note" ++ [LF]) 120).

(** What is left of the output of [foobar --baz] after the cleaning. *)
Definition not_found : bytes :=
  lit "bash: foobar: command not found" ++ [CR]
  ++ lit "EXIT_CODE:127" ++ [CR].

(** The frontend with its three children started. *)
Definition all_started : Supervisor.awesh_state :=
  {| Supervisor.backend_pid := 4001;
     Supervisor.security_agent_pid := 4002;
     Supervisor.sandbox_pid := 4003;
     Supervisor.socket_fd := 5;
     Supervisor.ai_status := Supervisor.AI_READY;
     Supervisor.sandbox_socket_fd := 6 |}.

(** The same after the fork of the security agent failed at start-up. *)
Definition agent_not_started : Supervisor.awesh_state :=
  {| Supervisor.backend_pid := 4001;
     Supervisor.security_agent_pid := -1;
     Supervisor.sandbox_pid := 4003;
     Supervisor.socket_fd := 5;
     Supervisor.ai_status := Supervisor.AI_READY;
     Supervisor.sandbox_socket_fd := 6 |}.

(** A health check during which every process is alive but [dead]; the
    new socket is descriptor 7 and the forks succeed. *)
Definition check_with (dead : Z) (bind_ok : bool) : Supervisor.world :=
  {| Supervisor.alive := fun pid => negb (pid =? dead)%Z;
     Supervisor.home := true;
     Supervisor.socket_result := 7;
     Supervisor.bind_listen_ok := bind_ok;
     Supervisor.agent_fork := 4010;
     Supervisor.sandbox_fork := 4011 |}.

(** The backend closed the connection: the socket is readable and
    [recv] returns 0. *)
Definition closed_socket (i : nat) : Backend.wait_event := Backend.Readable [].

(** No answer, and a clock that is 100 seconds further at each
    time-out of [select]. *)
Definition slow_clock (i : nat) : Backend.wait_event :=
  Backend.Tick (1000 + 100 * Z.of_nat i).

(** Payloads of the frontend for the security agent. *)
Definition padding (n : nat) : bytes := repeat "a"%char n.

(** 4102 bytes: a long argument, then [rm -rf /]. *)
Definition long_dangerous : bytes := padding 4094 ++ lit "rm -rf /".

(** 4104 bytes that begin with [CWD:]. *)
Definition long_cwd : bytes :=
  lit "CWD:/" ++ padding 4090 ++ lit "rm -rf /x".

(** A command behind a NUL. *)
Definition after_nul : bytes := lit "ls" ++ [NUL] ++ lit "rm -rf /".

(** The session while bash is down. *)
Definition bash_down : Sandbox.session :=
  {| Sandbox.bash_ready := false; Sandbox.drain_ends := true;
     Sandbox.write_succeeds := true |}.


(** An unknown command, a connection that brings nothing, and a command
    that arrives while bash is down. *)
Definition three_connections : list Server.connection :=
  [ {| Server.conn_session := Scenario.session_ok;
       Server.conn_env := Scenario.env_not_found;
       Server.conn_received := lit "foobar --baz" |};
    {| Server.conn_session := Scenario.session_ok;
       Server.conn_env := Scenario.env_exit_1;
       Server.conn_received := [] |};
    {| Server.conn_session := bash_down;
       Server.conn_env := Scenario.env_exit_1;
       Server.conn_received := lit "sleep 2; false" |} ].

End Cases.

(** ** Invariants *)

Module Invariants.
Import Regex SecurityAgent Sandbox.

(** What the accumulation loop keeps true of its variables. *)
Definition loop_inv (st : acc_state) : Prop :=
  (total_len st < MAX_RESPONSE_LEN - 1)%Z
  /\ (0 <= attempts st <= max_attempts)%Z
  /\ (0 <= consecutive_empty_reads st <= 10)%Z.

(** The number of words of a text for a given set of separators: the
    bytes that are no separator and stand first or right after one. *)
Fixpoint word_starts (sep : ascii -> bool) (after_sep : bool) (s : bytes)
  : nat :=
  match s with
  | [] => 0
  | c :: r =>
      (if after_sep && negb (sep c) then 1 else 0)
      + word_starts sep (sep c) r
  end.

Definition count_words (sep : ascii -> bool) (s : bytes) : nat :=
  word_starts sep true s.

Definition blank_or_tab (c : ascii) : bool :=
  Ascii.eqb c " " || Ascii.eqb c "009".

(** The words of a command, separated by blanks and tabs. *)
Definition number_of_words (cmd : bytes) : nat := count_words blank_or_tab cmd.

(** No ESC is left in the output. *)
Definition no_esc (s : bytes) : Prop := Forall (fun c => c <> ESC) s.

(** The writer's cursor stays inside the region: [remaining] is what is
    left of the [MMAP_SIZE - 1] bytes after the text written so far. *)
Definition cursor_ok (c : cursor) : Prop :=
  (0 <= snd c)%Z /\ (len (fst c) + snd c = MMAP_SIZE - 1)%Z.

(** The language of a pattern. *)
Inductive lang : re -> bytes -> Prop :=
| LEps : lang Eps []
| LChr (c : ascii) : lang (Chr c) [c]
| LSpace (c : ascii) : isspace c = true -> lang Space [c]
| LAltL (a b : re) (s : bytes) : lang a s -> lang (Alt a b) s
| LAltR (a b : re) (s : bytes) : lang b s -> lang (Alt a b) s
| LSeq (a b : re) (s t : bytes) :
    lang a s -> lang b t -> lang (Seq a b) (s ++ t)
| LStar0 (a : re) : lang (Star a) []
| LStarS (a : re) (s t : bytes) :
    lang a s -> lang (Star a) t -> lang (Star a) (s ++ t).

(** The literals with which the ten patterns of [init_security_patterns]
    begin: every blocked command contains one of them. *)
Definition trigger_words : list bytes :=
  map lit [ "rm"; "sudo"; "dd"; "mkfs"; "fdisk";
            "passwd"; "chmod"; "chown"; "iptables"; "systemctl" ]%string.

(** What the relay may send, given the events of the connection: to the
    backend only a message of the frontend that passed the validation, to
    the frontend only the error message or a message of the backend. *)
Definition relayed (evs : list Proxy.select_result) (a : action) : Prop :=
  match a with
  | SendBackend b =>
      b <> [] /\ validate_command (cstr b) = true
      /\ Proxy.from_frontend evs b
  | SendFrontend b =>
      b = error_msg \/ (b <> [] /\ Proxy.from_backend evs b)
  end.

(** A configuration file with room for one more line: it cannot be read,
    or [fgets] cuts it into fewer than 99 pieces. *)
Definition short_file (old : option bytes) : Prop :=
  match old with
  | Some f => (List.length (Config.file_chunks f) < 99)%nat
  | None => True
  end.

(** The state holds the setting. *)
Definition holds (key value : bytes) (st : Config.settings) : Prop :=
  Config.getenv (Config.environ st) key = Some value
  /\ (key = lit "VERBOSE" -> Config.verbose st = atoi value).

(** A line as [update_config_file] writes it: at most 255 bytes, none of
    them a newline or a NUL. *)
Definition writable (l : bytes) : Prop :=
  Config.plain l /\ (List.length l <= 255)%nat.

End Invariants.

(** * Properties *)

Import Regex SecurityAgent Sandbox Frontend Invariants.

(** ** C strings *)

Lemma bytes_eqb_eq (a b : bytes) : bytes_eqb a b = true <-> a = b.
Proof.
  revert b; induction a as [|x a IH]; intros [|y b]; simpl;
    try (split; congruence).
  rewrite andb_true_iff, Ascii.eqb_eq, IH.
  split; [intros [-> ->]; reflexivity | intros H; inversion H; auto].
Qed.

Lemma prefixb_app (p s : bytes) : prefixb p (p ++ s) = true.
Proof.
  induction p as [|a p IH]; simpl; [reflexivity|].
  now rewrite Ascii.eqb_refl.
Qed.

Lemma prefixb_refl_eqb (a b : bytes) :
  bytes_eqb a b = true -> prefixb b a = true.
Proof.
  intros H; apply bytes_eqb_eq in H; subst.
  rewrite <- (app_nil_r b) at 2; apply prefixb_app.
Qed.

(** A prefix found in the string view of a buffer is a prefix of the
    buffer. *)
Lemma prefixb_of_cstr (p s : bytes) :
  prefixb p (cstr s) = true -> prefixb p s = true.
Proof.
  revert s; induction p as [|a p IH]; intros s; simpl; [reflexivity|].
  destruct s as [|b s]; simpl; [discriminate|].
  destruct (Ascii.eqb b NUL); [discriminate|].
  rewrite !andb_true_iff; intros [? ?]; auto.
Qed.

(** A prefix without NUL is seen through the string view. *)
Lemma prefixb_to_cstr (p s : bytes) :
  no_nul p -> prefixb p s = true -> prefixb p (cstr s) = true.
Proof.
  intros Hp; revert s; induction Hp as [|a p Ha Hp IH]; intros s; simpl;
    [reflexivity|].
  destruct s as [|b s]; simpl; [discriminate|].
  rewrite andb_true_iff; intros [Hab Hps].
  apply Ascii.eqb_eq in Hab; subst b.
  destruct (Ascii.eqb a NUL) eqn:E; [apply Ascii.eqb_eq in E; contradiction|].
  simpl; rewrite Ascii.eqb_refl; simpl; auto.
Qed.

Lemma cstr_fixed (s : bytes) : no_nul s -> cstr s = s.
Proof.
  induction 1 as [|a s Ha _ IH]; simpl; [reflexivity|].
  destruct (Ascii.eqb a NUL) eqn:E; [apply Ascii.eqb_eq in E; contradiction|].
  now rewrite IH.
Qed.

Lemma cstr_no_nul (s : bytes) : no_nul (cstr s).
Proof.
  induction s as [|a s IH]; simpl; [constructor|].
  destruct (Ascii.eqb a NUL) eqn:E; constructor; auto.
  intros ->; now rewrite Ascii.eqb_refl in E.
Qed.

(** Lengths of literals, computed. *)
Ltac lit_lengths :=
  repeat match goal with
    | |- context [List.length (lit ?s)] =>
        let n := eval vm_compute in (List.length (lit s)) in
        change (List.length (lit s)) with n
    | |- context [List.length (?c :: @nil ascii)] =>
        change (List.length (c :: @nil ascii)) with 1%nat
    end.

Ltac no_nul_lit :=
  repeat (constructor; [discriminate|]); constructor.

(** ** Searching in concatenations *)

Lemma strstr_found (s pat : bytes) :
  prefixb pat s = true -> strstr s pat = Some s.
Proof. intros H; destruct s; simpl; now rewrite H. Qed.

Lemma strstr_cons_mismatch (c : ascii) (s pat : bytes) :
  prefixb pat (c :: s) = false -> strstr (c :: s) pat = strstr s pat.
Proof. intros H; simpl strstr; now rewrite H. Qed.

(** Bytes that differ from the first byte of the pattern are skipped. *)
Lemma strstr_skip (a rest pat : bytes) (p0 : ascii) :
  hd_error pat = Some p0 ->
  Forall (fun c => c <> p0) a ->
  strstr (a ++ rest) pat = strstr rest pat.
Proof.
  destruct pat as [|p pat]; [discriminate|]. intros [= ->].
  induction 1 as [|c a Hc _ IH]; [reflexivity|].
  simpl app. rewrite strstr_cons_mismatch; [exact IH|].
  simpl. destruct (Ascii.eqb p0 c) eqn:E; [|reflexivity].
  apply Ascii.eqb_eq in E; congruence.
Qed.

(** A pattern that starts inside [a] and runs over a byte it does not
    contain cannot match. *)
Lemma prefixb_across (pat a : bytes) (c : ascii) (rest : bytes) :
  ~ In c pat ->
  prefixb pat (a ++ c :: rest) = true -> prefixb pat a = true.
Proof.
  revert a; induction pat as [|p pat IH]; intros a Hc; simpl; [reflexivity|].
  destruct a as [|x a]; simpl.
  - rewrite andb_true_iff, Ascii.eqb_eq; intros [-> _].
    exfalso; apply Hc; now left.
  - rewrite !andb_true_iff; intros [? H]; split; [assumption|].
    apply IH in H; [assumption|]. intros Hin; apply Hc; now right.
Qed.

Lemma strstr_skip_payload (a : bytes) (c : ascii) (rest pat : bytes) :
  pat <> [] -> ~ In c pat ->
  strstr a pat = None ->
  strstr (a ++ c :: rest) pat = strstr rest pat.
Proof.
  intros Hne Hc; induction a as [|x a IH]; intros Hnone.
  - simpl app. apply strstr_cons_mismatch.
    destruct pat as [|p pat]; [congruence|]. simpl.
    destruct (Ascii.eqb p c) eqn:E; [|reflexivity].
    apply Ascii.eqb_eq in E; subst. exfalso; apply Hc; now left.
  - simpl in Hnone.
    destruct (prefixb pat (x :: a)) eqn:E; [discriminate|].
    simpl app. rewrite strstr_cons_mismatch; [auto|].
    destruct (prefixb pat (x :: a ++ c :: rest)) eqn:E'; [|reflexivity].
    apply (prefixb_across pat (x :: a) c rest Hc) in E'. congruence.
Qed.

(** The result of [strstr] is a suffix of the string. *)
Lemma strstr_suffix (s pat t : bytes) :
  strstr s pat = Some t -> exists a, s = a ++ t.
Proof.
  induction s as [|c s IH]; simpl.
  - destruct (prefixb pat []); [|discriminate].
    intros [= <-]; now exists [].
  - destruct (prefixb pat (c :: s)).
    + intros [= <-]; now exists [].
    + intros H; destruct (IH H) as [a ->]. now exists (c :: a).
Qed.

(** ** Regular expressions *)

Lemma nullable_sound (r : re) : nullable r = true -> lang r [].
Proof.
  induction r; simpl; try discriminate.
  - constructor.
  - intros H; apply orb_true_iff in H as [H|H];
      [apply LAltL | apply LAltR]; auto.
  - intros H; apply andb_true_iff in H as [H1 H2].
    change (@nil ascii) with (@nil ascii ++ []). constructor; auto.
  - constructor.
Qed.

Lemma deriv_sound (c : ascii) (r : re) (s : bytes) :
  lang (deriv c r) s -> lang r (c :: s).
Proof.
  revert s; induction r as [| |d| |a IHa b IHb|a IHa b IHb|a IHa];
    intros s; simpl.
  - inversion 1.
  - inversion 1.
  - destruct (Ascii.eqb c d) eqn:E; inversion 1; subst.
    apply Ascii.eqb_eq in E; subst. constructor.
  - destruct (isspace c) eqn:E; inversion 1; subst. now constructor.
  - inversion 1; subst; [apply LAltL | apply LAltR]; auto.
  - assert (S1 : lang (Seq (deriv c a) b) s -> lang (Seq a b) (c :: s)).
    { inversion 1; subst.
      change (c :: s0 ++ t) with ((c :: s0) ++ t). constructor; auto. }
    destruct (nullable a) eqn:N; [|exact S1].
    inversion 1; subst; [auto|].
    change (c :: s) with ([] ++ c :: s).
    constructor; [now apply nullable_sound | auto].
  - inversion 1; subst.
    change (c :: s0 ++ t) with ((c :: s0) ++ t). constructor; auto.
Qed.

Lemma match_prefix_sound (r : re) (s : bytes) :
  match_prefix r s = true -> exists p q, s = p ++ q /\ lang r p.
Proof.
  revert r; induction s as [|c s IH]; intros r; simpl.
  - rewrite orb_false_r. intros N. exists [], [].
    split; [reflexivity | now apply nullable_sound].
  - intros H; apply orb_true_iff in H as [N|H].
    + exists [], (c :: s). split; [reflexivity | now apply nullable_sound].
    + destruct (IH _ H) as (p & q & -> & L).
      exists (c :: p), q. split; [reflexivity | now apply deriv_sound].
Qed.

Lemma lang_Lit (l p : bytes) : lang (Lit l) p -> p = l.
Proof.
  revert p; induction l as [|c l IH]; intros p; simpl; inversion 1; subst;
    [reflexivity|].
  match goal with H : lang (Chr _) _ |- _ => inversion H; subst end.
  simpl. f_equal. auto.
Qed.

Lemma contains_prefix (s w : bytes) : prefixb w s = true -> contains s w = true.
Proof. intros H; unfold contains. now rewrite strstr_found. Qed.

Lemma contains_cons (c : ascii) (s w : bytes) :
  contains s w = true -> contains (c :: s) w = true.
Proof.
  unfold contains; simpl strstr at 2.
  destruct (prefixb w (c :: s)); [reflexivity | auto].
Qed.

Lemma contains_app_l (a s w : bytes) :
  contains s w = true -> contains (a ++ s) w = true.
Proof.
  intros H; induction a as [|c a IH]; [exact H|].
  simpl app. now apply contains_cons.
Qed.

Lemma prefixb_app_r (w s b : bytes) :
  prefixb w s = true -> prefixb w (s ++ b) = true.
Proof.
  revert s; induction w as [|x w IH]; intros s; simpl; [reflexivity|].
  destruct s as [|y s]; [discriminate|]. simpl.
  rewrite !andb_true_iff. intros [? ?]; split; auto.
Qed.

Lemma contains_app_r (s b w : bytes) :
  contains s w = true -> contains (s ++ b) w = true.
Proof.
  induction s as [|c s IH].
  - unfold contains at 1; simpl.
    destruct (prefixb w []) eqn:E; [|discriminate]. intros _.
    apply contains_prefix. destruct w; [reflexivity | discriminate].
  - unfold contains at 1; simpl strstr.
    destruct (prefixb w (c :: s)) eqn:E.
    + intros _. apply contains_prefix.
      now apply (prefixb_app_r w (c :: s) b).
    + intros H. simpl app. apply contains_cons, IH. exact H.
Qed.

Lemma match_prefix_literal (l : bytes) (r : re) (s : bytes) :
  match_prefix (Seq (Lit l) r) s = true -> prefixb l s = true.
Proof.
  intros H. apply match_prefix_sound in H as (p & q & -> & L).
  inversion L; subst.
  match goal with H : lang (Lit _) _ |- _ => apply lang_Lit in H; subst end.
  rewrite <- app_assoc. apply prefixb_app.
Qed.

(** A match of a pattern that begins with a literal shows the literal in
    the string. *)
Lemma regexec_literal (l : bytes) (r : re) (s : bytes) :
  regexec (Seq (Lit l) r) s = true -> contains s l = true.
Proof.
  induction s as [|c s IH]; cbn [regexec]; intros H;
    apply orb_true_iff in H as [H|H]; try discriminate.
  - now apply contains_prefix, (match_prefix_literal l r).
  - now apply contains_prefix, (match_prefix_literal l r).
  - apply contains_cons; auto.
Qed.

Lemma match_prefix_app_r (r : re) (s b : bytes) :
  match_prefix r s = true -> match_prefix r (s ++ b) = true.
Proof.
  revert r; induction s as [|c s IH]; intros r; simpl.
  - rewrite orb_false_r. intros N. destruct b; simpl; rewrite N; reflexivity.
  - intros H; apply orb_true_iff in H as [->|H]; [reflexivity|].
    rewrite (IH _ H). apply orb_true_r.
Qed.

Lemma regexec_app_r (r : re) (s b : bytes) :
  regexec r s = true -> regexec r (s ++ b) = true.
Proof.
  induction s as [|c s IH]; cbn [regexec].
  - rewrite orb_false_r. intros H.
    apply (match_prefix_app_r r [] b) in H. cbn [app] in *.
    destruct b; cbn [regexec]; rewrite H; reflexivity.
  - intros H; apply orb_true_iff in H as [H|H].
    + apply (match_prefix_app_r r (c :: s) b) in H.
      cbn [app] in *. cbn [regexec]. now rewrite H.
    + cbn [app regexec]. rewrite (IH H). apply orb_true_r.
Qed.

Lemma regexec_app_l (r : re) (a s : bytes) :
  regexec r s = true -> regexec r (a ++ s) = true.
Proof.
  intros H; induction a as [|c a IH]; [exact H|].
  cbn [app regexec]. rewrite IH. apply orb_true_r.
Qed.

Lemma existsb_regexec_embed (rs : list re) (a c b : bytes) :
  existsb (fun r => regexec r c) rs = true ->
  existsb (fun r => regexec r (a ++ c ++ b)) rs = true.
Proof.
  intros H. apply existsb_exists in H as (r & I & R).
  apply existsb_exists. exists r. split; [exact I|].
  now apply regexec_app_l, regexec_app_r.
Qed.

(** A command in which none of the ten words occurs passes the
    validation. *)
Lemma quiet_command_passes (command : bytes) :
  existsb (contains command) trigger_words = false ->
  validate_command command = true.
Proof.
  intros Q. unfold validate_command.
  destruct (is_system_command command); [reflexivity|].
  assert (W : forall w, In w trigger_words -> contains command w = false).
  { intros w I. destruct (contains command w) eqn:C; [|reflexivity].
    assert (E : existsb (contains command) trigger_words = true)
      by (apply existsb_exists; now exists w).
    congruence. }
  assert (P : forall (rs : list re) (ws : list bytes),
             Forall2 (fun r w => exists r', r = Seq (Lit w) r') rs ws ->
             incl ws trigger_words ->
             existsb (fun r => regexec r command) rs = false).
  { intros rs ws F I.
    destruct (existsb (fun r => regexec r command) rs) eqn:H; [|reflexivity].
    apply existsb_exists in H as (r & Ir & R).
    induction F as [|r0 w rs ws (r' & ->) F IH].
    - destruct Ir.
    - destruct Ir as [<-|Ir].
      + apply regexec_literal in R.
        rewrite (W w) in R; [discriminate | apply I; now left].
      + apply IH; [|exact Ir]. intros x Hx; apply I; now right. }
  unfold matches_dangerous, matches_sensitive, rm_rf_rule.
  rewrite (P dangerous_patterns
             (map lit ["rm"; "sudo"; "dd"; "mkfs"; "fdisk"]%string));
    [ | repeat constructor; eexists; reflexivity
      | intros x Hx; simpl in Hx; unfold trigger_words; simpl; tauto ].
  rewrite (P sensitive_patterns
             (map lit ["passwd"; "chmod"; "chown"; "iptables";
                       "systemctl"]%string));
    [ | repeat constructor; eexists; reflexivity
      | intros x Hx; simpl in Hx; unfold trigger_words; simpl; tauto ].
  rewrite (W (lit "rm")) by now left.
  reflexivity.
Qed.

(** A command that matches a DANGEROUS pattern still matches with text
    before it. *)
Lemma matches_dangerous_app_l (a c : bytes) :
  matches_dangerous c = true -> matches_dangerous (a ++ c) = true.
Proof.
  unfold matches_dangerous. intros H.
  apply existsb_exists in H as (r & I & R).
  apply existsb_exists. exists r. split; [exact I|].
  now apply regexec_app_l.
Qed.

(** ** The security proxy *)

Lemma no_prefix_no_system_command (payload : bytes) :
  begins_with_system_prefix payload = false ->
  is_system_command (cstr payload) = false.
Proof.
  unfold begins_with_system_prefix, is_system_command.
  rewrite !orb_false_iff; intros [[H1 H2] H3].
  repeat split.
  - destruct (prefixb (lit "CWD:") (cstr payload)) eqn:E; [|reflexivity].
    apply prefixb_of_cstr in E; congruence.
  - destruct (strcmp_eq (cstr payload) (lit "STATUS")) eqn:E; [|reflexivity].
    apply prefixb_refl_eqb, prefixb_of_cstr in E; congruence.
  - destruct (prefixb (lit "BASH_FAILED:") (cstr payload)) eqn:E; [|reflexivity].
    apply prefixb_of_cstr in E; congruence.
Qed.

Lemma pieces_of_nil (fuel : nat) : Proxy.pieces_of fuel [] = [].
Proof. destruct fuel; reflexivity. Qed.

(** A payload that fits the buffer comes out of the socket in one piece. *)
Lemma pieces_short (payload : bytes) :
  payload <> [] -> (List.length payload <= 4095)%nat ->
  Proxy.pieces payload = [payload].
Proof.
  intros Hne Hlen. unfold Proxy.pieces.
  destruct payload as [|c r]; [congruence|].
  change (List.length (c :: r)) with (S (List.length r)).
  cbn [Proxy.pieces_of].
  rewrite firstn_all2 by exact Hlen.
  rewrite skipn_all2 by exact Hlen.
  now rewrite pieces_of_nil.
Qed.

Lemma blocked_payload (payload : bytes) (sent : send_result) :
  payload <> [] ->
  (List.length payload <= 4095)%nat ->
  validate_command (cstr payload) = false ->
  on_frontend_data payload sent
  = ([SendFrontend error_msg], after_refusal sent).
Proof.
  intros Hne Hlen V. unfold on_frontend_data.
  rewrite firstn_all2 by exact Hlen.
  destruct payload as [|c r]; [congruence|].
  now rewrite V.
Qed.

Lemma forwarded_payload (payload : bytes) (sent : send_result) :
  payload <> [] ->
  (List.length payload <= 4095)%nat ->
  validate_command (cstr payload) = true ->
  on_frontend_data payload sent = ([SendBackend payload], after_send sent).
Proof.
  intros Hne Hlen V. unfold on_frontend_data.
  rewrite firstn_all2 by exact Hlen.
  destruct payload as [|c r]; [congruence|].
  now rewrite V.
Qed.

(** The relay on a payload that arrives in one piece. *)
Lemma relay_one_piece (payload : bytes) :
  payload <> [] ->
  (List.length payload <= 4095)%nat ->
  Proxy.relay (Proxy.arrival payload)
  = fst (on_frontend_data payload Sent).
Proof.
  intros Hne Hlen. unfold Proxy.arrival.
  rewrite (pieces_short payload Hne Hlen).
  cbn [map Proxy.relay Proxy.relay_step].
  destruct (validate_command (cstr payload)) eqn:V.
  - rewrite (forwarded_payload payload Sent Hne Hlen V). reflexivity.
  - rewrite (blocked_payload payload Sent Hne Hlen V). reflexivity.
Qed.

(** Two pieces that both pass the validation are both forwarded. *)
Lemma relay_two_pieces (p1 p2 : bytes) :
  p1 <> [] -> (List.length p1 <= 4095)%nat ->
  p2 <> [] -> (List.length p2 <= 4095)%nat ->
  validate_command (cstr p1) = true ->
  validate_command (cstr p2) = true ->
  Proxy.relay [Proxy.SelectReady (Some (p1, Sent)) None;
               Proxy.SelectReady (Some (p2, Sent)) None]
  = [SendBackend p1; SendBackend p2].
Proof.
  intros N1 L1 N2 L2 V1 V2.
  cbn [Proxy.relay Proxy.relay_step].
  rewrite (forwarded_payload p1 Sent N1 L1 V1).
  rewrite (forwarded_payload p2 Sent N2 L2 V2).
  reflexivity.
Qed.

Lemma long_dangerous_pieces :
  Proxy.pieces Cases.long_dangerous
  = [Cases.padding 4094 ++ lit "r"; lit "m -rf /"].
Proof. vm_compute; reflexivity. Qed.

Lemma long_dangerous_relay :
  Proxy.relay (Proxy.arrival Cases.long_dangerous)
  = [SendBackend (Cases.padding 4094 ++ lit "r"); SendBackend (lit "m -rf /")].
Proof.
  unfold Proxy.arrival. rewrite long_dangerous_pieces.
  cbn [map]. apply relay_two_pieces.
  - intros E. apply (f_equal (@List.length ascii)) in E.
    vm_compute in E. discriminate E.
  - apply Nat.leb_le. vm_compute. reflexivity.
  - discriminate.
  - apply Nat.leb_le. vm_compute. reflexivity.
  - apply quiet_command_passes. vm_compute. reflexivity.
  - vm_compute. reflexivity.
Qed.

(** C1 as the specification states it fails.  The agent validates what
    one [recv] puts in its buffer of 4096 bytes, as a string.  A payload
    of 4102 bytes that ends in [rm -rf /] comes in two pieces, each of
    which passes, and every byte of it is sent to the backend; and of a
    payload with a NUL only the text before the NUL is looked at. *)
Lemma long_dangerous_payload_passes :
  (begins_with_system_prefix Cases.long_dangerous = false
   /\ matches_dangerous Cases.long_dangerous = true
   /\ Proxy.pieces Cases.long_dangerous
      = [Cases.padding 4094 ++ lit "r"; lit "m -rf /"]
   /\ Proxy.relay (Proxy.arrival Cases.long_dangerous)
      = [SendBackend (Cases.padding 4094 ++ lit "r");
         SendBackend (lit "m -rf /")]
   /\ backend_bytes (Proxy.relay (Proxy.arrival Cases.long_dangerous))
      = Cases.long_dangerous)
  /\ (begins_with_system_prefix Cases.after_nul = false
      /\ matches_dangerous Cases.after_nul = true
      /\ Proxy.relay (Proxy.arrival Cases.after_nul)
         = [SendBackend Cases.after_nul]).
Proof.
  split.
  - split; [vm_compute; reflexivity|].
    split; [apply matches_dangerous_app_l; vm_compute; reflexivity|].
    split; [exact long_dangerous_pieces|].
    split; [exact long_dangerous_relay|].
    rewrite long_dangerous_relay. vm_compute. reflexivity.
  - split; [vm_compute; reflexivity|].
    split; vm_compute; reflexivity.
Qed.

(** C1, amended.  A payload that one [recv] delivers whole (at most 4095
    bytes), that starts with none of the system prefixes and whose text up
    to its first NUL matches a DANGEROUS pattern is not forwarded: the one
    [send] is that of the fixed SECURITY_BLOCKED message to the frontend,
    and no byte goes to the backend.  The result of that [send] is not
    looked at: the loop goes on, unless the frontend has closed and the
    agent is ended by SIGPIPE. *)
Theorem dangerous_payload_blocked (payload : bytes) (sent : send_result) :
  payload <> [] ->
  (List.length payload <= 4095)%nat ->
  begins_with_system_prefix payload = false ->
  matches_dangerous (cstr payload) = true ->
  Proxy.pieces payload = [payload]
  /\ on_frontend_data payload sent
     = ([SendFrontend error_msg],
        match sent with
        | Sent | SendFailed => Continue
        | Sigpipe => Killed
        end)
  /\ backend_bytes (fst (on_frontend_data payload sent)) = []
  /\ Proxy.relay (Proxy.arrival payload) = [SendFrontend error_msg]
  /\ error_msg
     = lit "SECURITY_BLOCKED: Command blocked by security agent" ++ [LF].
Proof.
  intros Hne Hlen Hpre Hdanger.
  assert (V : validate_command (cstr payload) = false).
  { unfold validate_command.
    now rewrite (no_prefix_no_system_command _ Hpre), Hdanger. }
  split; [exact (pieces_short payload Hne Hlen)|].
  rewrite (relay_one_piece payload Hne Hlen).
  rewrite !(blocked_payload payload _ Hne Hlen V).
  repeat split.
Qed.

Lemma dangerous_payload_blocked_witness :
  Proxy.pieces (lit "QUERY:sudo rm -rf /home")
  = [lit "QUERY:sudo rm -rf /home"]
  /\ on_frontend_data (lit "QUERY:sudo rm -rf /home") Sent
     = ([SendFrontend error_msg], Continue)
  /\ backend_bytes
       (fst (on_frontend_data (lit "QUERY:sudo rm -rf /home") Sent)) = []
  /\ Proxy.relay (Proxy.arrival (lit "QUERY:sudo rm -rf /home"))
     = [SendFrontend error_msg]
  /\ error_msg
     = lit "SECURITY_BLOCKED: Command blocked by security agent" ++ [LF].
Proof.
  apply (dangerous_payload_blocked (lit "QUERY:sudo rm -rf /home") Sent).
  - discriminate.
  - apply Nat.leb_le; reflexivity.
  - reflexivity.
  - reflexivity.
Defined.

(** C2 as the specification states it fails: a payload that begins with
    STATUS and goes on is validated like any other text; and of a payload
    of 4104 bytes that begins with [CWD:] the first [recv] takes 4095
    bytes, so that the rest is validated on its own and blocked. *)
Lemma system_prefix_is_not_enough :
  (begins_with_system_prefix (lit "STATUS rm -rf /") = true
   /\ on_frontend_data (lit "STATUS rm -rf /") Sent
      = ([SendFrontend error_msg], Continue)
   /\ fst (on_frontend_data (lit "STATUS rm -rf /") Sent)
      <> [SendBackend (lit "STATUS rm -rf /")])
  /\ (begins_with_system_prefix Cases.long_cwd = true
      /\ Proxy.pieces Cases.long_cwd
         = [lit "CWD:/" ++ Cases.padding 4090; lit "rm -rf /x"]
      /\ Proxy.relay (Proxy.arrival Cases.long_cwd)
         = [SendBackend (lit "CWD:/" ++ Cases.padding 4090);
            SendFrontend error_msg]
      /\ backend_bytes (Proxy.relay (Proxy.arrival Cases.long_cwd))
         <> Cases.long_cwd).
Proof.
  split; [repeat split; discriminate|].
  split; [vm_compute; reflexivity|].
  split; [vm_compute; reflexivity|].
  split; [vm_compute; reflexivity|].
  intros E.
  apply (f_equal (@List.length ascii)) in E.
  vm_compute in E. discriminate E.
Qed.

(** C2, amended.  A payload that one [recv] delivers whole (at most 4095
    bytes) and that begins with [CWD:] or [BASH_FAILED:], or whose text up
    to its first NUL is exactly [STATUS], is never pattern blocked: it is
    handed to the [send] for the backend byte for byte, whatever else it
    contains.  The loop goes on when the [send] succeeds, the connection
    is dropped when it fails, and the agent is ended by SIGPIPE when the
    backend has closed. *)
Theorem system_command_forwarded (payload : bytes) (sent : send_result) :
  payload <> [] ->
  (List.length payload <= 4095)%nat ->
  prefixb (lit "CWD:") payload = true
  \/ cstr payload = lit "STATUS"
  \/ prefixb (lit "BASH_FAILED:") payload = true ->
  Proxy.pieces payload = [payload]
  /\ on_frontend_data payload sent
     = ([SendBackend payload],
        match sent with
        | Sent => Continue
        | SendFailed => Break
        | Sigpipe => Killed
        end)
  /\ backend_bytes (fst (on_frontend_data payload sent)) = payload
  /\ Proxy.relay (Proxy.arrival payload) = [SendBackend payload].
Proof.
  intros Hne Hlen Hsys.
  assert (S : is_system_command (cstr payload) = true).
  { unfold is_system_command.
    destruct Hsys as [H | [H | H]].
    - rewrite (prefixb_to_cstr (lit "CWD:") payload); [reflexivity | | exact H].
      no_nul_lit.
    - rewrite H; reflexivity.
    - rewrite (prefixb_to_cstr (lit "BASH_FAILED:") payload);
        [now rewrite !orb_true_r | | exact H].
      no_nul_lit. }
  assert (V : validate_command (cstr payload) = true).
  { unfold validate_command; now rewrite S. }
  split; [exact (pieces_short payload Hne Hlen)|].
  rewrite (relay_one_piece payload Hne Hlen).
  rewrite !(forwarded_payload payload _ Hne Hlen V).
  cbn [fst backend_bytes flat_map to_backend].
  rewrite app_nil_r.
  split; [reflexivity|]. split; reflexivity.
Qed.

Lemma system_command_forwarded_witness :
  Proxy.pieces (lit "CWD:/tmp/rm -rf /") = [lit "CWD:/tmp/rm -rf /"]
  /\ on_frontend_data (lit "CWD:/tmp/rm -rf /") Sent
     = ([SendBackend (lit "CWD:/tmp/rm -rf /")], Continue)
  /\ backend_bytes (fst (on_frontend_data (lit "CWD:/tmp/rm -rf /") Sent))
     = lit "CWD:/tmp/rm -rf /"
  /\ Proxy.relay (Proxy.arrival (lit "CWD:/tmp/rm -rf /"))
     = [SendBackend (lit "CWD:/tmp/rm -rf /")].
Proof.
  apply (system_command_forwarded (lit "CWD:/tmp/rm -rf /") Sent).
  - discriminate.
  - apply Nat.leb_le; reflexivity.
  - left; reflexivity.
Defined.

(** ** Printing and parsing numbers *)

Ltac pow_consts :=
  change (2 ^ 31)%Z with 2147483648%Z in *;
  change (2 ^ 32)%Z with 4294967296%Z in *;
  change (2 ^ 63)%Z with 9223372036854775808%Z in *;
  change (2 ^ 64)%Z with 18446744073709551616%Z in *.

Lemma digit_is_digit (d : Z) :
  (0 <= d < 10)%Z -> isdigit (digit d) = true /\ digit_value (digit d) = d.
Proof.
  intros H.
  assert (C : (d = 0 \/ d = 1 \/ d = 2 \/ d = 3 \/ d = 4 \/ d = 5 \/ d = 6
               \/ d = 7 \/ d = 8 \/ d = 9)%Z) by lia.
  repeat (destruct C as [C | C]; [subst d; split; reflexivity | ]).
  subst d; split; reflexivity.
Qed.

Lemma print_digits_app (fuel : nat) (n : Z) (acc : bytes) :
  print_digits fuel n acc = print_digits fuel n [] ++ acc.
Proof.
  revert n acc; induction fuel as [|f IH]; intros n acc; simpl; [reflexivity|].
  destruct (n / 10 =? 0)%Z; [reflexivity|].
  rewrite (IH _ (digit (n mod 10) :: acc)), (IH _ [digit (n mod 10)]).
  now rewrite <- app_assoc.
Qed.

Lemma print_digits_length (fuel : nat) (n : Z) (acc : bytes) :
  (List.length (print_digits fuel n acc) <= fuel + List.length acc)%nat.
Proof.
  revert n acc; induction fuel as [|f IH]; intros n acc; simpl; [lia|].
  destruct (n / 10 =? 0)%Z; simpl; [lia|].
  specialize (IH (n / 10)%Z (digit (n mod 10) :: acc)); simpl in IH; lia.
Qed.

Lemma print_digits_nonempty (fuel : nat) (n : Z) :
  (1 <= List.length (print_digits (S fuel) n []))%nat.
Proof.
  simpl. destruct (n / 10 =? 0)%Z; simpl; [lia|].
  rewrite print_digits_app, length_app; simpl; lia.
Qed.

Lemma print_digits_chars (fuel : nat) (n : Z) (acc : bytes) :
  Forall (fun c => isdigit c = true) acc ->
  Forall (fun c => isdigit c = true) (print_digits fuel n acc).
Proof.
  revert n acc; induction fuel as [|f IH]; intros n acc Hacc; simpl; [assumption|].
  assert (D : isdigit (digit (n mod 10)) = true).
  { apply digit_is_digit. apply Z.mod_pos_bound; lia. }
  destruct (n / 10 =? 0)%Z; [constructor; assumption|].
  apply IH; constructor; assumption.
Qed.

(** Reading back the digits that were printed. *)
Lemma parse_print_digits (fuel : nat) (n : Z) (acc : bytes) :
  (0 <= n < 10 ^ Z.of_nat fuel)%Z ->
  exists m, forall a,
    parse_digits a (print_digits fuel n acc) = parse_digits (a * m + n) acc.
Proof.
  revert n acc; induction fuel as [|f IH]; intros n acc Hn.
  - exists 1%Z; intros a. cbn [print_digits]. f_equal.
    change (10 ^ Z.of_nat 0)%Z with 1%Z in Hn. lia.
  - simpl print_digits.
    assert (Hd : (0 <= n mod 10 < 10)%Z) by (apply Z.mod_pos_bound; lia).
    destruct (digit_is_digit _ Hd) as [D1 D2].
    destruct (n / 10 =? 0)%Z eqn:E.
    + apply Z.eqb_eq in E. exists 10%Z; intros a.
      cbn [parse_digits]. rewrite D1, D2. f_equal.
      pose proof (Z.div_mod n 10 ltac:(lia)); lia.
    + assert (Hq : (0 <= n / 10 < 10 ^ Z.of_nat f)%Z).
      { split; [apply Z.div_pos; lia|].
        apply Z.div_lt_upper_bound; [lia|].
        rewrite Nat2Z.inj_succ, Z.pow_succ_r in Hn; lia. }
      destruct (IH (n / 10)%Z (digit (n mod 10) :: acc) Hq) as [m Hm].
      exists (m * 10)%Z; intros a. rewrite Hm. cbn [parse_digits]. rewrite D1, D2.
      f_equal. pose proof (Z.div_mod n 10 ltac:(lia)); lia.
Qed.

Lemma parse_print_unsigned (n : Z) (c : ascii) (rest : bytes) :
  (0 <= n < 2 ^ 64)%Z -> isdigit c = false ->
  parse_digits 0 (print_unsigned n ++ c :: rest) = n.
Proof.
  intros Hn Hc. unfold print_unsigned. pow_consts.
  rewrite <- print_digits_app.
  destruct (parse_print_digits 20 n (c :: rest)) as [m Hm].
  { change (10 ^ Z.of_nat 20)%Z with 100000000000000000000%Z. lia. }
  rewrite Hm. cbn [parse_digits]. now rewrite Hc.
Qed.

Lemma skip_spaces_digits (s rest : bytes) :
  s <> [] -> Forall (fun c => isdigit c = true) s ->
  skip_spaces (s ++ rest) = s ++ rest.
Proof.
  intros Hne Hs. destruct Hs as [|c s Hc _]; [congruence|].
  simpl. destruct (isspace c) eqn:E; [|reflexivity].
  exfalso. revert Hc E. unfold isdigit, isspace.
  destruct (Nat.leb_spec 48 (nat_of_ascii c)); [|discriminate].
  intros _.
  destruct (Nat.eqb_spec (nat_of_ascii c) 32); [lia|].
  destruct (Nat.leb_spec (nat_of_ascii c) 13); [lia|].
  now rewrite andb_false_r.
Qed.

Lemma print_unsigned_shape (n : Z) :
  exists d ds, print_unsigned n = d :: ds
               /\ Forall (fun c => isdigit c = true) (d :: ds).
Proof.
  pose proof (print_digits_nonempty 19 n) as L.
  pose proof (print_digits_chars 20 n [] (Forall_nil _)) as F.
  unfold print_unsigned.
  destruct (print_digits 20 n []) as [|d ds]; [simpl in L; lia|].
  now exists d, ds.
Qed.

(** [atoi] reads back what [%zu] printed. *)
Lemma atoi_print_unsigned (n : Z) (c : ascii) (rest : bytes) :
  (0 <= n < 2 ^ 31)%Z -> isdigit c = false ->
  atoi (print_unsigned n ++ c :: rest) = n.
Proof.
  intros Hn Hc. unfold atoi, strtol, clamp_long, to_int. pow_consts.
  destruct (print_unsigned_shape n) as (d & ds & E & F).
  rewrite skip_spaces_digits; [|rewrite E; discriminate|rewrite E; exact F].
  pose proof (parse_print_unsigned n c rest) as P. pow_consts.
  specialize (P ltac:(lia) Hc).
  rewrite E in *. simpl app in *. cbv beta iota.
  assert (Hd : isdigit d = true) by now inversion F.
  destruct (Ascii.eqb d "-") eqn:E1;
    [apply Ascii.eqb_eq in E1; subst; discriminate|].
  destruct (Ascii.eqb d "+") eqn:E2;
    [apply Ascii.eqb_eq in E2; subst; discriminate|].
  rewrite P.
  rewrite Z.min_r, Z.max_r by lia.
  rewrite Z.mod_small by lia. lia.
Qed.

(** [atoi] reads back what [%d] printed. *)
Lemma atoi_print_int (n : Z) (c : ascii) (rest : bytes) :
  (- 2 ^ 31 <= n < 2 ^ 31)%Z -> isdigit c = false ->
  atoi (print_int n ++ c :: rest) = n.
Proof.
  intros Hn Hc. unfold print_int.
  destruct (n <? 0)%Z eqn:E.
  - apply Z.ltb_lt in E. unfold atoi, strtol, clamp_long, to_int.
    cbn [skip_spaces app isspace]. 
    pose proof (parse_print_unsigned (- n) c rest) as P. pow_consts.
    specialize (P ltac:(lia) Hc).
    change (isspace "-") with false. cbv iota. change (Ascii.eqb "-" "-") with true.
    cbv iota. rewrite P.
    rewrite Z.min_r, Z.max_r by lia.
    rewrite Z.mod_small by lia. lia.
  - apply Z.ltb_ge in E. apply atoi_print_unsigned; [pow_consts; lia | assumption].
Qed.

Lemma atoi_print_unsigned_line (n : Z) (rest : bytes) :
  (0 <= n < 2 ^ 31)%Z ->
  atoi (print_unsigned n ++ [LF] ++ rest) = n.
Proof. intros H; now apply (atoi_print_unsigned n LF rest H). Qed.

Lemma atoi_print_int_line (n : Z) (rest : bytes) :
  (- 2 ^ 31 <= n < 2 ^ 31)%Z ->
  atoi (print_int n ++ [LF] ++ rest) = n.
Proof. intros H; now apply (atoi_print_int n LF rest H). Qed.

Lemma print_int_chars (n : Z) :
  Forall (fun c => isdigit c = true \/ c = "-"%char) (print_int n).
Proof.
  assert (U : forall k, Forall (fun c => isdigit c = true \/ c = "-"%char)
                          (print_unsigned k)).
  { intros k. eapply Forall_impl; [|apply (print_digits_chars 20 k []); constructor].
    intros a Ha; now left. }
  unfold print_int. destruct (n <? 0)%Z; [constructor; [now right | apply U] | apply U].
Qed.

Lemma print_int_avoids (n : Z) (c0 : ascii) :
  isdigit c0 = false -> c0 <> "-"%char ->
  Forall (fun c => c <> c0) (print_int n).
Proof.
  intros H1 H2. eapply Forall_impl; [|apply print_int_chars].
  intros a [Ha | ->] E; subst; congruence.
Qed.

Lemma print_unsigned_avoids (n : Z) (c0 : ascii) :
  isdigit c0 = false ->
  Forall (fun c => c <> c0) (print_unsigned n).
Proof.
  intros H1. eapply Forall_impl; [|apply (print_digits_chars 20 n []); constructor].
  intros a Ha E; subst; congruence.
Qed.

Lemma print_unsigned_length (n : Z) :
  (List.length (print_unsigned n) <= 20)%nat.
Proof.
  unfold print_unsigned.
  pose proof (print_digits_length 20 n []) as H.
  change (List.length (@nil ascii)) with 0%nat in H. lia.
Qed.

Lemma print_int_length (n : Z) : (List.length (print_int n) <= 21)%nat.
Proof.
  unfold print_int.
  pose proof (print_unsigned_length n).
  pose proof (print_unsigned_length (- n)).
  destruct (n <? 0)%Z; cbn [List.length]; lia.
Qed.

(** ** The filtered output holds no newline *)

Lemma lines_no_lf (s : bytes) : Forall no_lf (lines s).
Proof.
  induction s as [|c s IH]; simpl.
  - repeat constructor.
  - destruct (Ascii.eqb c LF) eqn:E.
    + constructor; [constructor | exact IH].
    + assert (c <> LF) by (intros ->; now rewrite Ascii.eqb_refl in E).
      destruct (lines s) as [|l ls]; [repeat constructor; assumption|].
      inversion IH; subst. constructor; [constructor|]; assumption.
Qed.

Lemma concat_filter_no_lf (f : bytes -> bool) (ls : list bytes) :
  Forall no_lf ls -> no_lf (List.concat (filter f ls)).
Proof.
  induction 1 as [|l ls Hl _ IH]; simpl; [constructor|].
  destruct (f l); simpl; [apply Forall_app; split|]; assumption.
Qed.

Lemma strip_escapes_no_lf (b : bool) (s : bytes) :
  no_lf s -> no_lf (strip_escapes b s).
Proof.
  intros H; revert b; induction H as [|c s Hc _ IH]; intros b; simpl;
    [constructor|].
  destruct (Ascii.eqb c ESC); [apply IH|].
  destruct b; [apply IH | constructor; [assumption | apply IH]].
Qed.

Lemma clean_output_no_lf (cmd : bytes) (acc : acc_state) :
  no_lf (clean_output cmd acc).
Proof.
  apply strip_escapes_no_lf, concat_filter_no_lf, lines_no_lf.
Qed.

Lemma strchr_no_lf (s : bytes) : no_lf s -> strchr s LF = None.
Proof.
  induction 1 as [|c s Hc _ IH]; simpl; [reflexivity|].
  destruct (Ascii.eqb c LF) eqn:E; [apply Ascii.eqb_eq in E; contradiction|].
  exact IH.
Qed.

Lemma upto_last_lf_no_lf (s : bytes) : no_lf s -> upto_last_lf s = [].
Proof.
  induction 1 as [|c s Hc Hs IH]; simpl; [reflexivity|].
  unfold has_char. rewrite (strchr_no_lf s Hs).
  destruct (Ascii.eqb c LF) eqn:E; [apply Ascii.eqb_eq in E; contradiction|].
  reflexivity.
Qed.

Lemma before_match_no_lf (s pat : bytes) :
  no_lf s -> no_lf (before_match s pat).
Proof.
  induction 1 as [|c s Hc _ IH]; simpl.
  - destruct (prefixb pat []); constructor.
  - destruct (prefixb pat (c :: s)); constructor; assumption.
Qed.

(** On a buffer without newline the line of the marker is the whole
    buffer, and removing it leaves nothing. *)
Lemma marker_line_is_all (s pat t : bytes) :
  no_lf s -> strstr s pat = Some t ->
  upto_last_lf (before_match s pat) ++ after_line t = [].
Proof.
  intros Hs Ht.
  rewrite (upto_last_lf_no_lf _ (before_match_no_lf s pat Hs)).
  destruct (strstr_suffix _ _ _ Ht) as [a ->].
  apply Forall_app in Hs as [_ Hs].
  unfold after_line. now rewrite (strchr_no_lf t Hs).
Qed.

(** ** Counting words *)

Lemma count_loop_spec (ws : list bytes) (k : Z) :
  (0 <= k <= 10)%Z ->
  count_loop ws k = Z.min (k + Z.of_nat (List.length ws)) 10.
Proof.
  revert k; induction ws as [|w ws IH]; intros k Hk; simpl count_loop.
  - simpl List.length. lia.
  - destruct (k <? 10)%Z eqn:E.
    + apply Z.ltb_lt in E. rewrite IH by lia.
      change (List.length (w :: ws)) with (S (List.length ws)). lia.
    + apply Z.ltb_ge in E.
      change (List.length (w :: ws)) with (S (List.length ws)). lia.
Qed.

Lemma word_count_three (cmd : bytes) :
  (List.length cmd <= 1023)%nat ->
  (3 <=? word_count cmd)%Z = negb (List.length (words cmd) <? 3)%nat.
Proof.
  intros H. unfold word_count. rewrite firstn_all2 by exact H.
  rewrite count_loop_spec by lia.
  destruct (Nat.ltb_spec (List.length (words cmd)) 3);
    simpl negb; [apply Z.leb_gt | apply Z.leb_le]; lia.
Qed.

(** ** Sandbox verdicts *)

Lemma blank_or_tab_is_delim (c : ascii) : blank_or_tab c = is_delim c.
Proof. reflexivity. Qed.

(** The tokens of [strtok] are as many as the words begin. *)
Lemma strtok_all_length (s cur : bytes) :
  List.length (strtok_all s cur)
  = match cur with
    | [] => word_starts blank_or_tab true s
    | _ :: _ => S (word_starts blank_or_tab false s)
    end.
Proof.
  revert cur; induction s as [|c s IH]; intros cur.
  - destruct cur; reflexivity.
  - cbn [strtok_all word_starts].
    change (blank_or_tab c) with (is_delim c).
    destruct (is_delim c) eqn:D.
    + destruct cur as [|x cur]; cbn [List.length andb negb];
        rewrite (IH []); reflexivity.
    + rewrite (IH (c :: cur)).
      destruct cur; cbn [andb negb]; reflexivity.
Qed.

Lemma words_length (cmd : bytes) :
  List.length (words cmd) = number_of_words cmd.
Proof. exact (strtok_all_length cmd []). Qed.

Lemma write_ok_true (s : session) :
  write_ok s = true -> drain_ends s = true /\ write_succeeds s = true.
Proof. unfold write_ok. intros H. now apply andb_true_iff in H. Qed.

(** The validator on a session that lets the command through. *)
Lemma execute_ready (fuel : nat) (s : session) (env : pty_env) (cmd : bytes) :
  bash_ready s = true -> write_ok s = true ->
  execute_command_in_sandbox fuel s env cmd
  = match accumulate (probe_ps1 (probe env)) (output env) fuel 0 acc_init with
    | None => None
    | Some acc =>
        let '(ops', exit_code, out) :=
          classify cmd (cleanup_ready env) (prompt_detected acc)
            (clean_output cmd acc) in
        Some (ExecOk
                ((map (fun _ => PtyDiscard) (residue env)
                  ++ [PtyWrite (full_cmd cmd); PtyWrite ps1_query]) ++ ops')
                exit_code out [])
    end.
Proof.
  intros Hb Hw. destruct (write_ok_true s Hw) as [Hd Hs].
  unfold execute_command_in_sandbox. rewrite Hb, Hd, Hs. reflexivity.
Qed.

(** The rule as the source applies it: once the prompt was seen, an error
    indicator in the cleaned output decides by the number of words. *)
Lemma classify_shell_error (cmd : bytes) (cr : bool) (out : bytes) :
  (List.length cmd <= 1023)%nat ->
  has_shell_error out = true ->
  classify cmd cr true out
  = ([], if (List.length (words cmd) <? 3)%nat then (-109)%Z else (-113)%Z,
     out).
Proof.
  intros Hlen Herr. unfold classify. simpl negb. cbv iota. rewrite Herr.
  rewrite (word_count_three cmd Hlen).
  destruct (List.length (words cmd) <? 3)%nat; reflexivity.
Qed.

(** C3 as the specification states it fails.  The indicators are looked
    for in the output after the filtering, and only once the prompt was
    seen; the words are what [strtok] finds between blanks and tabs.  For
    [b] the line that reports the error begins with the command and is
    filtered out: the verdict is bash's 127, which the frontend takes for
    an other failure.  When the prompt is not recognised the verdict is
    -103.  And three words on three lines count as one. *)
Lemma shell_error_is_not_enough :
  (exists acc,
     accumulate (probe_ps1 (probe Scenario.env_b)) (output Scenario.env_b)
       2 0 acc_init = Some acc
     /\ contains (captured acc) (lit "command not found") = true
     /\ number_of_words (lit "b") = 1%nat
     /\ execute_command_in_sandbox 2 Scenario.session_ok Scenario.env_b
          (lit "b")
        = Some (ExecOk [PtyWrite (full_cmd (lit "b")); PtyWrite ps1_query]
                  127 [] [])
     /\ test_command_in_sandbox true
          (Scenario.validate 2 Scenario.session_ok Scenario.env_b (lit "b"))
        = (-2)%Z)
  /\ (exists acc,
        accumulate (probe_ps1 (probe Scenario.env_cut_prompt))
          (output Scenario.env_cut_prompt) 52 0 acc_init = Some acc
        /\ contains (captured acc) (lit "command not found") = true
        /\ number_of_words (lit "foobar --baz") = 2%nat
        /\ execute_command_in_sandbox 52 Scenario.session_ok
             Scenario.env_cut_prompt (lit "foobar --baz")
           = Some (ExecOk [PtyWrite (full_cmd (lit "foobar --baz"));
                           PtyWrite ps1_query; PtyWrite [ETX]; Usleep 100000]
                     (-103) (lit "INTERACTIVE_COMMAND") []))
  /\ (count_words isspace Scenario.three_lines = 3%nat
      /\ execute_command_in_sandbox 2 Scenario.session_ok
           Scenario.env_not_found Scenario.three_lines
         = Some (ExecOk [PtyWrite (full_cmd Scenario.three_lines);
                         PtyWrite ps1_query]
                   (-109)
                   (lit "bash: foobar: command not found" ++ [CR]
                    ++ lit "EXIT_CODE:127" ++ [CR]) [])).
Proof.
  split; [|split].
  - eexists. split; [vm_compute; reflexivity|].
    split; [vm_compute; reflexivity|].
    split; [vm_compute; reflexivity|].
    split; vm_compute; reflexivity.
  - eexists. split; [vm_compute; reflexivity|].
    split; [vm_compute; reflexivity|].
    split; vm_compute; reflexivity.
  - split; vm_compute; reflexivity.
Qed.

(** C3, amended.  For every validated command (of at most 1023 bytes, as
    the handler passes them) for which the prompt was seen and whose
    output, after the filtering, contains one of the shell-error
    indicators, the validator's exit code is fixed by the number of words
    of the command, separated by blanks or tabs: -109 (INVALID_USER_ERROR)
    for fewer than three words and -113 (INVALID_AI_HELP) for three or
    more. *)
Theorem shell_error_verdict (fuel : nat) (s : session) (env : pty_env)
  (cmd : bytes) (acc : acc_state) :
  (List.length cmd <= 1023)%nat ->
  bash_ready s = true -> write_ok s = true ->
  accumulate (probe_ps1 (probe env)) (output env) fuel 0 acc_init = Some acc ->
  prompt_detected acc = true ->
  has_shell_error (clean_output cmd acc) = true ->
  execute_command_in_sandbox fuel s env cmd
  = Some (ExecOk
            (map (fun _ => PtyDiscard) (residue env)
             ++ [PtyWrite (full_cmd cmd); PtyWrite ps1_query])
            (if (number_of_words cmd <? 3)%nat then (-109)%Z else (-113)%Z)
            (clean_output cmd acc) []).
Proof.
  intros Hlen Hb Hw Hacc Hp Herr.
  rewrite (execute_ready fuel s env cmd Hb Hw), Hacc, Hp.
  rewrite (classify_shell_error cmd _ _ Hlen Herr).
  rewrite app_nil_r, words_length. reflexivity.
Qed.

Lemma shell_error_verdict_witness :
  execute_command_in_sandbox 2 Scenario.session_ok Scenario.env_not_found
    (lit "foobar --baz")
  = Some (ExecOk
            [PtyWrite (full_cmd (lit "foobar --baz")); PtyWrite ps1_query]
            (-109)
            (lit "bash: foobar: command not found" ++ [CR]
             ++ lit "EXIT_CODE:127" ++ [CR]) [])
  /\ execute_command_in_sandbox 2 Scenario.session_ok Scenario.env_not_found
       (lit "foobar --baz qux")
     = Some (ExecOk
               [PtyWrite (full_cmd (lit "foobar --baz qux"));
                PtyWrite ps1_query]
               (-113)
               (lit "bash: foobar: command not found" ++ [CR]
                ++ lit "EXIT_CODE:127" ++ [CR]) []).
Proof.
  split.
  - rewrite (shell_error_verdict 2 Scenario.session_ok Scenario.env_not_found
               (lit "foobar --baz") Scenario.seen_not_found);
      [ vm_compute; reflexivity
      | apply Nat.leb_le; vm_compute; reflexivity
      | reflexivity | reflexivity
      | vm_compute; reflexivity
      | reflexivity
      | vm_compute; reflexivity ].
  - rewrite (shell_error_verdict 2 Scenario.session_ok Scenario.env_not_found
               (lit "foobar --baz qux") Scenario.seen_not_found);
      [ vm_compute; reflexivity
      | apply Nat.leb_le; vm_compute; reflexivity
      | reflexivity | reflexivity
      | vm_compute; reflexivity
      | reflexivity
      | vm_compute; reflexivity ].
Defined.

(** ** The accumulation loop *)

Section Loop.

Variable ps1 : bytes.                 (* the prompt sentinel *)
Variable env : nat -> pty_event.      (* what the PTY yields at each iteration *)

Lemma loop_body_unprompted (ev : pty_event) (st : acc_state) :
  unprompted ps1 ev = true ->
  exists st', loop_body ps1 ev st = Next st'
              /\ attempts st' = attempts st
              /\ consecutive_empty_reads st' = 0%Z
              /\ prompt_detected st' = prompt_detected st.
Proof.
  destruct ev as [data|]; unfold unprompted, loop_body; [|discriminate].
  destruct (firstn 1023 data) as [|c r]; [discriminate|].
  intros H; apply negb_true_iff in H; rewrite H.
  eexists; repeat split.
Qed.

(** While every read brings data without the prompt the loop goes on:
    [attempts] stays where it is. *)
Lemma unprompted_forever :
  (forall i, unprompted ps1 (env i) = true) ->
  forall fuel i st,
    (attempts st < max_attempts)%Z -> accumulate ps1 env fuel i st = None.
Proof.
  intros Henv; induction fuel as [|fuel IH]; intros i st Hst; simpl;
    (destruct (Z.leb_spec max_attempts (attempts st)); [lia|]);
    [reflexivity|].
  destruct (loop_body_unprompted (env i) st (Henv i))
    as (st' & -> & Ha & _).
  apply IH; lia.
Qed.

(** Every iteration that is not [unprompted] uses up some of the budget;
    an [unprompted] one gives back at most the nine empty reads. *)
Lemma loop_body_progress (ev : pty_event) (st : acc_state) :
  (attempts st < max_attempts)%Z ->
  match loop_body ps1 ev st with
  | Exit _ => True
  | Next st' =>
      if unprompted ps1 ev
      then (budget_left st' <= budget_left st + 9)%nat
      else (budget_left st' < budget_left st)%nat
  end.
Proof.
  unfold max_attempts, budget_left; intros Ha.
  destruct ev as [data|]; unfold unprompted, loop_body.
  - destruct (firstn 1023 data) as [|c r].
    + destruct (Z.leb_spec 10 (consecutive_empty_reads st + 1));
        cbn [attempts consecutive_empty_reads];
        [trivial | unfold max_attempts; lia].
    + destruct (contains (cstr (c :: r)) ps1);
        cbn [negb attempts consecutive_empty_reads]; unfold max_attempts; lia.
  - destruct ((0 <? total_len st)%Z && prompt_detected st);
      cbn [attempts consecutive_empty_reads];
      [trivial | unfold max_attempts; lia].
Qed.

(** The loop returns once reads without the prompt stop coming: from the
    [M]-th iteration on, [10 * (M - i) + budget_left st] decreases. *)
Lemma accumulate_returns (M : nat) :
  (forall i, (M <= i)%nat -> unprompted ps1 (env i) = false) ->
  forall fuel i st,
    (10 * (M - i) + budget_left st <= fuel)%nat ->
    accumulate ps1 env fuel i st <> None.
Proof.
  intros Henv; induction fuel as [|fuel IH]; intros i st Hw; simpl;
    destruct (Z.leb_spec max_attempts (attempts st)) as [Ha|Ha];
    try discriminate.
  - exfalso. unfold budget_left, max_attempts in *. lia.
  - pose proof (loop_body_progress (env i) st Ha) as P.
    destruct (loop_body ps1 (env i) st) as [st'|st']; [|discriminate].
    apply IH.
    destruct (unprompted ps1 (env i)) eqn:U.
    + destruct (Nat.le_gt_cases M i) as [Hi|Hi];
        [rewrite (Henv i Hi) in U; discriminate | lia].
    + lia.
Qed.

Lemma loop_body_no_prompt (ev : pty_event) (st : acc_state) :
  shows_prompt ps1 ev = false ->
  prompt_detected st = false ->
  match loop_body ps1 ev st with
  | Exit st' | Next st' => prompt_detected st' = false
  end.
Proof.
  intros Hev Hst. destruct ev as [data|]; unfold shows_prompt, loop_body in *.
  - destruct (firstn 1023 data) as [|c r].
    + destruct (10 <=? consecutive_empty_reads st + 1)%Z; exact Hst.
    + rewrite Hev. exact Hst.
  - destruct ((0 <? total_len st)%Z && prompt_detected st); exact Hst.
Qed.

(** [prompt_detected] stays 0 when no read shows the prompt. *)
Lemma accumulate_no_prompt :
  (forall i, shows_prompt ps1 (env i) = false) ->
  forall fuel i st acc,
    prompt_detected st = false ->
    accumulate ps1 env fuel i st = Some acc ->
    prompt_detected acc = false.
Proof.
  intros Henv; induction fuel as [|fuel IH]; intros i st acc Hst; simpl;
    destruct (max_attempts <=? attempts st)%Z; try congruence.
  pose proof (loop_body_no_prompt (env i) st (Henv i) Hst) as P.
  destruct (loop_body ps1 (env i) st) as [st'|st'].
  - apply IH; exact P.
  - congruence.
Qed.

End Loop.

(** The loop on the output of [yes]. *)
Lemma yes_loop_goes_on (fuel : nat) :
  accumulate (probe_ps1 (probe Scenario.env_yes))
    (output Scenario.env_yes) fuel 0 acc_init = None.
Proof.
  apply unprompted_forever; [intros i; reflexivity | reflexivity].
Qed.

Lemma yes_validation_goes_on (fuel : nat) :
  execute_command_in_sandbox fuel Scenario.session_ok Scenario.env_yes
    (lit "yes") = None.
Proof.
  unfold execute_command_in_sandbox. simpl negb. cbv iota.
  now rewrite yes_loop_goes_on.
Qed.

(** C6 fails on the code.  For the command [yes] every read of the loop
    returns more output without the prompt, [attempts] is never
    incremented, and the loop, hence the validator, does not return
    whatever the number of iterations allowed. *)
Theorem endless_output_never_returns (fuel : nat) :
  accumulate (probe_ps1 (probe Scenario.env_yes))
    (output Scenario.env_yes) fuel 0 acc_init = None
  /\ execute_command_in_sandbox fuel Scenario.session_ok Scenario.env_yes
       (lit "yes") = None.
Proof.
  split; [apply yes_loop_goes_on | apply yes_validation_goes_on].
Qed.

(** ** The verdict record, written and read back *)

Lemma mismatch_prefixb (pat t rest : bytes) :
  mismatch pat t = true -> prefixb pat (t ++ rest) = false.
Proof.
  revert t; induction pat as [|p pat IH]; intros [|c t]; simpl;
    try discriminate.
  destruct (Ascii.eqb p c); simpl; [apply IH | reflexivity].
Qed.

Lemma strstr_skip_lit (a rest pat : bytes) :
  starts_nowhere pat a = true ->
  strstr (a ++ rest) pat = strstr rest pat.
Proof.
  induction a as [|c a IH]; [reflexivity|].
  cbn [starts_nowhere]. rewrite andb_true_iff; intros [H1 H2].
  change ((c :: a) ++ rest) with (c :: (a ++ rest)).
  rewrite strstr_cons_mismatch; [auto|].
  exact (mismatch_prefixb pat (c :: a) rest H1).
Qed.

Lemma strstr_skip_line (a rest pat : bytes) :
  pat <> [] -> ~ In LF pat -> strstr a pat = None ->
  strstr (a ++ [LF] ++ rest) pat = strstr rest pat.
Proof. intros; now apply strstr_skip_payload. Qed.

Lemma len_app (a b : bytes) : len (a ++ b) = (len a + len b)%Z.
Proof. unfold len; rewrite length_app; lia. Qed.

Lemma len_nonneg (a : bytes) : (0 <= len a)%Z.
Proof. unfold len; lia. Qed.

Lemma skipn_exact (a b : bytes) (n : nat) :
  n = List.length a -> skipn n (a ++ b) = b.
Proof.
  intros ->. rewrite skipn_app, skipn_all, Nat.sub_diag. reflexivity.
Qed.

Lemma firstn_exact (a b : bytes) (n : nat) :
  n = List.length a -> firstn n (a ++ b) = a.
Proof.
  intros ->. rewrite firstn_app, firstn_all, Nat.sub_diag. simpl.
  apply app_nil_r.
Qed.

Lemma snprintf_advance_ok (text buf : bytes) (remaining : Z) :
  (0 < len text < remaining)%Z ->
  snprintf_advance text (buf, remaining)
  = Some (buf ++ text, (remaining - len text)%Z).
Proof.
  intros H. unfold snprintf_advance.
  destruct (Z.ltb_spec 0 (len text)); [|lia].
  destruct (Z.ltb_spec (len text) remaining); [|lia].
  reflexivity.
Qed.

Lemma copy_payload_ok (payload buf : bytes) (remaining : Z) :
  (len payload < remaining <= MMAP_SIZE)%Z ->
  copy_payload payload (buf, remaining)
  = (buf ++ payload ++ [LF], (remaining - len payload - 1)%Z).
Proof.
  unfold MMAP_SIZE; intros H. unfold copy_payload.
  pose proof (len_nonneg payload) as P.
  assert (T : to_int (len payload) = len payload).
  { unfold to_int. pow_consts. rewrite Z.mod_small by lia. lia. }
  rewrite T.
  destruct (Z.ltb_spec 0 (len payload)) as [H0|H0].
  - destruct (Z.ltb_spec (len payload) remaining); [|lia]. simpl andb. cbv iota.
    destruct (Z.ltb_spec 0 (remaining - len payload)); [|lia].
    now rewrite <- app_assoc.
  - simpl andb. cbv iota.
    assert (payload = []) as ->.
    { destruct payload; [reflexivity|]. unfold len in H0; simpl in H0; lia. }
    destruct (Z.ltb_spec 0 remaining); [|unfold len in *; simpl in *; lia].
    f_equal. unfold len; simpl; lia.
Qed.

Lemma write_section_ok (label_len label content buf : bytes) (remaining : Z) :
  (0 < len label_len)%Z ->
  (len label_len + len label + len (cstr content) + 22 < remaining
   <= MMAP_SIZE)%Z ->
  exists remaining',
    write_section label_len label content (buf, remaining)
    = (buf ++ label_len ++ print_unsigned (len (cstr content)) ++ [LF]
           ++ label ++ cstr content ++ [LF], remaining')
    /\ (remaining - (len label_len + len label + len (cstr content) + 22)
        <= remaining' <= remaining)%Z.
Proof.
  intros H0 H. unfold write_section.
  pose proof (print_unsigned_length (len (cstr content))) as L.
  pose proof (len_nonneg (cstr content)) as P0.
  pose proof (len_nonneg label) as P1.
  set (pu := print_unsigned (len (cstr content))) in *.
  assert (Lt : len (label_len ++ pu ++ [LF] ++ label)
               = (len label_len + len pu + 1 + len label)%Z).
  { rewrite !len_app. change (len [LF]) with 1%Z. lia. }
  assert (Lp : (0 <= len pu <= 20)%Z) by (unfold len; lia).
  rewrite snprintf_advance_ok by lia.
  rewrite copy_payload_ok by lia.
  eexists; split.
  - rewrite <- !app_assoc. reflexivity.
  - lia.
Qed.

(** The text of the record when everything fits. *)
Lemma write_result_to_mmap_text (exit_code : Z) (out err : bytes) :
  (len (cstr out) + len (cstr err) <= 1000000)%Z ->
  write_result_to_mmap exit_code out err
  = lit "EXIT_CODE:" ++ print_int exit_code ++ [LF]
    ++ lit "STDOUT_LEN:" ++ print_unsigned (len (cstr out)) ++ [LF]
    ++ lit "STDOUT:" ++ cstr out ++ [LF]
    ++ lit "STDERR_LEN:" ++ print_unsigned (len (cstr err)) ++ [LF]
    ++ lit "STDERR:" ++ cstr err ++ [LF].
Proof.
  intros H. unfold write_result_to_mmap.
  pose proof (print_int_length exit_code) as L.
  pose proof (len_nonneg (cstr out)) as P0.
  pose proof (len_nonneg (cstr err)) as P1.
  set (pi := print_int exit_code) in *.
  assert (Lp : (0 <= len pi <= 21)%Z) by (unfold len; lia).
  assert (Lt : len (lit "EXIT_CODE:" ++ pi ++ [LF]) = (10 + len pi + 1)%Z).
  { rewrite !len_app. change (len [LF]) with 1%Z.
    change (len (lit "EXIT_CODE:")) with 10%Z. lia. }
  assert (M : MMAP_SIZE = 1048576%Z) by reflexivity.
  rewrite snprintf_advance_ok by lia.
  destruct (write_section_ok (lit "STDOUT_LEN:") (lit "STDOUT:") out
              ([] ++ lit "EXIT_CODE:" ++ pi ++ [LF])
              (MMAP_SIZE - 1 - len (lit "EXIT_CODE:" ++ pi ++ [LF])))
    as (r1 & E1 & B1).
  { reflexivity. }
  { change (len (lit "STDOUT_LEN:")) with 11%Z.
    change (len (lit "STDOUT:")) with 7%Z. lia. }
  change (len (lit "STDOUT_LEN:")) with 11%Z in B1.
  change (len (lit "STDOUT:")) with 7%Z in B1.
  unfold bytes in *. rewrite E1.
  destruct (write_section_ok (lit "STDERR_LEN:") (lit "STDERR:") err
              (([] ++ lit "EXIT_CODE:" ++ pi ++ [LF]) ++ lit "STDOUT_LEN:"
               ++ print_unsigned (len (cstr out)) ++ [LF] ++ lit "STDOUT:"
               ++ cstr out ++ [LF]) r1)
    as (r2 & E2 & B2).
  { reflexivity. }
  { change (len (lit "STDERR_LEN:")) with 11%Z.
    change (len (lit "STDERR:")) with 7%Z. lia. }
  unfold bytes in *. rewrite E2. cbn [fst]. rewrite app_nil_l. rewrite <- !app_assoc. reflexivity.
Qed.

Lemma no_nul_app (a b : bytes) : no_nul a -> no_nul b -> no_nul (a ++ b).
Proof. intros; apply Forall_app; now split. Qed.

Lemma record_no_nul (exit_code : Z) (out err : bytes) :
  no_nul (lit "EXIT_CODE:" ++ print_int exit_code ++ [LF]
          ++ lit "STDOUT_LEN:" ++ print_unsigned (len (cstr out)) ++ [LF]
          ++ lit "STDOUT:" ++ cstr out ++ [LF]
          ++ lit "STDERR_LEN:" ++ print_unsigned (len (cstr err)) ++ [LF]
          ++ lit "STDERR:" ++ cstr err ++ [LF]).
Proof.
  repeat first
    [ apply no_nul_app
    | apply cstr_no_nul
    | apply print_int_avoids; [reflexivity | discriminate]
    | apply print_unsigned_avoids; reflexivity
    | no_nul_lit ].
Qed.

Lemma record_length (exit_code : Z) (out err : bytes) :
  (List.length
     (lit "EXIT_CODE:" ++ print_int exit_code ++ [LF]
      ++ lit "STDOUT_LEN:" ++ print_unsigned (len (cstr out)) ++ [LF]
      ++ lit "STDOUT:" ++ cstr out ++ [LF]
      ++ lit "STDERR_LEN:" ++ print_unsigned (len (cstr err)) ++ [LF]
      ++ lit "STDERR:" ++ cstr err ++ [LF])
   <= 112 + List.length (cstr out) + List.length (cstr err))%nat.
Proof.
  pose proof (print_int_length exit_code).
  pose proof (print_unsigned_length (len (cstr out))).
  pose proof (print_unsigned_length (len (cstr err))).
  rewrite !length_app. lit_lengths. lia.
Qed.

(** What the frontend gets from a record that fits its buffer. *)
Lemma response_of_record (ack : bytes) (exit_code : Z) (out err : bytes) :
  ack <> [] ->
  (List.length (cstr out) + List.length (cstr err) <= 3983)%nat ->
  send_to_sandbox ack (write_result_to_mmap exit_code out err)
  = Some (lit "EXIT_CODE:" ++ print_int exit_code ++ [LF]
          ++ lit "STDOUT_LEN:" ++ print_unsigned (len (cstr out)) ++ [LF]
          ++ lit "STDOUT:" ++ cstr out ++ [LF]
          ++ lit "STDERR_LEN:" ++ print_unsigned (len (cstr err)) ++ [LF]
          ++ lit "STDERR:" ++ cstr err ++ [LF]).
Proof.
  intros Hack Hlen. unfold send_to_sandbox.
  destruct ack as [|a ack]; [congruence|].
  rewrite write_result_to_mmap_text by (unfold len; lia).
  rewrite (cstr_fixed _ (record_no_nul exit_code out err)).
  rewrite firstn_all2; [reflexivity|].
  pose proof (record_length exit_code out err). lia.
Qed.

Ltac skip_digits c :=
  rewrite (strstr_skip _ _ _ c);
  [ | reflexivity
    | first [ apply print_int_avoids; [reflexivity | discriminate]
            | apply print_unsigned_avoids; reflexivity ] ].

Lemma parse_exit_code_record (exit_code : Z) (rest : bytes) :
  (- 2 ^ 31 <= exit_code < 2 ^ 31)%Z ->
  parse_exit_code (lit "EXIT_CODE:" ++ print_int exit_code ++ [LF] ++ rest)
  = exit_code.
Proof.
  intros H. unfold parse_exit_code.
  rewrite strstr_found by apply prefixb_app.
  rewrite skipn_exact by reflexivity.
  now apply atoi_print_int_line.
Qed.

Lemma parse_stderr_record (out err : bytes) (exit_code : Z) :
  strstr (cstr out) (lit "STDERR_LEN:") = None ->
  (List.length (cstr err) < 4096)%nat ->
  parse_stderr
    (lit "EXIT_CODE:" ++ print_int exit_code ++ [LF]
     ++ lit "STDOUT_LEN:" ++ print_unsigned (len (cstr out)) ++ [LF]
     ++ lit "STDOUT:" ++ cstr out ++ [LF]
     ++ lit "STDERR_LEN:" ++ print_unsigned (len (cstr err)) ++ [LF]
     ++ lit "STDERR:" ++ cstr err ++ [LF])
  = cstr err.
Proof.
  intros Hout Herr. unfold parse_stderr.
  rewrite (strstr_skip_lit (lit "EXIT_CODE:")) by reflexivity.
  skip_digits "S"%char.
  rewrite (strstr_skip_lit [LF]) by reflexivity.
  rewrite (strstr_skip_lit (lit "STDOUT_LEN:")) by reflexivity.
  skip_digits "S"%char.
  rewrite (strstr_skip_lit [LF]) by reflexivity.
  rewrite (strstr_skip_lit (lit "STDOUT:")) by reflexivity.
  rewrite (strstr_skip_line (cstr out));
    [ | discriminate
      | intros H; repeat (destruct H as [H|H]; [discriminate H|]); exact H
      | exact Hout ].
  rewrite strstr_found by apply prefixb_app.
  rewrite skipn_exact by reflexivity.
  rewrite atoi_print_unsigned_line by (pow_consts; unfold len; lia).
  rewrite (strstr_skip_lit (lit "STDERR_LEN:")) by reflexivity.
  skip_digits "S"%char.
  rewrite (strstr_skip_lit [LF]) by reflexivity.
  rewrite strstr_found by apply prefixb_app.
  rewrite skipn_exact by reflexivity.
  unfold to_size_t. pow_consts.
  rewrite Z.mod_small by (unfold len; lia).
  destruct (Z.ltb_spec 0 (len (cstr err))) as [H0|H0].
  - destruct (Z.ltb_spec (len (cstr err)) 4096); [|unfold len in *; lia].
    simpl andb. cbv iota.
    apply firstn_exact. unfold len. now rewrite Nat2Z.id.
  - simpl andb. cbv iota.
    destruct (cstr err); [reflexivity | unfold len in H0; simpl in H0; lia].
Qed.

(** C8 as the specification states it fails: the payloads are passed as
    strings, so a payload ends at its first NUL. *)
Lemma nul_truncates_payload :
  option_map parse_stderr
    (send_to_sandbox (lit "OK")
       (write_result_to_mmap 0 [] ["a"%char; NUL; "b"%char]))
  = Some ["a"%char]
  /\ ["a"%char] <> ["a"%char; NUL; "b"%char].
Proof. split; [vm_compute; reflexivity | discriminate]. Qed.

(** The reader finds the fields by their labels: a label inside the
    stdout payload is taken for the field. *)
Lemma label_in_stdout_misleads :
  option_map parse_stderr
    (send_to_sandbox (lit "OK")
       (write_result_to_mmap 0
          (lit "STDERR_LEN:3" ++ [LF] ++ lit "STDERR:abc") (lit "x")))
  = Some (lit "abc").
Proof. vm_compute; reflexivity. Qed.

(** The frontend looks for the text [INTERACTIVE_COMMAND] in the whole
    response before it reads any field: a payload that shows it turns the
    verdict into -103, whatever the exit code. *)
Lemma marker_in_payload_hides_fields :
  test_command_in_sandbox true
    (send_to_sandbox (lit "OK")
       (write_result_to_mmap 0 [] (lit "see INTERACTIVE_COMMAND")))
  = (-103)%Z.
Proof. vm_compute; reflexivity. Qed.

(** The labels and the numbers of a record do not show the text
    [INTERACTIVE_COMMAND]: it is in the record only when a payload holds
    it. *)
Lemma record_without_marker (exit_code : Z) (out err : bytes) :
  contains out (lit "INTERACTIVE_COMMAND") = false ->
  contains err (lit "INTERACTIVE_COMMAND") = false ->
  contains
    (lit "EXIT_CODE:" ++ print_int exit_code ++ [LF]
     ++ lit "STDOUT_LEN:" ++ print_unsigned (len out) ++ [LF]
     ++ lit "STDOUT:" ++ out ++ [LF]
     ++ lit "STDERR_LEN:" ++ print_unsigned (len err) ++ [LF]
     ++ lit "STDERR:" ++ err ++ [LF])
    (lit "INTERACTIVE_COMMAND") = false.
Proof.
  unfold contains. intros Ho He.
  destruct (strstr out (lit "INTERACTIVE_COMMAND")) eqn:Eo; [discriminate|].
  destruct (strstr err (lit "INTERACTIVE_COMMAND")) eqn:Ee; [discriminate|].
  rewrite (strstr_skip_lit (lit "EXIT_CODE:")) by reflexivity.
  skip_digits "I"%char.
  rewrite (strstr_skip_lit [LF]) by reflexivity.
  rewrite (strstr_skip_lit (lit "STDOUT_LEN:")) by reflexivity.
  skip_digits "I"%char.
  rewrite (strstr_skip_lit [LF]) by reflexivity.
  rewrite (strstr_skip_lit (lit "STDOUT:")) by reflexivity.
  rewrite (strstr_skip_line out);
    [ | discriminate
      | intros I; repeat (destruct I as [I|I]; [discriminate I|]); exact I
      | exact Eo ].
  rewrite (strstr_skip_lit (lit "STDERR_LEN:")) by reflexivity.
  skip_digits "I"%char.
  rewrite (strstr_skip_lit [LF]) by reflexivity.
  rewrite (strstr_skip_lit (lit "STDERR:")) by reflexivity.
  change (err ++ [LF]) with (err ++ [LF] ++ []).
  rewrite (strstr_skip_line err);
    [ reflexivity
    | discriminate
    | intros I; repeat (destruct I as [I|I]; [discriminate I|]); exact I
    | exact Ee ].
Qed.

(** C8, amended.  A verdict record whose payloads are strings (no NUL),
    whose stdout payload does not contain the text [STDERR_LEN:], neither
    payload of which contains the text [INTERACTIVE_COMMAND], and which
    fits the 4095 bytes the frontend copies, is read back by the frontend
    with the exit code and the stderr payload it was written with, newlines
    in the payloads included: the frontend gets past its test for
    [INTERACTIVE_COMMAND], parses the two fields, and forms its verdict
    from them. *)
Theorem verdict_record_round_trip (ack : bytes) (exit_code : Z)
  (out err : bytes) :
  ack <> [] ->
  (- 2 ^ 31 <= exit_code < 2 ^ 31)%Z ->
  no_nul out -> no_nul err ->
  strstr out (lit "STDERR_LEN:") = None ->
  contains out (lit "INTERACTIVE_COMMAND") = false ->
  contains err (lit "INTERACTIVE_COMMAND") = false ->
  (List.length out + List.length err <= 3983)%nat ->
  exists response,
    send_to_sandbox ack (write_result_to_mmap exit_code out err)
    = Some response
    /\ contains response (lit "INTERACTIVE_COMMAND") = false
    /\ parse_exit_code response = exit_code
    /\ parse_stderr response = err
    /\ test_command_in_sandbox true (Some response)
       = if special_code exit_code then exit_code
         else if (exit_code =? 0)%Z && (len err =? 0)%Z then 0%Z
              else (-2)%Z.
Proof.
  intros Hack Hcode Hout Herr Hlabel Hmo Hme Hlen.
  pose proof (cstr_fixed out Hout) as Eo.
  pose proof (cstr_fixed err Herr) as Ee.
  pose proof (record_without_marker exit_code out err Hmo Hme) as M.
  pose proof (parse_exit_code_record exit_code
                (lit "STDOUT_LEN:" ++ print_unsigned (len (cstr out)) ++ [LF]
                 ++ lit "STDOUT:" ++ cstr out ++ [LF]
                 ++ lit "STDERR_LEN:" ++ print_unsigned (len (cstr err))
                 ++ [LF] ++ lit "STDERR:" ++ cstr err ++ [LF]) Hcode) as P.
  assert (Q : parse_stderr
                (lit "EXIT_CODE:" ++ print_int exit_code ++ [LF]
                 ++ lit "STDOUT_LEN:" ++ print_unsigned (len (cstr out)) ++ [LF]
                 ++ lit "STDOUT:" ++ cstr out ++ [LF]
                 ++ lit "STDERR_LEN:" ++ print_unsigned (len (cstr err))
                 ++ [LF] ++ lit "STDERR:" ++ cstr err ++ [LF])
              = err).
  { rewrite (parse_stderr_record out err exit_code).
    - exact Ee.
    - rewrite Eo; exact Hlabel.
    - rewrite Ee; lia. }
  rewrite <- Eo, <- Ee in M.
  eexists; split; [|split; [|split; [|split]]].
  - apply response_of_record; [exact Hack | rewrite Eo, Ee; exact Hlen].
  - exact M.
  - exact P.
  - exact Q.
  - unfold test_command_in_sandbox, verdict_of_response. cbn [negb].
    unfold bytes in *. rewrite M, P, Q. reflexivity.
Qed.

Lemma verdict_record_round_trip_witness :
  exists response,
    send_to_sandbox (lit "OK")
      (write_result_to_mmap (-1) (lit "line 1" ++ [LF] ++ lit "line 2")
         (lit "bash: x: command" ++ [LF] ++ lit "not found"))
    = Some response
    /\ contains response (lit "INTERACTIVE_COMMAND") = false
    /\ parse_exit_code response = (-1)%Z
    /\ parse_stderr response
       = lit "bash: x: command" ++ [LF] ++ lit "not found"
    /\ test_command_in_sandbox true (Some response) = (-2)%Z.
Proof.
  apply (verdict_record_round_trip (lit "OK") (-1)
           (lit "line 1" ++ [LF] ++ lit "line 2")
           (lit "bash: x: command" ++ [LF] ++ lit "not found")).
  - discriminate.
  - split; [vm_compute; discriminate | reflexivity].
  - no_nul_lit.
  - no_nul_lit.
  - vm_compute; reflexivity.
  - vm_compute; reflexivity.
  - vm_compute; reflexivity.
  - apply Nat.leb_le; vm_compute; reflexivity.
Defined.

(** ** From the record to the dispatcher *)

Lemma atoi_range (s : bytes) : (- 2 ^ 31 <= atoi s < 2 ^ 31)%Z.
Proof.
  unfold atoi, to_int. pow_consts.
  pose proof (Z.mod_pos_bound (strtol s + 2147483648) 4294967296). lia.
Qed.

(** The frontend's verdict for a record without payloads. *)
Lemma verdict_of_plain_record (code : Z) :
  (- 2 ^ 31 <= code < 2 ^ 31)%Z ->
  test_command_in_sandbox true
    (send_to_sandbox (lit "OK") (write_result_to_mmap code [] []))
  = if special_code code then code
    else if (code =? 0)%Z then 0%Z else (-2)%Z.
Proof.
  intros Hc. rewrite response_of_record; [|discriminate | apply Nat.leb_le; reflexivity].
  unfold test_command_in_sandbox, verdict_of_response. cbn [negb].
  rewrite parse_exit_code_record by exact Hc.
  rewrite parse_stderr_record; [|reflexivity | apply Nat.ltb_lt; reflexivity].
  assert (N : contains
                (lit "EXIT_CODE:" ++ print_int code ++ [LF]
                 ++ lit "STDOUT_LEN:" ++ print_unsigned (len (cstr [])) ++ [LF]
                 ++ lit "STDOUT:" ++ cstr [] ++ [LF]
                 ++ lit "STDERR_LEN:" ++ print_unsigned (len (cstr [])) ++ [LF]
                 ++ lit "STDERR:" ++ cstr [] ++ [LF])
                (lit "INTERACTIVE_COMMAND") = false).
  { unfold contains.
    rewrite (strstr_skip_lit (lit "EXIT_CODE:")) by reflexivity.
    skip_digits "I"%char.
    vm_compute; reflexivity. }
  rewrite N. fold (special_code code).
  destruct (special_code code); [reflexivity|].
  change (len (cstr []) =? 0)%Z with true. now rewrite andb_true_r.
Qed.

(** C4 as the specification states it fails: [sleep 2; false] prints
    nothing but the marker with status 1; the prompt is seen and no error
    indicator is present, yet the frontend's verdict is -2, not 0, and the
    dispatcher sends the command to the backend. *)
Lemma nonzero_exit_is_routed_to_ai :
  option_map prompt_detected
    (accumulate (probe_ps1 (probe Scenario.env_exit_1))
       (output Scenario.env_exit_1) 12 0 acc_init) = Some true
  /\ option_map (fun acc => contains (clean_output (lit "sleep 2; false") acc)
                              (lit "EXIT_CODE:"))
       (accumulate (probe_ps1 (probe Scenario.env_exit_1))
          (output Scenario.env_exit_1) 12 0 acc_init) = Some true
  /\ option_map (fun acc => has_shell_error (clean_output (lit "sleep 2; false") acc))
       (accumulate (probe_ps1 (probe Scenario.env_exit_1))
          (output Scenario.env_exit_1) 12 0 acc_init) = Some false
  /\ test_command_in_sandbox true
       (Scenario.validate 12 Scenario.session_ok Scenario.env_exit_1
          (lit "sleep 2; false")) = (-2)%Z
  /\ execute_command_securely true true 1 (lit "sleep 2; false") 256
       (Scenario.validate 12 Scenario.session_ok Scenario.env_exit_1
          (lit "sleep 2; false"))
     = [RunDirect (lit "sleep 2; false"); AskSandbox (lit "sleep 2; false");
        SendToBackend (lit "sleep 2; false")].
Proof. repeat split; vm_compute; reflexivity. Qed.

(** C4, amended.  When the prompt was seen and the cleaned output holds
    the [EXIT_CODE:] marker and no error indicator, the validator reports
    the number parsed after the marker and an empty output.  The frontend
    turns a record with that code into VALID (0) only when the code is 0;
    a code other than 0, -103, -109 and -113 becomes -2.  In the
    dispatcher the verdict 0 after a failed direct run leads to the
    exit-code message (printed from verbosity 1 on) and never to the
    backend, and the verdict -2 is routed to the AI. *)
Theorem exit_marker_verdict (fuel : nat) (s : session) (env : pty_env)
  (cmd : bytes) (acc : acc_state) (line : bytes)
  (backend_ready : bool) (verbose status : Z) :
  bash_ready s = true -> write_ok s = true ->
  accumulate (probe_ps1 (probe env)) (output env) fuel 0 acc_init = Some acc ->
  prompt_detected acc = true ->
  has_shell_error (clean_output cmd acc) = false ->
  strstr (clean_output cmd acc) (lit "EXIT_CODE:") = Some line ->
  let code := atoi (skipn 10 line) in
  (exists ops,
      execute_command_in_sandbox fuel s env cmd = Some (ExecOk ops code [] []))
  /\ test_command_in_sandbox true
       (send_to_sandbox (lit "OK") (write_result_to_mmap code [] []))
     = (if special_code code then code
        else if (code =? 0)%Z then 0%Z else (-2)%Z)
  /\ after_sandbox backend_ready verbose cmd status 0
     = when (1 <=? verbose)%Z [PrintCommandFailed status]
  /\ after_sandbox backend_ready verbose cmd status (-2)
     = route_to_ai backend_ready cmd.
Proof.
  intros Hb Hw Hacc Hp Herr Hmark code.
  split; [|split; [|split]]; try reflexivity.
  - rewrite (execute_ready fuel s env cmd Hb Hw), Hacc.
    unfold classify. rewrite Hp, Herr, Hmark. cbn [negb].
    rewrite (marker_line_is_all _ _ _ (clean_output_no_lf cmd acc) Hmark).
    eexists; reflexivity.
  - apply verdict_of_plain_record, atoi_range.
Qed.

Lemma exit_marker_verdict_witness :
  test_command_in_sandbox true
    (send_to_sandbox (lit "OK") (write_result_to_mmap 1 [] []))
  = (-2)%Z
  /\ after_sandbox true 1 (lit "sleep 2; false") 1 (-2)
     = [SendToBackend (lit "sleep 2; false")].
Proof.
  pose proof (exit_marker_verdict 12 Scenario.session_ok Scenario.env_exit_1
                (lit "sleep 2; false")
                {| attempts := 11;
                   captured := lit "EXIT_CODE:1" ++ [CR; LF] ++ lit "$ ";
                   prompt_detected := true;
                   consecutive_empty_reads := 0 |}
                (lit "EXIT_CODE:1" ++ [CR])
                true 1 1 eq_refl eq_refl) as T.
  specialize (T ltac:(vm_compute; reflexivity) eq_refl
                ltac:(vm_compute; reflexivity) ltac:(vm_compute; reflexivity)).
  destruct T as (_ & V & _ & R).
  split; [exact V | exact R].
Defined.

(** ** The request handler *)

Lemma ipc_app (a b : list event) : ipc (a ++ b) = ipc a ++ ipc b.
Proof. apply filter_app. Qed.

Lemma ipc_pty (ops : list pty_op) : ipc (map Pty ops) = [].
Proof. induction ops as [|o ops IH]; [reflexivity | exact IH]. Qed.

Lemma acks_app (a b : list event) : acks (a ++ b) = acks a ++ acks b.
Proof. apply flat_map_app. Qed.

Lemma acks_pty (ops : list pty_op) : acks (map Pty ops) = [].
Proof. induction ops as [|o ops IH]; [reflexivity | exact IH]. Qed.

(** Whenever the handler returns from a request that delivered a command,
    it has written one record and then sent one acknowledgment. *)
Lemma handler_writes_then_acks (fuel : nat) (s : session) (env : pty_env)
  (m m' : mmap_state) (received : bytes) (t : list event) :
  mmap_ready m = true -> received <> [] ->
  handle_client_request fuel s env m received = Some (m', t) ->
  exists record ack,
    ipc t = [MmapWrite record; SockSend ack]
    /\ (ack = lit "OK" \/ ack = lit "ERROR")
    /\ region m' = record.
Proof.
  intros Hm Hne. unfold handle_client_request.
  destruct received as [|c r]; [congruence|].
  change (firstn 1023 (c :: r)) with (c :: firstn 1022 r). cbv iota.
  destruct (execute_command_in_sandbox _ _ _ _) as [[ops|ops code out err]|];
    [| |discriminate]; unfold do_write_result; rewrite Hm;
    intros [= <- <-]; rewrite ipc_app, ipc_pty; cbn [app ipc filter region];
    eexists _, _; (split; [reflexivity | split; [auto | reflexivity]]).
Qed.

Lemma yes_handler_goes_on (fuel : nat) :
  handle_client_request fuel Scenario.session_ok Scenario.env_yes
    Scenario.mmap0 (lit "yes") = None.
Proof.
  pose proof (yes_validation_goes_on fuel) as E.
  unfold handle_client_request.
  change (firstn 1023 (lit "yes")) with ("y"%char :: lit "es").
  cbv iota.
  change (cstr ("y"%char :: lit "es")) with (lit "yes").
  now rewrite E.
Qed.

(** C9 fails on the code for a request whose validation does not return:
    for [yes] the handler never gets to the record or to the
    acknowledgment, whatever the number of loop iterations allowed. *)
Theorem endless_output_no_record_no_ack (fuel : nat) :
  handle_client_request fuel Scenario.session_ok Scenario.env_yes
    Scenario.mmap0 (lit "yes") = None.
Proof. exact (yes_handler_goes_on fuel). Qed.

(** C10.  When the receive on the client socket delivers nothing, the
    handler returns at once: no command is run, the region is left as it
    was and nothing is sent. *)
Theorem empty_request_is_ignored (fuel : nat) (s : session) (env : pty_env)
  (m : mmap_state) :
  handle_client_request fuel s env m [] = Some (m, []).
Proof. reflexivity. Qed.

(** ** Interactive commands *)

(** What the sandbox does when the loop ends without the prompt having
    been seen: Ctrl-C, a pause, one read, and the record with code -103,
    acknowledged with OK. *)
Lemma unseen_prompt_report (fuel : nat) (s : session) (env : pty_env)
  (m : mmap_state) (received : bytes) (acc : acc_state) :
  bash_ready s = true -> write_ok s = true -> mmap_ready m = true ->
  received <> [] ->
  accumulate (probe_ps1 (probe env)) (output env) fuel 0 acc_init = Some acc ->
  prompt_detected acc = false ->
  let cmd := cstr (firstn 1023 received) in
  let record := write_result_to_mmap (-103) (lit "INTERACTIVE_COMMAND") [] in
  handle_client_request fuel s env m received
  = Some ({| mmap_ready := true; region := record |},
          map Pty ((map (fun _ => PtyDiscard) (residue env)
                    ++ [PtyWrite (full_cmd cmd); PtyWrite ps1_query])
                   ++ [PtyWrite [ETX]; Usleep 100000]
                   ++ (if cleanup_ready env then [PtyDiscard] else []))
          ++ [MmapWrite record] ++ [SockSend (lit "OK")]).
Proof.
  intros Hb Hw Hm Hne Hacc Hp cmd record.
  unfold handle_client_request, cmd.
  destruct received as [|c r]; [congruence|].
  change (firstn 1023 (c :: r)) with (c :: firstn 1022 r). cbv iota.
  rewrite (execute_ready fuel s env _ Hb Hw), Hacc.
  unfold classify. rewrite Hp. cbn [negb].
  unfold do_write_result. rewrite Hm. reflexivity.
Qed.

(** C7 fails on the code.  For [yes] no read ever shows the prompt, and
    yet no verdict is reported: every read brings output, the attempts are
    not counted, and the handler neither writes a record nor acknowledges,
    whatever the number of iterations allowed.  The frontend's wait for
    the acknowledgment ends without one: its verdict is -1, not -103, and
    the dispatcher hands the command to the backend instead of running it
    with the terminal.  The defect is the one behind C6 and C9. *)
Theorem unseen_prompt_is_not_reported (fuel : nat) :
  (forall i,
      shows_prompt (probe_ps1 (probe Scenario.env_yes))
        (output Scenario.env_yes i) = false)
  /\ handle_client_request fuel Scenario.session_ok Scenario.env_yes
       Scenario.mmap0 (lit "yes") = None
  /\ Scenario.validate fuel Scenario.session_ok Scenario.env_yes (lit "yes")
     = None
  /\ test_command_in_sandbox true
       (Scenario.validate fuel Scenario.session_ok Scenario.env_yes
          (lit "yes"))
     = (-1)%Z
  /\ execute_command_securely true true 0 (lit "yes") 2
       (Scenario.validate fuel Scenario.session_ok Scenario.env_yes
          (lit "yes"))
     = [RunDirect (lit "yes"); AskSandbox (lit "yes");
        SendToBackend (lit "yes")].
Proof.
  assert (V : Scenario.validate fuel Scenario.session_ok Scenario.env_yes
                (lit "yes") = None).
  { unfold Scenario.validate. now rewrite yes_handler_goes_on. }
  split; [intros i; vm_compute; reflexivity|].
  split; [apply yes_handler_goes_on|].
  split; [exact V|].
  rewrite V. split; vm_compute; reflexivity.
Qed.

(** *** The time the report takes *)

Section LoopTime.

Variable ps1 : bytes.
Variable env : nat -> pty_event.
Variable failed : nat -> bool.

(** No [select] of the loop fails, and each of them either runs into its
    time-out or is followed by a read that brings data without the
    prompt. *)
Hypothesis no_failure : forall i, failed i = false.
Hypothesis quiet_or_unprompted :
  forall i, env i = NotReady \/ unprompted ps1 (env i) = true.

Lemma quiet_shows_no_prompt (i : nat) : shows_prompt ps1 (env i) = false.
Proof.
  destruct (quiet_or_unprompted i) as [E|U]; [now rewrite E|].
  destruct (env i) as [data|]; [|reflexivity].
  unfold unprompted, shows_prompt in *.
  destruct (firstn 1023 data); [reflexivity|].
  now apply negb_true_iff in U.
Qed.

(** Without the prompt every attempt is a time-out of 100 ms: the loop
    takes no less than what is left of the fifty attempts. *)
Lemma loop_time_budget (fuel : nat) :
  forall i st acc,
    prompt_detected st = false ->
    (attempts st <= max_attempts)%Z ->
    accumulate ps1 env fuel i st = Some acc ->
    exists t,
      Timing.loop_time ps1 env failed fuel i st = Some t
      /\ (Timing.loop_timeout * (max_attempts - attempts st) <= t)%Z.
Proof.
  unfold Timing.loop_timeout, max_attempts.
  induction fuel as [|fuel IH]; intros i st acc Hp Ha;
    cbn [accumulate Timing.loop_time]; unfold max_attempts;
    destruct (Z.leb_spec 50 (attempts st)) as [Hm|Hm].
  - intros _. exists 0%Z. split; [reflexivity | lia].
  - discriminate.
  - intros _. exists 0%Z. split; [reflexivity | lia].
  - destruct (quiet_or_unprompted i) as [E|U].
    + rewrite E. cbn [loop_body Timing.select_time].
      rewrite Hp, andb_false_r, no_failure.
      intros H.
      apply IH in H; [|reflexivity | cbn [attempts]; lia].
      destruct H as (t & -> & Ht). cbn [attempts] in Ht.
      eexists; split; [reflexivity|].
      unfold Timing.loop_timeout. lia.
    + destruct (loop_body_unprompted ps1 (env i) st U)
        as (st' & E & Ea & _ & Ep).
      rewrite E. intros H.
      apply IH in H; [|now rewrite Ep | lia].
      destruct H as (t & -> & Ht). rewrite Ea in Ht.
      eexists; split; [reflexivity|].
      destruct (env i); [|discriminate U]. cbn [Timing.select_time]. lia.
Qed.

End LoopTime.

(** On the path on which the fifty attempts are used up the report comes
    too late.  When no read of the loop shows the prompt and the reads of
    output come to an end, the sandbox does acknowledge a record with code
    -103, but no sooner than 5.1 s after the request: fifty time-outs of
    100 ms and the pause after the Ctrl-C.  The frontend, which enters its
    [select] less than 100 ms after its [send] and waits 5 s, has given up
    by then: its verdict is -1 and the dispatcher routes the command to
    the AI. *)
Lemma budget_path_ack_is_late (fuel : nat) (s : session) (env : pty_env)
  (m : mmap_state) (received : bytes) (acc : acc_state)
  (failed : nat -> bool) (waits_from : Z) :
  bash_ready s = true -> write_ok s = true -> mmap_ready m = true ->
  received <> [] ->
  (forall i, failed i = false) ->
  (forall i, output env i = NotReady
             \/ unprompted (probe_ps1 (probe env)) (output env i) = true) ->
  accumulate (probe_ps1 (probe env)) (output env) fuel 0 acc_init = Some acc ->
  (0 <= waits_from < Timing.cleanup_pause)%Z ->
  let cmd := cstr (firstn 1023 received) in
  exists m' t ms,
    handle_client_request fuel s env m received = Some (m', t)
    /\ acks t = [lit "OK"]
    /\ region m' = write_result_to_mmap (-103) (lit "INTERACTIVE_COMMAND") []
    /\ Timing.answer_time (probe_ps1 (probe env)) (output env) failed fuel
       = Some ms
    /\ (5100 <= ms)%Z
    /\ Timing.received_ack waits_from ms (lit "OK") = []
    /\ test_command_in_sandbox true
         (send_to_sandbox (Timing.received_ack waits_from ms (lit "OK"))
            (region m'))
       = (-1)%Z
    /\ forall backend_ready verbose result,
         is_ai_query cmd && backend_ready = false -> result <> 0%Z ->
         execute_command_securely backend_ready true verbose cmd result
           (send_to_sandbox (Timing.received_ack waits_from ms (lit "OK"))
              (region m'))
         = RunDirect cmd :: AskSandbox cmd :: route_to_ai backend_ready cmd.
Proof.
  intros Hb Hw Hm Hne Hf Hq Hacc Hwait cmd.
  assert (Hp : prompt_detected acc = false).
  { apply (accumulate_no_prompt (probe_ps1 (probe env)) (output env)
             (quiet_shows_no_prompt _ _ Hq) fuel 0%nat acc_init acc
             eq_refl Hacc). }
  destruct (loop_time_budget (probe_ps1 (probe env)) (output env) failed
              Hf Hq fuel 0%nat acc_init acc eq_refl ltac:(discriminate) Hacc)
    as (t0 & Et & Ht).
  unfold Timing.loop_timeout, max_attempts in Ht. cbn [attempts acc_init] in Ht.
  unfold Timing.cleanup_pause in Hwait.
  assert (R : Timing.received_ack waits_from (t0 + Timing.cleanup_pause)
                (lit "OK") = []).
  { unfold Timing.received_ack, Timing.cleanup_pause, Timing.ack_timeout.
    destruct (Z.ltb_spec (t0 + 100) (waits_from + 5000)); [lia | reflexivity]. }
  eexists _, _, (t0 + Timing.cleanup_pause)%Z.
  split; [exact (unseen_prompt_report fuel s env m received acc
                   Hb Hw Hm Hne Hacc Hp)|].
  split; [now rewrite acks_app, acks_pty|].
  split; [reflexivity|].
  split; [unfold Timing.answer_time; now rewrite Et|].
  split; [unfold Timing.cleanup_pause; lia|].
  split; [exact R|].
  rewrite R. split; [reflexivity|].
  intros backend_ready verbose result Hai Hres.
  unfold execute_command_securely.
  cbn [negb]. rewrite andb_false_r, Hai.
  destruct (Z.eqb_spec result 0); [congruence|].
  reflexivity.
Qed.

(** [vim notes.txt]: two reads draw the screen, fifty time-outs follow,
    and the acknowledgment leaves 5.1 s after the request. *)
Example vim_report_is_late :
  Timing.answer_time (probe_ps1 (probe Scenario.env_vim))
    (output Scenario.env_vim) (fun _ => false) 52 = Some 5100%Z
  /\ Timing.received_ack 0 5100 (lit "OK") = []
  /\ execute_command_securely true true 0 (lit "vim notes.txt") 256
       (send_to_sandbox (Timing.received_ack 0 5100 (lit "OK"))
          (write_result_to_mmap (-103) (lit "INTERACTIVE_COMMAND") []))
     = [RunDirect (lit "vim notes.txt"); AskSandbox (lit "vim notes.txt");
        SendToBackend (lit "vim notes.txt")].
Proof.
  split; [vm_compute; reflexivity|].
  split; vm_compute; reflexivity.
Qed.

(** ** The AI heuristic *)

(** C5 as the specification states it fails: the indicator test comes
    first, so a line whose first word is a known shell command and that
    holds no question mark is an AI query as soon as an indicator occurs
    in it. *)
Lemma known_shell_line_is_ai :
  has_char (lit "find . -name notes.txt") "?" = false
  /\ known_shell_command (lit "find . -name notes.txt") = true
  /\ is_ai_query (lit "find . -name notes.txt") = true.
Proof. repeat split; vm_compute; reflexivity. Qed.

(** C5, amended.  A line without question mark whose first word is a
    known shell command is classified as an AI query exactly when its
    lower-cased text (the first 1023 bytes) contains one of the indicators
    as a substring; without indicator it is not an AI query. *)
Theorem known_shell_unless_indicator (cmd : bytes) :
  has_char cmd "?" = false ->
  known_shell_command cmd = true ->
  is_ai_query cmd = has_ai_indicator cmd.
Proof.
  intros Hq Hk. unfold is_ai_query. rewrite Hq, Hk.
  destruct (has_ai_indicator cmd); [reflexivity|].
  destruct (existsb (has_char cmd) shell_meta); reflexivity.
Qed.

Lemma known_shell_unless_indicator_witness :
  is_ai_query (lit "ls -la /tmp") = false.
Proof.
  rewrite (known_shell_unless_indicator (lit "ls -la /tmp")).
  - vm_compute; reflexivity.
  - vm_compute; reflexivity.
  - vm_compute; reflexivity.
Defined.

(** * Further properties *)

(** ** The accumulation loop: bounds and exits *)

Section LoopBounds.

Variable ps1 : bytes.
Variable env : nat -> pty_event.

Lemma loop_body_inv (ev : pty_event) (st : acc_state) :
  loop_inv st -> (attempts st < max_attempts)%Z ->
  (consecutive_empty_reads st < 10)%Z ->
  match loop_body ps1 ev st with
  | Next st' => loop_inv st' /\ (consecutive_empty_reads st' < 10)%Z
  | Exit st' =>
      loop_inv st'
      /\ ((consecutive_empty_reads st' = 10)%Z
          \/ (prompt_detected st' = true /\ captured st' <> []))
  end.
Proof.
  unfold loop_inv, total_len, max_attempts, MAX_RESPONSE_LEN.
  intros (Hl & Ha & Hc) Hlt Hc'.
  destruct ev as [data|]; unfold loop_body.
  - destruct (firstn 1023 data) as [|c r] eqn:E.
    + destruct (Z.leb_spec 10 (consecutive_empty_reads st + 1));
        cbn [attempts captured consecutive_empty_reads prompt_detected];
        unfold max_attempts; repeat split; lia.
    + assert (B : (len (if (total_len st + len (c :: r)
                             <? MAX_RESPONSE_LEN - 1)%Z
                        then captured st ++ c :: r else captured st)
                   < 65536 - 1)%Z).
      { unfold total_len, MAX_RESPONSE_LEN.
        destruct (Z.ltb_spec (len (captured st) + len (c :: r)) (65536 - 1));
          [rewrite len_app; lia | lia]. }
      destruct (contains (cstr (c :: r)) ps1);
        cbn [attempts captured consecutive_empty_reads prompt_detected];
        unfold max_attempts; repeat split; try lia; exact B.
  - unfold total_len.
    destruct (Z.ltb_spec 0 (len (captured st))) as [Hpos|Hpos];
      destruct (prompt_detected st) eqn:P; cbn [andb];
      cbn [attempts captured consecutive_empty_reads prompt_detected];
      unfold max_attempts; repeat split; try lia.
    right; split; [exact P|].
    intros E; rewrite E in Hpos; unfold len in Hpos; simpl in Hpos; lia.
Qed.

Lemma accumulate_inv (fuel i : nat) (st acc : acc_state) :
  loop_inv st -> (consecutive_empty_reads st < 10)%Z ->
  accumulate ps1 env fuel i st = Some acc ->
  loop_inv acc
  /\ ((attempts acc = max_attempts)%Z
      \/ (consecutive_empty_reads acc = 10)%Z
      \/ (prompt_detected acc = true /\ captured acc <> [])).
Proof.
  revert i st; induction fuel as [|fuel IH]; intros i st Hinv Hc; simpl;
    destruct (Z.leb_spec max_attempts (attempts st)) as [Ha|Ha];
    try discriminate;
    try (intros [= <-]; split; [exact Hinv|];
         left; destruct Hinv as (_ & ? & _); lia).
  pose proof (loop_body_inv (env i) st Hinv Ha Hc) as P.
  destruct (loop_body ps1 (env i) st) as [st'|st'].
  - destruct P as [P1 P2]. apply IH; assumption.
  - intros [= <-]. destruct P as [P1 P2]. split; [exact P1|]. now right.
Qed.

End LoopBounds.

(** X1.  The captured output never fills the buffer: when the loop returns,
    [total_len] is below [MAX_RESPONSE_LEN - 1], so the terminating NUL
    stored at [stdout_buf[total_len]] lies inside the buffer, and
    [attempts] is within the budget. *)
Theorem accumulate_stays_in_bounds (ps1 : bytes) (env : nat -> pty_event)
  (fuel : nat) (acc : acc_state) :
  accumulate ps1 env fuel 0 acc_init = Some acc ->
  (0 <= total_len acc < MAX_RESPONSE_LEN - 1)%Z
  /\ (0 <= attempts acc <= max_attempts)%Z.
Proof.
  intros H.
  destruct (accumulate_inv ps1 env fuel 0 acc_init acc) as [(A & B & _) _];
    [repeat split; try reflexivity; discriminate | reflexivity | exact H |].
  split; [split; [apply len_nonneg | exact A] | exact B].
Qed.

Lemma accumulate_stays_in_bounds_witness :
  exists acc,
    accumulate (lit "$ ") (output Scenario.env_exit_1) 12 0 acc_init
    = Some acc
    /\ (0 <= total_len acc < MAX_RESPONSE_LEN - 1)%Z
    /\ (0 <= attempts acc <= max_attempts)%Z.
Proof.
  eexists. split; [vm_compute; reflexivity|].
  apply (accumulate_stays_in_bounds (lit "$ ") (output Scenario.env_exit_1)
           12).
  vm_compute; reflexivity.
Defined.

(** X2.  The loop has three ways out: the budget of 50 attempts is used up,
    ten reads in a row brought nothing, or a time-out came after the
    prompt was seen with some output captured. *)
Theorem accumulate_exit_reason (ps1 : bytes) (env : nat -> pty_event)
  (fuel : nat) (acc : acc_state) :
  accumulate ps1 env fuel 0 acc_init = Some acc ->
  attempts acc = max_attempts
  \/ consecutive_empty_reads acc = 10%Z
  \/ (prompt_detected acc = true /\ captured acc <> []).
Proof.
  intros H.
  destruct (accumulate_inv ps1 env fuel 0 acc_init acc) as [_ R];
    [repeat split; try reflexivity; discriminate | reflexivity | exact H |].
  exact R.
Qed.

Lemma accumulate_exit_reason_witness :
  exists acc,
    accumulate (lit "$ ") (fun _ => Ready []) 10 0 acc_init = Some acc
    /\ (attempts acc = max_attempts
        \/ consecutive_empty_reads acc = 10%Z
        \/ (prompt_detected acc = true /\ captured acc <> [])).
Proof.
  eexists. split; [vm_compute; reflexivity|].
  apply (accumulate_exit_reason (lit "$ ") (fun _ => Ready []) 10).
  vm_compute; reflexivity.
Defined.

(** X3.  The loop returns once reads of output without the prompt stop
    coming: if none comes from iteration [M] on, at most [10 * M + 509]
    iterations are made. *)
Theorem accumulate_terminates (ps1 : bytes) (env : nat -> pty_event)
  (M : nat) :
  (forall i, (M <= i)%nat -> unprompted ps1 (env i) = false) ->
  exists acc, accumulate ps1 env (10 * M + 509) 0 acc_init = Some acc.
Proof.
  intros H.
  pose proof (accumulate_returns ps1 env M H (10 * M + 509) 0 acc_init) as R.
  destruct (accumulate ps1 env (10 * M + 509) 0 acc_init) as [acc|].
  - now exists acc.
  - exfalso; apply R; [|reflexivity].
    rewrite Nat.sub_0_r.
    change (budget_left acc_init) with 509%nat. lia.
Qed.

Lemma accumulate_terminates_witness :
  exists acc,
    accumulate (lit "$ ") (output Scenario.env_vim) (10 * 2 + 509) 0 acc_init
    = Some acc.
Proof.
  apply (accumulate_terminates (lit "$ ") (output Scenario.env_vim) 2).
  intros i Hi. unfold Scenario.env_vim, output.
  destruct (Nat.ltb_spec i 2); [lia | reflexivity].
Defined.

(** ** The prompt probe *)

Lemma before_char_spec (s : bytes) (c : ascii) (p : bytes) :
  before_char s c = Some p ->
  Forall (fun x => x <> c) p /\ exists rest, s = p ++ c :: rest.
Proof.
  revert p; induction s as [|x s IH]; intros p; simpl; [discriminate|].
  destruct (Ascii.eqb x c) eqn:E.
  - intros [= <-]. apply Ascii.eqb_eq in E; subst.
    split; [constructor | now exists s].
  - destruct (before_char s c) as [q|]; [|discriminate].
    intros [= <-]. destruct (IH q eq_refl) as (F & rest & ->).
    split; [|now exists rest].
    constructor; [|exact F].
    intros ->; now rewrite Ascii.eqb_refl in E.
Qed.

Lemma no_nul_skipn (n : nat) (s : bytes) : no_nul s -> no_nul (skipn n s).
Proof.
  intros H; revert n; induction H as [|c s Hc Hs IH]; intros [|n]; simpl;
    try constructor; auto.
Qed.

(** X4.  The prompt the loop looks for is never empty, is shorter than the
    256 bytes of [ps1_prompt], and holds neither a newline nor a NUL;
    when the probe read times out it is the default. *)
Theorem probe_ps1_shape (probe : pty_event) :
  probe_ps1 probe <> []
  /\ (len (probe_ps1 probe) < 256)%Z
  /\ no_lf (probe_ps1 probe)
  /\ no_nul (probe_ps1 probe)
  /\ probe_ps1 NotReady = lit "$ ".
Proof.
  assert (D : lit "$ " <> [] /\ (len (lit "$ ") < 256)%Z
              /\ no_lf (lit "$ ") /\ no_nul (lit "$ ")).
  { repeat split; try discriminate; try reflexivity;
      repeat constructor; discriminate. }
  unfold probe_ps1.
  destruct probe as [data|]; [|tauto].
  destruct (strstr (cstr (firstn 511 data)) (lit "PS1_PROMPT:")) as [s|] eqn:S;
    [|tauto].
  destruct (before_char (skipn 11 s) LF) as [p|] eqn:B; [|tauto].
  destruct (Z.ltb_spec (len p) 256) as [L|L]; [|tauto].
  destruct p as [|c p]; [tauto|].
  destruct (before_char_spec _ _ _ B) as (F & rest & E).
  split; [discriminate|]. split; [exact L|]. split; [exact F|].
  split; [|reflexivity].
  destruct (strstr_suffix _ _ _ S) as [a Ea].
  pose proof (cstr_no_nul (firstn 511 data)) as N.
  rewrite Ea in N. apply Forall_app in N as [_ N].
  apply (no_nul_skipn 11) in N. rewrite E in N.
  apply Forall_app in N as [N _]. exact N.
Qed.

(** ** The cleaned output *)

Lemma cstr_length (s : bytes) : (List.length (cstr s) <= List.length s)%nat.
Proof.
  induction s as [|c s IH]; simpl; [lia|].
  destruct (Ascii.eqb c NUL); simpl; lia.
Qed.

Lemma lines_length (s : bytes) :
  (List.length (List.concat (lines s)) <= List.length s)%nat.
Proof.
  induction s as [|c s IH]; simpl; [lia|].
  destruct (Ascii.eqb c LF); simpl; [lia|].
  destruct (lines s) as [|l ls]; simpl in *; lia.
Qed.

Lemma concat_filter_length (f : bytes -> bool) (ls : list bytes) :
  (List.length (List.concat (filter f ls)) <= List.length (List.concat ls))%nat.
Proof.
  induction ls as [|l ls IH]; simpl; [lia|].
  destruct (f l); simpl; rewrite ?length_app; lia.
Qed.

Lemma strip_escapes_length (b : bool) (s : bytes) :
  (List.length (strip_escapes b s) <= List.length s)%nat.
Proof.
  revert b; induction s as [|c s IH]; intros b; simpl; [lia|].
  destruct (Ascii.eqb c ESC); [specialize (IH true); lia|].
  destruct b; [specialize (IH (negb (ends_escape c))); lia|].
  simpl; specialize (IH false); lia.
Qed.

Lemma strip_escapes_no_esc (b : bool) (s : bytes) :
  no_esc (strip_escapes b s).
Proof.
  revert b; induction s as [|c s IH]; intros b; simpl; [constructor|].
  destruct (Ascii.eqb c ESC) eqn:E; [apply IH|].
  destruct b; [apply IH|].
  constructor; [|apply IH].
  intros ->; now rewrite Ascii.eqb_refl in E.
Qed.

Lemma strip_escapes_no_nul (b : bool) (s : bytes) :
  no_nul s -> no_nul (strip_escapes b s).
Proof.
  intros H; revert b; induction H as [|c s Hc _ IH]; intros b; simpl;
    [constructor|].
  destruct (Ascii.eqb c ESC); [apply IH|].
  destruct b; [apply IH | constructor; [assumption | apply IH]].
Qed.

Lemma lines_no_nul (s : bytes) : no_nul s -> Forall no_nul (lines s).
Proof.
  induction 1 as [|c s Hc _ IH]; simpl.
  - repeat constructor.
  - destruct (Ascii.eqb c LF).
    + constructor; [constructor | exact IH].
    + destruct (lines s) as [|l ls]; [repeat constructor; assumption|].
      inversion IH; subst. constructor; [constructor|]; assumption.
Qed.

Lemma concat_filter_no_nul (f : bytes -> bool) (ls : list bytes) :
  Forall no_nul ls -> no_nul (List.concat (filter f ls)).
Proof.
  induction 1 as [|l ls Hl _ IH]; simpl; [constructor|].
  destruct (f l); simpl; [apply Forall_app; split|]; assumption.
Qed.

(** X5.  What is left of the captured output after the line filter and the
    removal of escape sequences is one line: it holds no newline, no ESC
    and no NUL, and it is never longer than what was captured. *)
Theorem clean_output_shape (cmd : bytes) (acc : acc_state) :
  no_lf (clean_output cmd acc)
  /\ no_esc (clean_output cmd acc)
  /\ no_nul (clean_output cmd acc)
  /\ (len (clean_output cmd acc) <= total_len acc)%Z.
Proof.
  repeat split.
  - apply clean_output_no_lf.
  - apply strip_escapes_no_esc.
  - apply strip_escapes_no_nul, concat_filter_no_nul, lines_no_nul,
      cstr_no_nul.
  - unfold clean_output, filter_lines, total_len, len.
    pose proof (strip_escapes_length false
                  (List.concat (filter (keep_line cmd)
                                  (lines (cstr (captured acc)))))).
    pose proof (concat_filter_length (keep_line cmd)
                  (lines (cstr (captured acc)))).
    pose proof (lines_length (cstr (captured acc))).
    pose proof (cstr_length (captured acc)).
    lia.
Qed.

(** ** The size of the record *)

Lemma snprintf_advance_inv (text : bytes) (c c' : cursor) :
  cursor_ok c -> snprintf_advance text c = Some c' -> cursor_ok c'.
Proof.
  destruct c as [buf remaining]; unfold cursor_ok, snprintf_advance; simpl.
  intros [H0 H1].
  destruct (Z.ltb_spec 0 (len text)); [|discriminate].
  destruct (Z.ltb_spec (len text) remaining); [|discriminate].
  intros [= <-]; simpl. rewrite len_app. lia.
Qed.

Lemma copy_payload_inv (payload : bytes) (c : cursor) :
  (len payload < 2 ^ 31)%Z ->
  cursor_ok c -> cursor_ok (copy_payload payload c).
Proof.
  destruct c as [buf remaining]; unfold cursor_ok, copy_payload; simpl.
  intros Hp [H0 H1].
  pose proof (len_nonneg payload) as P.
  assert (T : to_int (len payload) = len payload).
  { unfold to_int. pow_consts. rewrite Z.mod_small by lia. lia. }
  rewrite T.
  destruct (Z.ltb_spec 0 (len payload)); simpl andb;
    [destruct (Z.ltb_spec (len payload) remaining)|]; cbv iota.
  - destruct (Z.ltb_spec 0 (remaining - len payload)); simpl;
      rewrite ?len_app; change (len [LF]) with 1%Z; lia.
  - destruct (Z.ltb_spec 0 remaining); simpl;
      rewrite ?len_app; change (len [LF]) with 1%Z; lia.
  - destruct (Z.ltb_spec 0 remaining); simpl;
      rewrite ?len_app; change (len [LF]) with 1%Z; lia.
Qed.

Lemma write_section_inv (label_len label content : bytes) (c : cursor) :
  (len (cstr content) < 2 ^ 31)%Z ->
  cursor_ok c -> cursor_ok (write_section label_len label content c).
Proof.
  intros Hp Hc. unfold write_section.
  destruct (snprintf_advance _ c) as [c'|] eqn:E; [|exact Hc].
  apply copy_payload_inv; [exact Hp|].
  eapply snprintf_advance_inv; eassumption.
Qed.

(** X6.  The record never runs over the shared region: whatever the exit code
    and for contents shorter than 2^31 bytes (the validator's buffers
    hold 65536), its text takes at most [MMAP_SIZE - 1] bytes, so that
    the final NUL is stored inside the region. *)
Theorem record_fits_region (exit_code : Z) (out err : bytes) :
  (len (cstr out) < 2 ^ 31)%Z -> (len (cstr err) < 2 ^ 31)%Z ->
  (len (write_result_to_mmap exit_code out err) <= MMAP_SIZE - 1)%Z.
Proof.
  intros Ho He. unfold write_result_to_mmap.
  assert (H0 : cursor_ok ([], (MMAP_SIZE - 1)%Z))
    by (split; [discriminate | reflexivity]).
  assert (H1 : cursor_ok
                 match snprintf_advance
                         (lit "EXIT_CODE:" ++ print_int exit_code ++ [LF])
                         ([], (MMAP_SIZE - 1)%Z) with
                 | Some c => c
                 | None => ([], (MMAP_SIZE - 1)%Z)
                 end).
  { destruct (snprintf_advance _ _) as [c|] eqn:E; [|exact H0].
    eapply snprintf_advance_inv; eassumption. }
  pose proof (write_section_inv (lit "STDOUT_LEN:") (lit "STDOUT:") out _
                Ho H1) as H2.
  pose proof (write_section_inv (lit "STDERR_LEN:") (lit "STDERR:") err _
                He H2) as [H3 H4].
  lia.
Qed.

Lemma record_fits_region_witness :
  (len (write_result_to_mmap 127 (lit "bash: foobar: command not found") [])
   <= MMAP_SIZE - 1)%Z.
Proof.
  apply record_fits_region; vm_compute; reflexivity.
Defined.

(** ** The handler and the frontend's verdict *)


(** While bash is ready and the initial drain finds the master readable
    again and again, the command is not written and the handler does not
    answer. *)
Lemma endless_drain_never_answers (fuel : nat) (s : session) (env : pty_env)
  (m : mmap_state) (received : bytes) :
  bash_ready s = true -> drain_ends s = false -> received <> [] ->
  handle_client_request fuel s env m received = None.
Proof.
  intros Hb Hd Hne. unfold handle_client_request.
  destruct received as [|c r]; [congruence|].
  change (firstn 1023 (c :: r)) with (c :: firstn 1022 r). cbv iota.
  unfold execute_command_in_sandbox. rewrite Hb, Hd. reflexivity.
Qed.



Lemma loop_inv_init : loop_inv acc_init.
Proof. repeat split; try reflexivity; discriminate. Qed.

Lemma clean_output_no_nul (cmd : bytes) (acc : acc_state) :
  no_nul (clean_output cmd acc).
Proof.
  apply strip_escapes_no_nul, concat_filter_no_nul, lines_no_nul, cstr_no_nul.
Qed.

Lemma clean_output_length (cmd : bytes) (acc : acc_state) :
  (len (clean_output cmd acc) <= total_len acc)%Z.
Proof.
  unfold clean_output, filter_lines, total_len, len.
  pose proof (strip_escapes_length false
                (List.concat (filter (keep_line cmd)
                                (lines (cstr (captured acc)))))).
  pose proof (concat_filter_length (keep_line cmd)
                (lines (cstr (captured acc)))).
  pose proof (lines_length (cstr (captured acc))).
  pose proof (cstr_length (captured acc)).
  lia.
Qed.

Lemma no_nul_lit_interactive : no_nul (lit "INTERACTIVE_COMMAND").
Proof. no_nul_lit. Qed.

(** What the validator hands to the record writer. *)
Lemma validator_result (fuel : nat) (s : session) (env : pty_env)
  (cmd : bytes) (ops : list pty_op) (exit_code : Z) (out err : bytes) :
  execute_command_in_sandbox fuel s env cmd
  = Some (ExecOk ops exit_code out err) ->
  err = [] /\ no_nul out /\ no_lf out /\ (len out < MAX_RESPONSE_LEN - 1)%Z.
Proof.
  unfold execute_command_in_sandbox.
  destruct (bash_ready s); [|discriminate]. cbn [negb].
  destruct (drain_ends s); [|discriminate]. cbn [negb].
  destruct (write_succeeds s); [|discriminate]. cbn [negb].
  destruct (accumulate _ _ _ _ _) as [acc|] eqn:A; [|discriminate].
  destruct (accumulate_inv _ _ _ _ _ _ loop_inv_init eq_refl A)
    as [(B & _) _].
  pose proof (clean_output_no_lf cmd acc) as C1.
  pose proof (clean_output_no_nul cmd acc) as C3.
  pose proof (clean_output_length cmd acc) as C4.
  unfold classify.
  destruct (prompt_detected acc); cbn [negb].
  - destruct (has_shell_error (clean_output cmd acc)).
    + intros [= _ _ <- <-]. repeat split; try assumption; lia.
    + destruct (strstr (clean_output cmd acc) (lit "EXIT_CODE:"))
        as [line|] eqn:M.
      * rewrite (marker_line_is_all _ _ _ C1 M).
        intros [= _ _ <- <-]. repeat split; try constructor.
      * intros [= _ _ <- <-]. repeat split; try assumption; lia.
  - intros [= _ _ <- <-]. split; [reflexivity|].
    split; [apply no_nul_lit_interactive|].
    split; [repeat constructor; discriminate | reflexivity].
Qed.

(** X8.  Whatever the validator returns, the record made of it is complete:
    the error text is empty, the output holds no NUL and is shorter than
    the validator's buffer, so nothing is cut and the record is the
    five-line text with the whole output in it. *)
Theorem validator_record_is_complete (fuel : nat) (s : session)
  (env : pty_env) (cmd : bytes) (ops : list pty_op) (exit_code : Z)
  (out err : bytes) :
  execute_command_in_sandbox fuel s env cmd
  = Some (ExecOk ops exit_code out err) ->
  err = []
  /\ (len out < MAX_RESPONSE_LEN - 1)%Z
  /\ write_result_to_mmap exit_code out err
     = lit "EXIT_CODE:" ++ print_int exit_code ++ [LF]
       ++ lit "STDOUT_LEN:" ++ print_unsigned (len out) ++ [LF]
       ++ lit "STDOUT:" ++ out ++ [LF]
       ++ lit "STDERR_LEN:0" ++ [LF] ++ lit "STDERR:" ++ [LF].
Proof.
  intros H. destruct (validator_result _ _ _ _ _ _ _ _ H) as (-> & N & _ & L).
  split; [reflexivity|]. split; [exact L|].
  rewrite write_result_to_mmap_text.
  - rewrite (cstr_fixed out N). reflexivity.
  - rewrite (cstr_fixed out N). unfold MAX_RESPONSE_LEN in L.
    change (len (cstr [])) with 0%Z. lia.
Qed.

Lemma validator_record_is_complete_witness :
  execute_command_in_sandbox 2 Scenario.session_ok Scenario.env_not_found
    (lit "foobar --baz")
  = Some (ExecOk [PtyWrite (full_cmd (lit "foobar --baz"));
                  PtyWrite ps1_query]
            (-109) Cases.not_found [])
  /\ @nil ascii = []
  /\ (len Cases.not_found < MAX_RESPONSE_LEN - 1)%Z
  /\ write_result_to_mmap (-109) Cases.not_found []
     = lit "EXIT_CODE:" ++ print_int (-109) ++ [LF]
       ++ lit "STDOUT_LEN:" ++ print_unsigned (len Cases.not_found) ++ [LF]
       ++ lit "STDOUT:" ++ Cases.not_found ++ [LF]
       ++ lit "STDERR_LEN:0" ++ [LF] ++ lit "STDERR:" ++ [LF].
Proof.
  assert (R : execute_command_in_sandbox 2 Scenario.session_ok
                Scenario.env_not_found (lit "foobar --baz")
              = Some (ExecOk [PtyWrite (full_cmd (lit "foobar --baz"));
                              PtyWrite ps1_query]
                        (-109) Cases.not_found []))
    by (vm_compute; reflexivity).
  split; [exact R|].
  exact (validator_record_is_complete 2 Scenario.session_ok
           Scenario.env_not_found (lit "foobar --baz") _ _ _ _ R).
Defined.

(** X9.  The frontend's verdict is one of six numbers: -1 when the sandbox is
    not running or does not answer, and otherwise 0, -2, -103, -109 or
    -113, whatever the record holds. *)
Theorem verdict_closed_set (sandbox_running : bool) (reply : option bytes) :
  In (test_command_in_sandbox sandbox_running reply)
    [(-1)%Z; 0%Z; (-2)%Z; (-103)%Z; (-109)%Z; (-113)%Z]
  /\ (test_command_in_sandbox sandbox_running reply = (-1)%Z
      <-> sandbox_running = false \/ reply = None).
Proof.
  unfold test_command_in_sandbox, verdict_of_response.
  destruct sandbox_running; cbn [negb].
  2:{ split; [now left | split; auto]. }
  destruct reply as [response|].
  2:{ split; [now left | split; auto]. }
  assert (R : forall z : Z,
             In z [0%Z; (-2)%Z; (-103)%Z; (-109)%Z; (-113)%Z] ->
             In z [(-1)%Z; 0%Z; (-2)%Z; (-103)%Z; (-109)%Z; (-113)%Z]
             /\ (z = (-1)%Z <-> true = false \/ Some response = None)).
  { intros z Hz. split; [now right|].
    split; [|intros [?|?]; discriminate].
    intros ->. simpl in Hz.
    repeat (destruct Hz as [Hz|Hz]; [discriminate|]). contradiction. }
  apply R.
  destruct (contains response (lit "INTERACTIVE_COMMAND")); [simpl; auto|].
  destruct (Z.eqb_spec (parse_exit_code response) (-103)) as [->|];
    [simpl; auto|].
  destruct (Z.eqb_spec (parse_exit_code response) (-113)) as [->|];
    [simpl; auto 6|].
  destruct (Z.eqb_spec (parse_exit_code response) (-109)) as [->|];
    [simpl; auto 6|].
  cbn [orb].
  destruct ((parse_exit_code response =? 0)%Z
            && (len (parse_stderr response) =? 0)%Z); simpl; auto.
Qed.

(** ** The AI heuristic and the dispatcher *)

(** X10.  The answer of [is_ai_query] depends on two tests only: an indicator
    word in the lower-cased first 1023 bytes, or a question mark.  The
    tests on shell syntax and on known shell commands that follow never
    change it. *)
Theorem ai_query_two_tests (cmd : bytes) :
  is_ai_query cmd = has_ai_indicator cmd || has_char cmd "?".
Proof.
  unfold is_ai_query.
  destruct (has_ai_indicator cmd); [reflexivity|].
  destruct (has_char cmd "?"); [reflexivity|].
  destruct (existsb (has_char cmd) shell_meta); [reflexivity|].
  destruct (known_shell_command cmd); reflexivity.
Qed.

(** X11.  Nothing is sent to the backend while it is not ready: whatever the
    command, the state of the sandbox, the result of the direct run and
    the sandbox's answer. *)
Theorem absent_backend_gets_nothing (sandbox_ready : bool) (verbose : Z)
  (cmd : bytes) (result : Z) (reply : option bytes) :
  Forall (fun a => forall c, a <> SendToBackend c)
    (execute_command_securely false sandbox_ready verbose cmd result reply).
Proof.
  unfold execute_command_securely, after_sandbox, route_to_ai, when.
  rewrite andb_false_r. cbn [negb andb].
  repeat match goal with
         | |- context [if ?b then _ else _] => destruct b
         end;
    repeat constructor; discriminate.
Qed.

(** X12.  The command is run with the terminal only as the last of three
    steps: the direct run has failed, the sandbox was asked, and its
    verdict was -103. *)
Theorem interactive_after_failed_run (backend_ready sandbox_ready : bool)
  (verbose : Z) (cmd c : bytes) (result : Z) (reply : option bytes) :
  In (RunInteractive c)
    (execute_command_securely backend_ready sandbox_ready verbose cmd
       result reply) ->
  execute_command_securely backend_ready sandbox_ready verbose cmd
    result reply
  = [RunDirect cmd; AskSandbox cmd; RunInteractive cmd]
  /\ c = cmd /\ result <> 0%Z /\ sandbox_ready = true
  /\ test_command_in_sandbox sandbox_ready reply = (-103)%Z.
Proof.
  unfold execute_command_securely, after_sandbox, route_to_ai, when.
  assert (V : sandbox_ready = false ->
              test_command_in_sandbox sandbox_ready reply = (-1)%Z)
    by now intros ->.
  remember (test_command_in_sandbox sandbox_ready reply) as v.
  assert (absent : forall l : list dispatch_action,
             Forall (fun a => a <> RunInteractive c) l ->
             In (RunInteractive c) l ->
             l = [RunDirect cmd; AskSandbox cmd; RunInteractive cmd]
             /\ c = cmd /\ result <> 0%Z /\ sandbox_ready = true
             /\ v = (-103)%Z).
  { intros l F I. exfalso. rewrite Forall_forall in F. now apply (F _ I). }
  destruct (negb backend_ready && negb sandbox_ready).
  { destruct (negb (result =? 0)%Z && (1 <=? verbose)%Z);
      apply absent; repeat constructor; discriminate. }
  destruct (is_ai_query cmd && backend_ready).
  { apply absent; repeat constructor; discriminate. }
  destruct (Z.eqb_spec result 0).
  { apply absent; repeat constructor; discriminate. }
  destruct (Z.eqb_spec v 0).
  { destruct (1 <=? verbose)%Z;
      apply absent; repeat constructor; discriminate. }
  destruct (Z.eqb_spec v (-113)).
  { destruct backend_ready;
      apply absent; repeat constructor; discriminate. }
  destruct (Z.eqb_spec v (-103)) as [E|E].
  { simpl. intros [H|[H|[H|H]]]; try discriminate; [|contradiction].
    injection H as <-. repeat split; try assumption.
    destruct sandbox_ready; [reflexivity|].
    exfalso. specialize (V eq_refl). lia. }
  destruct (Z.eqb_spec v (-109)).
  { destruct (1 <=? verbose)%Z;
      apply absent; repeat constructor; discriminate. }
  destruct backend_ready; apply absent; repeat constructor; discriminate.
Qed.

Lemma interactive_after_failed_run_witness :
  execute_command_securely true true 0 (lit "vim notes.txt") 256
    (Scenario.validate 52 Scenario.session_ok Scenario.env_vim
       (lit "vim notes.txt"))
  = [RunDirect (lit "vim notes.txt"); AskSandbox (lit "vim notes.txt");
     RunInteractive (lit "vim notes.txt")]
  /\ lit "vim notes.txt" = lit "vim notes.txt" /\ 256%Z <> 0%Z
  /\ true = true
  /\ test_command_in_sandbox true
       (Scenario.validate 52 Scenario.session_ok Scenario.env_vim
          (lit "vim notes.txt")) = (-103)%Z.
Proof.
  apply (interactive_after_failed_run true true 0 (lit "vim notes.txt")
           (lit "vim notes.txt") 256
           (Scenario.validate 52 Scenario.session_ok Scenario.env_vim
              (lit "vim notes.txt"))).
  vm_compute. right; right; left; reflexivity.
Defined.

(** ** The patterns of the security agent *)

(** X13.  A command the agent blocks stays blocked when text is put before and
    after it, unless the whole becomes one of the system commands, which
    are not examined. *)
Theorem blocked_stays_blocked (a c b : bytes) :
  validate_command c = false ->
  is_system_command (a ++ c ++ b) = false ->
  validate_command (a ++ c ++ b) = false.
Proof.
  unfold validate_command. intros H ->.
  destruct (is_system_command c); [discriminate|].
  unfold matches_dangerous, matches_sensitive, rm_rf_rule in *.
  destruct (existsb (fun r => regexec r c) dangerous_patterns) eqn:D.
  { now rewrite (existsb_regexec_embed _ a c b D). }
  destruct (existsb (fun r => regexec r c) sensitive_patterns) eqn:S.
  { rewrite (existsb_regexec_embed _ a c b S).
    destruct (existsb (fun r => regexec r (a ++ c ++ b)) dangerous_patterns);
      reflexivity. }
  destruct (contains c (lit "rm")) eqn:C1; [|discriminate].
  destruct (contains c (lit "-rf")) eqn:C2; [|discriminate].
  rewrite (contains_app_l a _ _ (contains_app_r c b _ C1)).
  rewrite (contains_app_l a _ _ (contains_app_r c b _ C2)).
  destruct (existsb (fun r => regexec r (a ++ c ++ b)) dangerous_patterns);
    [|destruct (existsb (fun r => regexec r (a ++ c ++ b))
                  sensitive_patterns)]; reflexivity.
Qed.

Lemma blocked_stays_blocked_witness :
  validate_command (lit "echo cleaning; " ++ lit "rm -rf /" ++ lit " # tidy")
  = false.
Proof.
  apply (blocked_stays_blocked (lit "echo cleaning; ") (lit "rm -rf /")
           (lit " # tidy")); vm_compute; reflexivity.
Defined.

(** X14.  The agent blocks nothing but commands that show one of ten words:
    a command in which none of them occurs is forwarded. *)
Theorem blocked_only_by_trigger_word (command : bytes) :
  validate_command command = false ->
  existsb (contains command) trigger_words = true.
Proof.
  intros V.
  destruct (existsb (contains command) trigger_words) eqn:Q; [reflexivity|].
  rewrite (quiet_command_passes command Q) in V. discriminate V.
Qed.

Lemma blocked_only_by_trigger_word_witness :
  existsb (contains (lit "chmod  777 /etc")) trigger_words = true.
Proof.
  apply (blocked_only_by_trigger_word (lit "chmod  777 /etc")).
  vm_compute; reflexivity.
Defined.

(** ** The relay loop *)

Lemma relayed_more (ev : Proxy.select_result)
  (evs : list Proxy.select_result) (a : action) :
  relayed evs a -> relayed (ev :: evs) a.
Proof.
  destruct a as [b|b]; simpl.
  - intros (N & V & rc & ok & bk & I & E).
    repeat split; try assumption. exists rc, ok, bk. split; [now right | auto].
  - intros [E|(N & rc & ok & fr & I & E)]; [now left | right].
    split; [assumption|]. exists rc, ok, fr. split; [now right | auto].
Qed.

Lemma relayed_here (ev : Proxy.select_result)
  (evs : list Proxy.select_result) :
  Forall (relayed (ev :: evs)) (fst (Proxy.relay_step ev)).
Proof.
  destruct ev as [| | |f b]; simpl; try constructor.
  assert (F : forall rc ok,
             Forall (relayed (Proxy.SelectReady (Some (rc, ok)) b :: evs))
               (fst (on_frontend_data rc ok))).
  { intros rc ok. unfold on_frontend_data.
    destruct (firstn 4095 rc) as [|x r] eqn:E; [constructor|].
    destruct (validate_command (cstr (x :: r))) eqn:V; simpl.
    - constructor; [|constructor].
      split; [discriminate|]. split; [exact V|].
      exists rc, ok, b. split; [now left | now rewrite E].
    - constructor; [now left | constructor]. }
  assert (B : forall rc ok,
             Forall (relayed (Proxy.SelectReady f (Some (rc, ok)) :: evs))
               (fst (on_backend_data rc ok))).
  { intros rc ok. unfold on_backend_data.
    destruct (firstn 4095 rc) as [|x r] eqn:E; [constructor|].
    simpl. constructor; [|constructor]. right. split; [discriminate|].
    exists rc, ok, f. split; [now left | now rewrite E]. }
  destruct f as [[rc ok]|].
  - specialize (F rc ok).
    destruct (on_frontend_data rc ok) as [a1 [| |]]; simpl in *.
    + destruct b as [[rc' ok']|].
      * specialize (B rc' ok').
        destruct (on_backend_data rc' ok') as [a2 fl2]; simpl in *.
        apply Forall_app; split; assumption.
      * simpl. now rewrite app_nil_r.
    + exact F.
    + exact F.
  - simpl. destruct b as [[rc' ok']|]; [|constructor].
    specialize (B rc' ok').
    destruct (on_backend_data rc' ok') as [a2 fl2]; simpl in *. exact B.
Qed.

(** X15.  The agent relays and never originates: during a connection, whatever
    the sockets deliver and whichever sends fail, everything sent to the
    backend is a message received from the frontend, not empty, that
    passed [validate_command], and everything sent to the frontend is
    either the fixed error message or a message received from the
    backend. *)
Theorem relay_forwards_validated_only (evs : list Proxy.select_result) :
  Forall (relayed evs) (Proxy.relay evs).
Proof.
  induction evs as [|ev evs IH]; simpl; [constructor|].
  pose proof (relayed_here ev evs) as H.
  destruct (Proxy.relay_step ev) as [a [| |]]; simpl in H.
  - apply Forall_app; split; [exact H|].
    eapply Forall_impl; [|exact IH]. intros x; apply relayed_more.
  - exact H.
  - exact H.
Qed.

(** ** Configuration files *)

Import Config.

Lemma plain_app (a b : bytes) : plain a -> plain b -> plain (a ++ b).
Proof. intros; apply Forall_app; now split. Qed.

Lemma plain_firstn (n : nat) (s : bytes) : plain s -> plain (firstn n s).
Proof.
  intros H; revert n; induction H as [|c s Hc _ IH]; intros [|n]; simpl;
    try constructor; [exact Hc | apply IH].
Qed.

Lemma chomp_plain (s : bytes) : plain (chomp s).
Proof.
  induction s as [|c s IH]; simpl; [constructor|].
  destruct (Ascii.eqb c LF) eqn:E1; [constructor|].
  destruct (Ascii.eqb c NUL) eqn:E2; [constructor|]. simpl.
  constructor; [|exact IH].
  split; intros ->; [rewrite Ascii.eqb_refl in E1 | rewrite Ascii.eqb_refl in E2];
    discriminate.
Qed.

Lemma chomp_length (s : bytes) : (List.length (chomp s) <= List.length s)%nat.
Proof.
  induction s as [|c s IH]; simpl; [lia|].
  destruct (Ascii.eqb c LF || Ascii.eqb c NUL); simpl; lia.
Qed.

Lemma chomp_fixed (s : bytes) : plain s -> chomp s = s.
Proof.
  induction 1 as [|c s [H1 H2] _ IH]; simpl; [reflexivity|].
  destruct (Ascii.eqb c LF) eqn:E1; [apply Ascii.eqb_eq in E1; contradiction|].
  destruct (Ascii.eqb c NUL) eqn:E2; [apply Ascii.eqb_eq in E2; contradiction|].
  simpl. now rewrite IH.
Qed.

Lemma chomp_line (s rest : bytes) : plain s -> chomp (s ++ LF :: rest) = s.
Proof.
  induction 1 as [|c s [H1 H2] _ IH]; simpl; [reflexivity|].
  destruct (Ascii.eqb c LF) eqn:E1; [apply Ascii.eqb_eq in E1; contradiction|].
  destruct (Ascii.eqb c NUL) eqn:E2; [apply Ascii.eqb_eq in E2; contradiction|].
  simpl. now rewrite IH.
Qed.

Lemma In_firstn_bytes (n : nat) (l : list bytes) (x : bytes) :
  In x (firstn n l) -> In x l.
Proof.
  revert n; induction l as [|y l IH]; intros [|n]; simpl; try tauto.
  intros [H|H]; [now left | right; eauto].
Qed.

(** *** Reading with [fgets] *)

Lemma fgets_all_bound (size1 : nat) (s : bytes) (room : nat) (cur : bytes) :
  (0 < room)%nat -> (0 < size1)%nat ->
  (List.length cur + room <= size1)%nat ->
  Forall (fun ch => (List.length ch <= size1)%nat)
    (fgets_all size1 room cur s).
Proof.
  intros Hr Hs; revert room cur Hr.
  induction s as [|c s IH]; intros room cur Hr Hb; simpl.
  - destruct cur; constructor; [|constructor].
    rewrite length_rev. lia.
  - assert (C : Forall (fun ch => (List.length ch <= size1)%nat)
                  (rev (c :: cur) :: fgets_all size1 size1 [] s)).
    { constructor; [rewrite length_rev; simpl; lia|].
      apply IH; simpl; lia. }
    destruct (Ascii.eqb c LF); [exact C|].
    destruct room as [|[|room']]; try exact C.
    apply IH; simpl in *; lia.
Qed.

Lemma file_chunks_bound (f : bytes) :
  Forall (fun ch => (List.length ch <= 255)%nat) (file_chunks f).
Proof. apply fgets_all_bound; simpl; lia. Qed.

Lemma fgets_all_short (size1 : nat) (l rest : bytes) (room : nat)
  (cur : bytes) :
  plain l -> (List.length l < room)%nat ->
  fgets_all size1 room cur (l ++ LF :: rest)
  = (rev cur ++ l ++ [LF]) :: fgets_all size1 size1 [] rest.
Proof.
  intros H; revert room cur; induction H as [|c l [H1 _] _ IH];
    intros room cur Hr; simpl.
  - reflexivity.
  - destruct (Ascii.eqb c LF) eqn:E; [apply Ascii.eqb_eq in E; contradiction|].
    destruct room as [|[|room']]; simpl in Hr; try lia.
    rewrite IH by lia. simpl. now rewrite <- app_assoc.
Qed.

Lemma fgets_all_full (size1 : nat) (l rest : bytes) (room : nat)
  (cur : bytes) :
  plain l -> (0 < room)%nat -> List.length l = room ->
  fgets_all size1 room cur (l ++ rest)
  = (rev cur ++ l) :: fgets_all size1 size1 [] rest.
Proof.
  intros H; revert room cur; induction H as [|c l [H1 _] _ IH];
    intros room cur Hr Hl; simpl in *; [lia|].
  destruct (Ascii.eqb c LF) eqn:E; [apply Ascii.eqb_eq in E; contradiction|].
  destruct room as [|[|room']]; try lia.
  - destruct l; [reflexivity | discriminate].
  - rewrite IH by lia. simpl. now rewrite <- app_assoc.
Qed.

(** Reading back what was written line by line gives the lines again,
    with an empty piece after each line of 255 bytes. *)
Lemma fold_written (A : Type) (f : A -> bytes -> A) (L : list bytes) :
  (forall st, f st [] = st) ->
  Forall writable L ->
  forall st,
    fold_left (fun st ch => f st (chomp ch))
      (file_chunks (List.concat (map (fun l => l ++ [LF]) L))) st
    = fold_left f L st.
Proof.
  intros Hf; induction 1 as [|l L [Hp Hl] _ IH]; intros st; [reflexivity|].
  cbn [map List.concat fold_left]. rewrite <- app_assoc. cbn [app].
  unfold file_chunks in *.
  destruct (Nat.eq_dec (List.length l) 255) as [E|E].
  - rewrite (fgets_all_full 255 l) by (auto; lia).
    cbn [rev app fold_left fgets_all].
    rewrite Ascii.eqb_refl. cbn [rev app fold_left].
    rewrite (chomp_fixed l Hp). change (chomp [LF]) with (@nil ascii).
    rewrite Hf. apply IH.
  - rewrite (fgets_all_short 255 l) by (auto; lia).
    cbn [rev app fold_left].
    change (l ++ [LF]) with (l ++ LF :: []). rewrite (chomp_line l [] Hp).
    apply IH.
Qed.

(** *** Keys and lines *)

Lemma split_equals_key (key v : bytes) :
  has_char key "=" = false -> split_equals (key ++ "="%char :: v) = Some (key, v).
Proof.
  unfold has_char. induction key as [|c key IH]; simpl; [reflexivity|].
  destruct (Ascii.eqb c "="); [discriminate|].
  intros H. now rewrite (IH H).
Qed.

Lemma split_equals_line (line k v : bytes) :
  split_equals line = Some (k, v) -> line = k ++ "="%char :: v.
Proof.
  revert k; induction line as [|c line IH]; intros k; simpl; [discriminate|].
  destruct (Ascii.eqb c "=") eqn:E.
  - intros [= <- <-]. apply Ascii.eqb_eq in E. now subst.
  - destruct (split_equals line) as [[k' v']|]; [|discriminate].
    intros [= <- <-]. simpl. f_equal. now apply IH.
Qed.

Lemma key_line_assignment (key v : bytes) :
  key_line key (key ++ "="%char :: v) = true.
Proof.
  unfold key_line.
  change (key ++ "="%char :: v) with (key ++ ["="%char] ++ v).
  rewrite app_assoc. apply prefixb_app.
Qed.

Lemma bytes_eqb_neq (a b : bytes) : a <> b -> bytes_eqb a b = false.
Proof.
  intros H. destruct (bytes_eqb a b) eqn:E; [|reflexivity].
  apply bytes_eqb_eq in E. contradiction.
Qed.

Lemma bytes_eqb_refl (a : bytes) : bytes_eqb a a = true.
Proof. now apply bytes_eqb_eq. Qed.

Lemma setenv_other (k v : bytes) (e : env) (key : bytes) :
  key <> k -> getenv (setenv k v e) key = getenv e key.
Proof.
  intros H. unfold setenv, getenv. destruct k as [|c k]; [reflexivity|].
  destruct (has_char (c :: k) "="); [reflexivity|].
  now rewrite (bytes_eqb_neq _ _ H).
Qed.

Lemma setenv_same (key v : bytes) (e : env) :
  key <> [] -> has_char key "=" = false ->
  getenv (setenv key v e) key = Some v.
Proof.
  intros H1 H2. unfold setenv, getenv. destruct key as [|c k]; [congruence|].
  rewrite H2. now rewrite bytes_eqb_refl.
Qed.

Section Setting.

Variables key value : bytes.
Hypothesis key_nonempty : key <> [].
Hypothesis key_no_equals : has_char key "=" = false.
Hypothesis key_no_hash : hd_error key <> Some "#"%char.
Hypothesis key_not_model : strcmp_eq key (lit "MODEL") = false.

Lemma load_parsed_assignment (st : settings) :
  holds key value (load_parsed st (key ++ "="%char :: value)).
Proof.
  unfold holds, load_parsed.
  destruct key as [|c k] eqn:K; [congruence|]. rewrite <- K in *.
  assert (H : Ascii.eqb c "#" = false).
  { destruct (Ascii.eqb c "#") eqn:E; [|reflexivity].
    apply Ascii.eqb_eq in E. subst. exfalso. now apply key_no_hash. }
  replace (key ++ "="%char :: value) with (c :: k ++ "="%char :: value)
    by now rewrite K.
  rewrite H. replace (c :: k ++ "="%char :: value)
    with (key ++ "="%char :: value) by now rewrite K.
  rewrite (split_equals_key key value key_no_equals). cbn [verbose environ].
  rewrite key_not_model. split.
  - now apply setenv_same.
  - intros E. rewrite E. reflexivity.
Qed.

Lemma load_parsed_other (st : settings) (line : bytes) :
  key_line key line = false ->
  getenv (environ (load_parsed st line)) key = getenv (environ st) key
  /\ (key = lit "VERBOSE" -> verbose (load_parsed st line) = verbose st).
Proof.
  intros H. unfold load_parsed.
  destruct line as [|c line]; [now split|].
  destruct (Ascii.eqb c "#"); [now split|].
  destruct (split_equals (c :: line)) as [[k v]|] eqn:S; [|now split].
  apply split_equals_line in S.
  assert (N : key <> k).
  { intros <-. rewrite S, key_line_assignment in H. discriminate. }
  cbn [verbose environ]. split.
  - destruct (strcmp_eq k (lit "MODEL")); [reflexivity|].
    now apply setenv_other.
  - intros E. destruct (strcmp_eq k (lit "VERBOSE")) eqn:V; [|reflexivity].
    apply bytes_eqb_eq in V. congruence.
Qed.

(** The last line for [key] decides: when every such line is the
    assignment and there is one, the setting holds in the end. *)
Lemma fold_assignment (L : list bytes) :
  (forall l, In l L -> key_line key l = true ->
             l = key ++ "="%char :: value) ->
  forall st,
    existsb (key_line key) L = true \/ holds key value st ->
    holds key value (fold_left load_parsed L st).
Proof.
  induction L as [|l L IH]; intros HL st H; cbn [fold_left].
  - destruct H as [H|H]; [discriminate | exact H].
  - apply IH; [intros x Hx; apply HL; now right|].
    cbn [existsb] in H.
    destruct (key_line key l) eqn:K.
    + right. rewrite (HL l (or_introl eq_refl) K).
      apply load_parsed_assignment.
    + destruct H as [H|[H1 H2]]; [now left | right].
      destruct (load_parsed_other st l K) as [E1 E2].
      split; [now rewrite E1 | intros E; rewrite (E2 E); auto].
Qed.

Hypothesis key_plain : plain key.
Hypothesis value_plain : plain value.
Hypothesis fits : (List.length key + List.length value < 255)%nat.

Lemma assignment_whole : assignment key value = key ++ "="%char :: value.
Proof.
  unfold assignment. apply firstn_all2.
  rewrite length_app. simpl. lia.
Qed.

Lemma assignment_writable : writable (assignment key value).
Proof.
  rewrite assignment_whole. split.
  - apply plain_app; [exact key_plain|].
    constructor; [split; discriminate | exact value_plain].
  - rewrite length_app. simpl. lia.
Qed.

Lemma updated_lines_writable (old : option bytes) :
  Forall writable (updated_lines key value old).
Proof.
  unfold updated_lines.
  set (lines := match old with
                | Some f => map chomp (firstn 99 (file_chunks f))
                | None => []
                end).
  assert (W : Forall writable lines).
  { unfold lines. destruct old as [f|]; [|constructor].
    apply Forall_map. apply Forall_forall. intros ch Hch.
    split; [apply chomp_plain|].
    pose proof (chomp_length ch).
    pose proof (file_chunks_bound f) as B. rewrite Forall_forall in B.
    specialize (B ch (In_firstn_bytes _ _ _ Hch)). lia. }
  assert (W' : Forall writable (map (update_line key value) lines)).
  { apply Forall_map. eapply Forall_impl; [|exact W].
    intros l Hl. unfold update_line.
    destruct (key_line key l); [apply assignment_writable | exact Hl]. }
  destruct (negb _ && _); [|exact W'].
  apply Forall_app; split; [exact W'|].
  constructor; [apply assignment_writable | constructor].
Qed.

Lemma updated_lines_assign (old : option bytes) (l : bytes) :
  In l (updated_lines key value old) -> key_line key l = true ->
  l = key ++ "="%char :: value.
Proof.
  unfold updated_lines.
  set (lines := match old with
                | Some f => map chomp (firstn 99 (file_chunks f))
                | None => []
                end).
  assert (M : In l (map (update_line key value) lines) ->
              key_line key l = true -> l = key ++ "="%char :: value).
  { intros I K. apply in_map_iff in I as (x & <- & _).
    unfold update_line in *.
    destruct (key_line key x) eqn:Kx; [apply assignment_whole | congruence]. }
  destruct (negb _ && _); [|exact M].
  intros I K. apply in_app_or in I as [I|[<-|[]]]; [now apply M|].
  apply assignment_whole.
Qed.

Lemma updated_lines_found (old : option bytes) :
  short_file old ->
  existsb (key_line key) (updated_lines key value old) = true.
Proof.
  intros Hs. unfold updated_lines.
  set (lines := match old with
                | Some f => map chomp (firstn 99 (file_chunks f))
                | None => []
                end).
  assert (Hl : (List.length (map (update_line key value) lines) < 99)%nat).
  { rewrite length_map. unfold lines, short_file in *.
    destruct old as [f|]; [|simpl; lia].
    rewrite length_map, length_firstn. lia. }
  apply Nat.ltb_lt in Hl. rewrite Hl, andb_true_r.
  destruct (existsb (key_line key) lines) eqn:F; cbn [negb].
  - apply existsb_exists in F as (x & I & K).
    apply existsb_exists. exists (update_line key value x).
    split; [now apply in_map|].
    unfold update_line. rewrite K, assignment_whole.
    apply key_line_assignment.
  - rewrite existsb_app. cbn [existsb].
    rewrite assignment_whole, key_line_assignment.
    apply orb_true_r.
Qed.

Lemma update_then_load (old : option bytes) (st : settings) :
  short_file old ->
  holds key value (load_file st (update_config_file key value old)).
Proof.
  intros Hs. unfold load_file, update_config_file.
  change (fold_left load_line) with
    (fold_left (fun st ch => load_parsed st (chomp ch))).
  rewrite (fold_written settings load_parsed);
    [|reflexivity | apply updated_lines_writable].
  apply fold_assignment; [apply updated_lines_assign|].
  left. now apply updated_lines_found.
Qed.

End Setting.

(** X16.  A setting written with [update_config_file] is the one [load_config]
    reads back: for a key that is not empty, holds no ['='], newline or
    NUL, does not begin with ['#'] and is not [MODEL], a value without
    newline or NUL, both together shorter than 255 bytes, and a file that
    is absent or of fewer than 99 lines, the environment variable has the
    value after the file is loaded, whatever else the file holds; for
    [VERBOSE] the verbosity is the number in the value. *)
Theorem setting_round_trip (key value : bytes) (old : option bytes)
  (st : settings) :
  key <> [] -> has_char key "=" = false -> hd_error key <> Some "#"%char ->
  strcmp_eq key (lit "MODEL") = false ->
  plain key -> plain value ->
  (List.length key + List.length value < 255)%nat ->
  short_file old ->
  getenv (environ (load_file st (update_config_file key value old))) key
  = Some value
  /\ (key = lit "VERBOSE" ->
      verbose (load_file st (update_config_file key value old))
      = atoi value).
Proof.
  intros H1 H2 H3 H4 H5 H6 H7 H8.
  exact (update_then_load key value H1 H2 H3 H4 H5 H6 H7 old st H8).
Qed.

Lemma setting_round_trip_witness :
  getenv
    (environ
       (load_file Cases.unset
          (update_config_file (lit "AI_PROVIDER") (lit "openrouter")
             (Some Cases.aweshrc))))
    (lit "AI_PROVIDER")
  = Some (lit "openrouter")
  /\ (lit "AI_PROVIDER" = lit "VERBOSE" ->
      verbose
        (load_file Cases.unset
           (update_config_file (lit "AI_PROVIDER") (lit "openrouter")
              (Some Cases.aweshrc)))
      = atoi (lit "openrouter")).
Proof.
  apply (setting_round_trip (lit "AI_PROVIDER") (lit "openrouter")
           (Some Cases.aweshrc) Cases.unset).
  - compute; discriminate.
  - reflexivity.
  - compute; discriminate.
  - reflexivity.
  - repeat constructor; discriminate.
  - repeat constructor; discriminate.
  - apply Nat.ltb_lt; reflexivity.
  - apply Nat.ltb_lt; reflexivity.
Defined.

(** X17.  A configuration file too long for [update_config_file] loses a new
    setting: when [fgets] cuts the file into 99 pieces or more and none of
    the first 99 is a line for the key, the file is written back as these
    99 pieces, each cut at its newline, without the assignment; what
    followed them is gone as well. *)
Theorem long_file_loses_setting (key value : bytes) (f : bytes) :
  (99 <= List.length (file_chunks f))%nat ->
  existsb (key_line key) (map chomp (firstn 99 (file_chunks f))) = false ->
  update_config_file key value (Some f)
  = List.concat (map (fun ch => chomp ch ++ [LF]) (firstn 99 (file_chunks f))).
Proof.
  intros Hl Hk. unfold update_config_file, updated_lines.
  rewrite Hk. cbn [negb andb].
  assert (L : (List.length
                 (map (update_line key value)
                    (map chomp (firstn 99 (file_chunks f)))) <? 99)%nat
              = false).
  { apply Nat.ltb_ge. rewrite !length_map, length_firstn. lia. }
  rewrite L.
  assert (U : map (update_line key value)
                (map chomp (firstn 99 (file_chunks f)))
              = map chomp (firstn 99 (file_chunks f))).
  { rewrite <- (map_id (map chomp (firstn 99 (file_chunks f)))) at 2.
    apply map_ext_in. intros l I. unfold update_line.
    destruct (key_line key l) eqn:K; [|reflexivity].
    assert (existsb (key_line key) (map chomp (firstn 99 (file_chunks f)))
            = true) by (apply existsb_exists; now exists l).
    congruence. }
  rewrite U, map_map. reflexivity.
Qed.

Lemma long_file_loses_setting_witness :
  update_config_file (lit "VERBOSE") (lit "2") (Some Cases.long_aweshrc)
  = List.concat
      (map (fun ch => chomp ch ++ [LF])
         (firstn 99 (file_chunks Cases.long_aweshrc))).
Proof.
  apply (long_file_loses_setting (lit "VERBOSE") (lit "2")
           Cases.long_aweshrc).
  - apply Nat.leb_le. vm_compute. reflexivity.
  - vm_compute. reflexivity.
Defined.

Lemma strcmp_eq_neq (a b : bytes) : strcmp_eq a b = false -> a <> b.
Proof.
  intros H ->. unfold strcmp_eq in H. rewrite bytes_eqb_refl in H.
  discriminate.
Qed.

Lemma load_parsed_model (st : settings) (line : bytes) :
  getenv (environ (load_parsed st line)) (lit "MODEL")
  = getenv (environ st) (lit "MODEL").
Proof.
  unfold load_parsed.
  destruct line as [|c line]; [reflexivity|].
  destruct (Ascii.eqb c "#"); [reflexivity|].
  destruct (split_equals (c :: line)) as [[k v]|]; [|reflexivity].
  cbn [environ].
  destruct (strcmp_eq k (lit "MODEL")) eqn:E; [reflexivity|].
  apply setenv_other. intros <-. unfold strcmp_eq in E.
  rewrite bytes_eqb_refl in E. discriminate.
Qed.

Lemma load_file_model (st : settings) (f : bytes) :
  getenv (environ (load_file st f)) (lit "MODEL")
  = getenv (environ st) (lit "MODEL").
Proof.
  unfold load_file. revert st.
  induction (file_chunks f) as [|ch chs IH]; intros st; [reflexivity|].
  cbn [fold_left]. rewrite IH. apply load_parsed_model.
Qed.

(** X18.  The model cannot be configured in a file.  [load_config] never
    takes [MODEL] from [~/.aweshrc] or [~/.awesh_config.ini]: a value
    found in the environment is kept, and otherwise the model is one of
    the two defaults, whatever the files hold. *)
Theorem model_is_not_read_from_file (aweshrc ini : option bytes)
  (st : settings) :
  getenv (environ (load_config aweshrc ini st)) (lit "MODEL")
  = match getenv (environ st) (lit "MODEL") with
    | Some m => Some m
    | None =>
        if strcmp_eq
             match getenv (environ (load_config aweshrc ini st))
                     (lit "AI_PROVIDER") with
             | Some p => p
             | None => lit "openai"
             end (lit "openrouter")
        then Some (lit "claude-sonnet") else Some (lit "gpt-5")
    end.
Proof.
  unfold load_config.
  set (st1 := match aweshrc with
              | Some f => load_file st f
              | None => match ini with
                        | Some f => load_file st f
                        | None => st
                        end
              end).
  assert (M : getenv (environ st1) (lit "MODEL")
              = getenv (environ st) (lit "MODEL")).
  { unfold st1. destruct aweshrc as [f|]; [apply load_file_model|].
    destruct ini as [f|]; [apply load_file_model | reflexivity]. }
  rewrite <- M.
  destruct (getenv (environ st1) (lit "MODEL")) as [m|] eqn:E.
  - exact E.
  - cbn [environ].
    rewrite (setenv_other (lit "MODEL") _ _ (lit "AI_PROVIDER"))
      by (compute; discriminate).
    rewrite setenv_same by (compute; first [discriminate | reflexivity]).
    destruct (strcmp_eq _ (lit "openrouter")); reflexivity.
Qed.

(** *** The two readers of [~/.aweshrc] *)

Lemma readers_agree_step (s1 s2 : settings) (line k : bytes) :
  strcmp_eq k (lit "MODEL") = false ->
  verbose s1 = verbose s2 ->
  getenv (environ s1) k = getenv (environ s2) k ->
  verbose (agent_parsed s1 line) = verbose (load_parsed s2 line)
  /\ getenv (environ (agent_parsed s1 line)) k
     = getenv (environ (load_parsed s2 line)) k.
Proof.
  intros Hk Hv He. unfold agent_parsed, load_parsed.
  destruct line as [|c line]; [now split|].
  destruct (Ascii.eqb c "#"); [now split|].
  destruct (split_equals (c :: line)) as [[key v]|]; [|now split].
  cbn [verbose environ]. split; [now rewrite Hv|].
  destruct (strcmp_eq key (lit "MODEL")) eqn:M.
  - apply bytes_eqb_eq in M. subst key.
    rewrite setenv_other; [exact He | now apply strcmp_eq_neq].
  - unfold setenv, getenv in *. destruct key as [|x key]; [exact He|].
    destruct (has_char (x :: key) "="); [exact He|].
    destruct (bytes_eqb k (x :: key)); [reflexivity | exact He].
Qed.

Lemma readers_agree (chunks : list bytes) (k : bytes) :
  strcmp_eq k (lit "MODEL") = false ->
  forall s1 s2,
    verbose s1 = verbose s2 ->
    getenv (environ s1) k = getenv (environ s2) k ->
    verbose (fold_left (fun st ch => agent_parsed st (chomp ch)) chunks s1)
    = verbose (fold_left load_line chunks s2)
    /\ getenv
         (environ
            (fold_left (fun st ch => agent_parsed st (chomp ch)) chunks s1)) k
       = getenv (environ (fold_left load_line chunks s2)) k.
Proof.
  intros Hk. induction chunks as [|ch chunks IH]; intros s1 s2 Hv He;
    [now split|].
  cbn [fold_left]. unfold load_line at 2 4.
  destruct (readers_agree_step s1 s2 (chomp ch) k Hk Hv He) as [V E].
  now apply IH.
Qed.

(** X19.  The security agent and the frontend read the same file the same
    way: the verbosity the agent returns is the one the frontend ends
    with, and every variable other than [MODEL] is exported with the same
    value by both. *)
Theorem agent_reads_what_frontend_reads (f : bytes) (st : settings)
  (k : bytes) :
  strcmp_eq k (lit "MODEL") = false ->
  fst (read_config_and_set_env true (Some f) st) = verbose (load_file st f)
  /\ getenv (environ (snd (read_config_and_set_env true (Some f) st))) k
     = getenv (environ (load_file st f)) k.
Proof.
  intros Hk. unfold read_config_and_set_env, load_file. cbn [negb fst snd].
  now apply readers_agree.
Qed.

Lemma agent_reads_what_frontend_reads_witness :
  fst (read_config_and_set_env true (Some Cases.aweshrc) Cases.unset)
  = verbose (load_file Cases.unset Cases.aweshrc)
  /\ getenv
       (environ
          (snd (read_config_and_set_env true (Some Cases.aweshrc)
                  Cases.unset)))
       (lit "AI_PROVIDER")
     = getenv (environ (load_file Cases.unset Cases.aweshrc))
         (lit "AI_PROVIDER").
Proof.
  apply (agent_reads_what_frontend_reads Cases.aweshrc Cases.unset
           (lit "AI_PROVIDER")).
  reflexivity.
Defined.

(** ** Control commands *)

Import Control.

Lemma verbose_commands (cmd : bytes) (level : Z) :
  In (SetVerbose level) (handle_awesh_command cmd) ->
  exists v : string,
    handle_awesh_command cmd = set_verbose v level
    /\ atoi (lit v) = level
    /\ (v = "0" \/ v = "1" \/ v = "2")%string.
Proof.
  unfold handle_awesh_command.
  repeat match goal with
         | |- context [if ?b then _ else _] => destruct b
         end;
    simpl; intros H;
    repeat (destruct H as [H|H]; [try discriminate H|]);
    try contradiction;
    injection H as <-;
    first [ exists "0"%string; split; [reflexivity|]; split; [reflexivity | tauto]
          | exists "1"%string; split; [reflexivity|]; split; [reflexivity | tauto]
          | exists "2"%string; split; [reflexivity|]; split; [reflexivity | tauto] ].
Qed.

(** X20.  A verbosity set with [awev] outlives the session: the command sets
    the level in the running frontend and writes it to [~/.aweshrc], so
    that, for a file that was absent or of fewer than 99 lines, both the
    frontend and the security agent start with that level the next time
    they read the file. *)
Theorem verbosity_survives_restart (cmd : bytes) (level : Z)
  (st st0 : settings) (old : option bytes) :
  In (SetVerbose level) (handle_awesh_command cmd) ->
  short_file old ->
  verbose (fst (run_command cmd (st, old))) = level
  /\ exists f,
       snd (run_command cmd (st, old)) = Some f
       /\ verbose (load_file st0 f) = level
       /\ fst (read_config_and_set_env true (Some f) st0) = level.
Proof.
  intros H Hs. destruct (verbose_commands cmd level H) as (v & E & A & V).
  unfold run_command. rewrite E. cbn [set_verbose fold_left apply_effect fst snd verbose].
  split; [reflexivity|].
  eexists; split; [reflexivity|].
  assert (L : verbose (load_file st0 (update_config_file (lit "VERBOSE") (lit v) old))
              = level).
  { rewrite <- A.
    refine (proj2 (update_then_load (lit "VERBOSE") (lit v) _ _ _ _ _ _ _
                     old st0 Hs) eq_refl);
      try discriminate; try reflexivity;
      destruct V as [-> | [-> | ->]];
      try reflexivity; try (repeat constructor; discriminate);
      apply Nat.ltb_lt; reflexivity. }
  split; [exact L|].
  rewrite <- L. unfold read_config_and_set_env, load_file. cbn [negb fst].
  apply (readers_agree _ (lit "VERBOSE")); reflexivity.
Qed.

Lemma verbosity_survives_restart_witness :
  verbose (fst (run_command (lit "awev 2") (Cases.unset, Some Cases.aweshrc)))
  = 2%Z
  /\ exists f,
       snd (run_command (lit "awev 2") (Cases.unset, Some Cases.aweshrc))
       = Some f
       /\ verbose (load_file Cases.unset f) = 2%Z
       /\ fst (read_config_and_set_env true (Some f) Cases.unset) = 2%Z.
Proof.
  apply (verbosity_survives_restart (lit "awev 2") 2 Cases.unset Cases.unset
           (Some Cases.aweshrc)).
  - vm_compute. right; right; left; reflexivity.
  - apply Nat.ltb_lt; reflexivity.
Defined.

(** ** Supervision of the children *)

Import Supervisor.

Lemma agent_forks_app (a b : list sup_op) :
  agent_forks (a ++ b) = (agent_forks a + agent_forks b)%nat.
Proof. unfold agent_forks. now rewrite filter_app, length_app. Qed.

(** What [restart_sandbox] leaves alone, and what it closes. *)
Lemma restart_sandbox_frame (w : world) (st : awesh_state) :
  let '(_, st', ops) := restart_sandbox w st in
  backend_pid st' = backend_pid st
  /\ security_agent_pid st' = security_agent_pid st
  /\ ai_status st' = ai_status st
  /\ agent_forks ops = 0%nat
  /\ (forall fd, In (CloseSocket fd) ops ->
        (fd = sandbox_socket_fd st /\ fd <> (-1)%Z)
        \/ (fd = socket_result w /\ bind_listen_ok w = false))
  /\ (sandbox_pid st' = sandbox_pid st
      \/ (sandbox_pid st' = sandbox_fork w /\ (0 < sandbox_fork w)%Z
          /\ In ForkSandbox ops
          /\ sandbox_socket_fd st' = socket_result w
          /\ (0 <= socket_result w)%Z /\ bind_listen_ok w = true)).
Proof.
  unfold restart_sandbox, cleanup_sandbox_socket, init_sandbox_socket.
  destruct (Z.eqb_spec (sandbox_socket_fd st) (-1)) as [E|E];
    destruct (home w); cbn [negb];
    try destruct (Z.ltb_spec (socket_result w) 0);
    try destruct (bind_listen_ok w) eqn:B;
    cbn [negb Z.eqb];
    try destruct (Z.ltb_spec 0 (sandbox_fork w));
    cbn [backend_pid security_agent_pid sandbox_pid ai_status
         sandbox_socket_fd app];
    (repeat split; try reflexivity;
     [ intros fd HI; simpl in HI;
       repeat (destruct HI as [HI|HI]; [try discriminate HI|]);
       try contradiction;
       try (injection HI as <-); auto
     | first [ now left
             | right; repeat split; auto; try lia; simpl; tauto ] ]).
Qed.

(** The fields of the state after one health check. *)
Lemma check_frame (w : world) (st : awesh_state) :
  let dead pid := (0 <? pid)%Z && negb (is_process_running w pid) in
  let st' := fst (check_child_process_health w st) in
  let ops := snd (check_child_process_health w st) in
  backend_pid st'
  = (if dead (backend_pid st) then (-1)%Z else backend_pid st)
  /\ ai_status st'
     = (if dead (backend_pid st) then AI_FAILED else ai_status st)
  /\ security_agent_pid st'
     = (if dead (security_agent_pid st) then (-1)%Z
        else security_agent_pid st)
  /\ agent_forks ops
     = (if (security_agent_pid st' <=? 0)%Z then 1%nat else 0%nat).
Proof.
  cbv zeta. unfold check_child_process_health.
  set (d1 := (0 <? backend_pid st)%Z
             && negb (is_process_running w (backend_pid st))).
  set (st1 := if d1 then _ else st).
  assert (S1 : security_agent_pid st1 = security_agent_pid st
               /\ sandbox_pid st1 = sandbox_pid st)
    by (unfold st1; destruct d1; split; reflexivity).
  destruct S1 as [S1 S1'].
  assert (B1 : backend_pid st1 = (if d1 then (-1)%Z else backend_pid st)
               /\ ai_status st1 = (if d1 then AI_FAILED else ai_status st))
    by (unfold st1; destruct d1; split; reflexivity).
  clearbody st1. rewrite <- S1. clear S1 S1'.
  set (d2 := (0 <? security_agent_pid st1)%Z
             && negb (is_process_running w (security_agent_pid st1))).
  set (st2 := if d2 then _ else st1).
  assert (B2 : backend_pid st2 = backend_pid st1
               /\ ai_status st2 = ai_status st1
               /\ security_agent_pid st2
                  = (if d2 then (-1)%Z else security_agent_pid st1))
    by (unfold st2; destruct d2; repeat split; reflexivity).
  clearbody st2.
  set (d3 := (0 <? sandbox_pid st2)%Z
             && negb (is_process_running w (sandbox_pid st2))).
  set (st3 := if d3 then _ else st2).
  assert (B3 : backend_pid st3 = backend_pid st2
               /\ ai_status st3 = ai_status st2
               /\ security_agent_pid st3 = security_agent_pid st2)
    by (unfold st3; destruct d3; repeat split; reflexivity).
  clearbody st3.
  unfold restart_security_agent.
  assert (R : forall st4 ops4,
             st4 = st3 ->
             agent_forks ops4
             = (if (security_agent_pid st3 <=? 0)%Z then 1%nat else 0%nat) ->
             let r := (let '(st5, ops5) :=
                         if (sandbox_pid st4 <=? 0)%Z
                         then let '(_, st', ops) := restart_sandbox w st4 in
                              (st', ops)
                         else (st4, []) in
                       (st5, ops4 ++ ops5)) in
             backend_pid (fst r) = backend_pid st3
             /\ ai_status (fst r) = ai_status st3
             /\ security_agent_pid (fst r) = security_agent_pid st3
             /\ agent_forks (snd r)
                = (if (security_agent_pid st3 <=? 0)%Z then 1%nat
                   else 0%nat)).
  { intros st4 ops4 -> F. cbv zeta.
    destruct (sandbox_pid st3 <=? 0)%Z.
    - pose proof (restart_sandbox_frame w st3) as P.
      destruct (restart_sandbox w st3) as [[rc st'] ops].
      destruct P as (P1 & P2 & P3 & P4 & _). cbn [fst snd].
      rewrite agent_forks_app, P4, F. repeat split; auto; lia.
    - cbn [fst snd]. rewrite app_nil_r. auto. }
  destruct B1 as [B1 B1']. destruct B2 as (B2 & B2' & B2'').
  destruct B3 as (B3 & B3' & B3'').
  destruct (security_agent_pid st3 <=? 0)%Z eqn:A.
  - destruct (R st3 [ForkSecurityAgent] eq_refl) as (R1 & R2 & R3 & R4);
      [reflexivity|].
    cbv zeta in *. rewrite R1, R2, R3, R4, A. repeat split; congruence.
  - destruct (R st3 [] eq_refl) as (R1 & R2 & R3 & R4);
      [reflexivity|].
    cbv zeta in *. rewrite R1, R2, R3, R4, A. repeat split; congruence.
Qed.

Lemma check_frame_idle (w : world) (st : awesh_state) :
  (backend_pid st <= 0)%Z ->
  backend_pid (fst (check_child_process_health w st)) = backend_pid st
  /\ ai_status (fst (check_child_process_health w st)) = ai_status st.
Proof.
  intros H. destruct (check_frame w st) as (B & A & _). cbv zeta in *.
  destruct (Z.ltb_spec 0 (backend_pid st)); [lia|].
  cbn [andb] in *. now split.
Qed.

Lemma health_checks_idle (ws : list world) (st : awesh_state) :
  (backend_pid st <= 0)%Z ->
  backend_pid (fst (health_checks ws st)) = backend_pid st
  /\ ai_status (fst (health_checks ws st)) = ai_status st.
Proof.
  revert st; induction ws as [|w ws IH]; intros st H; [now split|].
  cbn [health_checks].
  destruct (check_frame_idle w st H) as [B A].
  destruct (check_child_process_health w st) as [st1 ops1]. cbn [fst] in *.
  specialize (IH st1 ltac:(lia)).
  destruct (health_checks ws st1) as [st2 ops2]. cbn [fst] in *.
  destruct IH; split; congruence.
Qed.

(** X21.  The health check never restarts the backend.  Once a check finds the
    backend dead, its pid is -1 and the AI status is [AI_FAILED], and
    every later check leaves them so, whatever happens to the other
    children. *)
Theorem backend_is_never_restarted (w : world) (ws : list world)
  (st : awesh_state) :
  (0 < backend_pid st)%Z -> alive w (backend_pid st) = false ->
  backend_pid (fst (health_checks (w :: ws) st)) = (-1)%Z
  /\ ai_status (fst (health_checks (w :: ws) st)) = AI_FAILED.
Proof.
  intros Hp Hd. cbn [health_checks].
  destruct (check_frame w st) as (B & A & _). cbv zeta in *.
  unfold is_process_running in *.
  destruct (Z.ltb_spec 0 (backend_pid st)); [|lia].
  destruct (Z.leb_spec (backend_pid st) 0); [lia|].
  rewrite Hd in *. cbn [andb negb] in *.
  destruct (check_child_process_health w st) as [st1 ops1]. cbn [fst] in *.
  destruct (health_checks_idle ws st1 ltac:(lia)) as [B' A'].
  destruct (health_checks ws st1) as [st2 ops2]. cbn [fst] in *.
  split; congruence.
Qed.

Lemma backend_is_never_restarted_witness :
  backend_pid
    (fst (health_checks
            [Cases.check_with 4001 true; Cases.check_with 0 true]
            Cases.all_started)) = (-1)%Z
  /\ ai_status
       (fst (health_checks
               [Cases.check_with 4001 true; Cases.check_with 0 true]
               Cases.all_started)) = AI_FAILED.
Proof.
  apply (backend_is_never_restarted (Cases.check_with 4001 true)
           [Cases.check_with 0 true] Cases.all_started); reflexivity.
Defined.

(** X22.  A security agent whose pid is not recorded is started again at
    every health check.  [restart_security_agent] does not store the pid
    of the process it forks, so from a state without agent pid each check
    forks one more agent, also when all the forks succeed and all the
    processes stay alive, and the pid is never set. *)
Theorem unrecorded_agent_is_forked_again (ws : list world)
  (st : awesh_state) :
  (security_agent_pid st <= 0)%Z ->
  agent_forks (snd (health_checks ws st)) = List.length ws
  /\ security_agent_pid (fst (health_checks ws st)) = security_agent_pid st.
Proof.
  revert st; induction ws as [|w ws IH]; intros st H; [now split|].
  cbn [health_checks].
  destruct (check_frame w st) as (_ & _ & S & F). cbv zeta in *.
  destruct (Z.ltb_spec 0 (security_agent_pid st)); [lia|].
  cbn [andb] in S. rewrite S in F.
  destruct (Z.leb_spec (security_agent_pid st) 0); [|lia].
  destruct (check_child_process_health w st) as [st1 ops1].
  cbn [fst snd] in *.
  specialize (IH st1 ltac:(lia)).
  destruct (health_checks ws st1) as [st2 ops2]. cbn [fst snd] in *.
  rewrite agent_forks_app, F. destruct IH as [-> ->].
  split; [reflexivity | exact S].
Qed.

Lemma unrecorded_agent_is_forked_again_witness :
  agent_forks
    (snd (health_checks (repeat (Cases.check_with 0 true) 3)
            Cases.agent_not_started)) = 3%nat
  /\ security_agent_pid
       (fst (health_checks (repeat (Cases.check_with 0 true) 3)
               Cases.agent_not_started)) = (-1)%Z.
Proof.
  apply (unrecorded_agent_is_forked_again
           (repeat (Cases.check_with 0 true) 3) Cases.agent_not_started).
  discriminate.
Defined.

(** What a health check does about the sandbox. *)
Lemma check_sandbox (w : world) (st : awesh_state) :
  let dead := (0 <? sandbox_pid st)%Z
              && negb (is_process_running w (sandbox_pid st)) in
  let st' := fst (check_child_process_health w st) in
  let ops := snd (check_child_process_health w st) in
  (forall fd, In (CloseSocket fd) ops ->
     (dead = false /\ fd = sandbox_socket_fd st /\ fd <> (-1)%Z)
     \/ (fd = socket_result w /\ bind_listen_ok w = false))
  /\ ((0 < sandbox_pid st')%Z ->
      (sandbox_pid st' = sandbox_pid st /\ dead = false)
      \/ (sandbox_pid st' = sandbox_fork w
          /\ In ForkSandbox ops
          /\ sandbox_socket_fd st' = socket_result w
          /\ (0 <= socket_result w)%Z /\ bind_listen_ok w = true)).
Proof.
  cbv zeta. unfold check_child_process_health.
  set (st1 := if (0 <? backend_pid st)%Z && _ then _ else st).
  assert (S1 : sandbox_pid st1 = sandbox_pid st
               /\ sandbox_socket_fd st1 = sandbox_socket_fd st)
    by (unfold st1; destruct (_ && _); split; reflexivity).
  clearbody st1. destruct S1 as [S1 S1']. rewrite <- S1, <- S1'.
  set (st2 := if (0 <? security_agent_pid st1)%Z && _ then _ else st1).
  assert (S2 : sandbox_pid st2 = sandbox_pid st1
               /\ sandbox_socket_fd st2 = sandbox_socket_fd st1)
    by (unfold st2; destruct (_ && _); split; reflexivity).
  clearbody st2. destruct S2 as [S2 S2']. rewrite <- S2, <- S2'.
  clear S1 S1' S2 S2' st1 st.
  set (dead := (0 <? sandbox_pid st2)%Z
               && negb (is_process_running w (sandbox_pid st2))).
  set (st3 := if dead then _ else st2).
  assert (S3 : (dead = true /\ sandbox_pid st3 = (-1)%Z
                /\ sandbox_socket_fd st3 = (-1)%Z)
               \/ (dead = false /\ st3 = st2))
    by (unfold st3; destruct dead; [left | right]; repeat split).
  clearbody st3.
  unfold restart_security_agent.
  assert (R : forall ops4 : list sup_op,
             (forall fd, ~ In (CloseSocket fd) ops4) ->
             let r := (let '(st5, ops5) :=
                         if (sandbox_pid st3 <=? 0)%Z
                         then let '(_, st', ops) := restart_sandbox w st3 in
                              (st', ops)
                         else (st3, []) in
                       (st5, ops4 ++ ops5)) in
             (forall fd, In (CloseSocket fd) (snd r) ->
                (dead = false /\ fd = sandbox_socket_fd st2 /\ fd <> (-1)%Z)
                \/ (fd = socket_result w /\ bind_listen_ok w = false))
             /\ ((0 < sandbox_pid (fst r))%Z ->
                 (sandbox_pid (fst r) = sandbox_pid st2 /\ dead = false)
                 \/ (sandbox_pid (fst r) = sandbox_fork w
                     /\ In ForkSandbox (snd r)
                     /\ sandbox_socket_fd (fst r) = socket_result w
                     /\ (0 <= socket_result w)%Z
                     /\ bind_listen_ok w = true))).
  { intros ops4 N. cbv zeta.
    destruct (Z.leb_spec (sandbox_pid st3) 0) as [L|L].
    - pose proof (restart_sandbox_frame w st3) as P.
      destruct (restart_sandbox w st3) as [[rc st'] ops].
      destruct P as (_ & _ & _ & _ & C & P). cbn [fst snd]. split.
      + intros fd I. apply in_app_or in I as [I|I]; [now apply N in I|].
        destruct (C fd I) as [[E1 E2]|E]; [|now right].
        destruct S3 as [(_ & _ & S3)|[D ->]]; [congruence|].
        left. auto.
      + intros Hpos. destruct P as [P|(P1 & P2 & P3 & P4)]; [lia|].
        right. repeat split; try tauto.
        apply in_or_app. now right.
    - cbn [fst snd]. rewrite app_nil_r. split.
      + intros fd I. now apply N in I.
      + intros _. destruct S3 as [(_ & S3 & _)|[D ->]]; [lia|].
        left. now split. }
  destruct (security_agent_pid st3 <=? 0)%Z.
  - apply (R [ForkSecurityAgent]).
    intros fd [I|[]]. discriminate I.
  - apply (R []). intros fd [].
Qed.

(** X23.  When the sandbox is found dead, the listening socket the frontend
    held for it is never closed: the check forgets the descriptor, and the
    only descriptor the restart may close is the one of the new socket,
    when the bind or the listen fails. *)
Theorem dead_sandbox_socket_is_not_closed (w : world) (st : awesh_state)
  (fd : Z) :
  (0 < sandbox_pid st)%Z -> alive w (sandbox_pid st) = false ->
  In (CloseSocket fd) (snd (check_child_process_health w st)) ->
  fd = socket_result w /\ bind_listen_ok w = false.
Proof.
  intros Hp Hd I.
  destruct (check_sandbox w st) as [C _]. cbv zeta in C.
  destruct (C fd I) as [(D & _)|E]; [|exact E].
  unfold is_process_running in D.
  destruct (Z.ltb_spec 0 (sandbox_pid st)); [|lia].
  destruct (Z.leb_spec (sandbox_pid st) 0); [lia|].
  rewrite Hd in D. discriminate D.
Qed.

Lemma dead_sandbox_socket_is_not_closed_witness :
  snd (check_child_process_health (Cases.check_with 4003 false)
         Cases.all_started)
  = [UnlinkSandboxSocket; UnlinkSandboxSocket; CloseSocket 7]
  /\ 7%Z = socket_result (Cases.check_with 4003 false)
  /\ bind_listen_ok (Cases.check_with 4003 false) = false.
Proof.
  split; [reflexivity|].
  apply (dead_sandbox_socket_is_not_closed (Cases.check_with 4003 false)
           Cases.all_started 7).
  - reflexivity.
  - reflexivity.
  - vm_compute. right; right; left; reflexivity.
Defined.



(** ** Waiting for the backend *)

Import Backend.

Lemma wait_on_closed_socket (env : nat -> wait_event) (fuel : nat) :
  forall i start_time last_dot_time,
    (forall j, (i <= j)%nat -> env j = Readable []) ->
    wait_for_reply env fuel i start_time last_dot_time = None.
Proof.
  induction fuel as [|fuel IH]; intros i s l H; [reflexivity|].
  cbn [wait_for_reply]. rewrite (H i (Nat.le_refl i)).
  cbn [firstn]. apply IH. intros j Hj. apply H. lia.
Qed.

(** X25.  The wait for the backend has no time-out of its own while the socket
    is readable: the five minutes are checked only when [select] times
    out.  Once every [select] reports the socket readable and [recv]
    delivers nothing, as after the backend has closed the connection, the
    loop never returns, however long it runs. *)
Theorem closed_backend_never_answers (env : nat -> wait_event) (n : nat)
  (fuel : nat) (start_time last_dot_time : Z) :
  (forall j, (n <= j)%nat -> env j = Readable []) ->
  wait_for_reply env fuel n start_time last_dot_time = None.
Proof. intros H. now apply wait_on_closed_socket. Qed.

Lemma closed_backend_never_answers_witness :
  wait_for_reply Cases.closed_socket 1000 0 0 0 = None.
Proof.
  apply (closed_backend_never_answers Cases.closed_socket 0 1000 0 0).
  intros j _. reflexivity.
Defined.

Lemma repeat_dot_cons (n : nat) (final : shown) :
  Dot :: repeat Dot n ++ [final] = repeat Dot (S n) ++ [final].
Proof. reflexivity. Qed.

(** The dots and what ends them: [5 * n] stays below what is left of
    the five minutes since the last dot. *)
Lemma wait_output (env : nat -> wait_event) (fuel : nat) :
  forall i start_time last_dot_time l,
    (0 <= last_dot_time - start_time <= 299)%Z ->
    wait_for_reply env fuel i start_time last_dot_time = Some l ->
    exists n final,
      l = repeat Dot n ++ [final] /\ final <> Dot
      /\ (5 * Z.of_nat n <= 304 - (last_dot_time - start_time))%Z.
Proof.
  induction fuel as [|fuel IH]; intros i s t l Hd; [discriminate|].
  cbn [wait_for_reply].
  destruct (env i) as [received|now|].
  - destruct (firstn (Z.to_nat 65535) received) as [|c r].
    + now apply IH.
    + intros [= <-]. exists 0%nat, (Response (cstr (c :: r))).
      split; [reflexivity|]. split; [discriminate | lia].
  - unfold MAX_WAIT_SECONDS, DOT_INTERVAL_SECONDS.
    destruct (Z.leb_spec 300 (now - s)) as [Ht|Ht].
    + intros [= <-].
      destruct (Z.leb_spec 5 (now - t)).
      * exists 1%nat, TimeoutNotice.
        split; [reflexivity|]. split; [discriminate | lia].
      * exists 0%nat, TimeoutNotice.
        split; [reflexivity|]. split; [discriminate | lia].
    + destruct (Z.leb_spec 5 (now - t)) as [Hdot|Hdot].
      * destruct (wait_for_reply env fuel (S i) s now) as [l'|] eqn:E;
          [|discriminate].
        intros [= <-].
        destruct (IH (S i) s now l' ltac:(lia) E) as (n & final & -> & F & B).
        exists (S n), final. split; [reflexivity|].
        split; [exact F | lia].
      * destruct (wait_for_reply env fuel (S i) s t) as [l'|] eqn:E;
          [|discriminate].
        intros [= <-]. cbn [app]. now apply (IH (S i) s t).
  - intros [= <-]. exists 0%nat, ErrorNotice.
    split; [reflexivity|]. split; [discriminate | lia].
Qed.

(** X26.  What the wait prints when it returns: dots, at most sixty of them
    whatever the clock says, and then exactly one of the answer, the
    time-out notice and the error notice. *)
Theorem at_most_sixty_dots (env : nat -> wait_event) (fuel : nat)
  (start_time : Z) (l : list shown) :
  wait_for_reply env fuel 0 start_time start_time = Some l ->
  exists n final,
    l = repeat Dot n ++ [final] /\ final <> Dot /\ (n <= 60)%nat.
Proof.
  intros H.
  destruct (wait_output env fuel 0 start_time start_time l ltac:(lia) H)
    as (n & final & E & F & B).
  exists n, final. split; [exact E|]. split; [exact F | lia].
Qed.

Lemma at_most_sixty_dots_witness :
  wait_for_reply Cases.slow_clock 4 0 1000 1000
  = Some [Dot; Dot; Dot; TimeoutNotice]
  /\ exists n final,
       [Dot; Dot; Dot; TimeoutNotice] = repeat Dot n ++ [final]
       /\ final <> Dot /\ (n <= 60)%nat.
Proof.
  split; [vm_compute; reflexivity|].
  apply (at_most_sixty_dots Cases.slow_clock 4 1000).
  vm_compute. reflexivity.
Defined.

(** ** Special codes on their way to the dispatcher *)

Lemma contains_firstn (n : nat) (s w : bytes) :
  contains (firstn n s) w = true -> contains s w = true.
Proof.
  intros H. rewrite <- (firstn_skipn n s). now apply contains_app_r.
Qed.

Lemma record_shows_no_marker (code : Z) (out : bytes) :
  contains out (lit "INTERACTIVE_COMMAND") = false ->
  contains
    (lit "EXIT_CODE:" ++ print_int code ++ [LF]
     ++ lit "STDOUT_LEN:" ++ print_unsigned (len out) ++ [LF]
     ++ lit "STDOUT:" ++ out ++ [LF]
     ++ lit "STDERR_LEN:" ++ print_unsigned (len (cstr [])) ++ [LF]
     ++ lit "STDERR:" ++ cstr [] ++ [LF])
    (lit "INTERACTIVE_COMMAND") = false.
Proof.
  unfold contains. intros H.
  destruct (strstr out (lit "INTERACTIVE_COMMAND")) eqn:E; [discriminate|].
  rewrite (strstr_skip_lit (lit "EXIT_CODE:")) by reflexivity.
  skip_digits "I"%char.
  rewrite (strstr_skip_lit [LF]) by reflexivity.
  rewrite (strstr_skip_lit (lit "STDOUT_LEN:")) by reflexivity.
  skip_digits "I"%char.
  rewrite (strstr_skip_lit [LF]) by reflexivity.
  rewrite (strstr_skip_lit (lit "STDOUT:")) by reflexivity.
  rewrite (strstr_skip_line out);
    [ | discriminate
      | intros I; repeat (destruct I as [I|I]; [discriminate I|]); exact I
      | exact E ].
  vm_compute. reflexivity.
Qed.

Lemma send_to_sandbox_acked (ack region : bytes) :
  ack <> [] -> send_to_sandbox ack region = Some (firstn 4095 (cstr region)).
Proof. destruct ack; [congruence | reflexivity]. Qed.

(** X27.  The special codes of the validator reach the dispatcher unchanged.
    For a record with code -103, -109 or -113 and an output without NUL
    that fits the validator's buffer and does not itself show the text
    [INTERACTIVE_COMMAND], the frontend's verdict is the code, also when
    the record is longer than the 4095 bytes the frontend reads of it. *)
Theorem special_code_reaches_dispatcher (code : Z) (out : bytes) :
  special_code code = true ->
  no_nul out -> (len out < MAX_RESPONSE_LEN - 1)%Z ->
  contains out (lit "INTERACTIVE_COMMAND") = false ->
  test_command_in_sandbox true
    (send_to_sandbox (lit "OK") (write_result_to_mmap code out []))
  = code.
Proof.
  intros Hc Hn Hl Hm.
  assert (R : (- 2 ^ 31 <= code < 2 ^ 31)%Z).
  { unfold special_code in Hc. pow_consts.
    destruct (Z.eqb_spec code (-103)); [lia|].
    destruct (Z.eqb_spec code (-113)); [lia|].
    destruct (Z.eqb_spec code (-109)); [lia | discriminate]. }
  unfold MAX_RESPONSE_LEN in Hl.
  rewrite send_to_sandbox_acked by (compute; discriminate).
  unfold test_command_in_sandbox. cbn [negb].
  rewrite write_result_to_mmap_text
    by (rewrite (cstr_fixed out Hn); change (len (cstr [])) with 0%Z; lia).
  rewrite (cstr_fixed _ (record_no_nul code out [])).
  rewrite (cstr_fixed out Hn).
  unfold verdict_of_response.
  pose proof (record_shows_no_marker code out Hm) as N.
  destruct (contains (firstn 4095 _) (lit "INTERACTIVE_COMMAND")) eqn:C.
  { apply contains_firstn in C. congruence. }
  clear C N.
  assert (P : parse_exit_code
                (firstn 4095
                   (lit "EXIT_CODE:" ++ print_int code ++ [LF]
                    ++ lit "STDOUT_LEN:" ++ print_unsigned (len out) ++ [LF]
                    ++ lit "STDOUT:" ++ out ++ [LF]
                    ++ lit "STDERR_LEN:" ++ print_unsigned (len (cstr []))
                    ++ [LF] ++ lit "STDERR:" ++ cstr [] ++ [LF]))
              = code).
  { pose proof (print_int_length code) as L.
    rewrite (app_assoc (lit "EXIT_CODE:")).
    rewrite (app_assoc (lit "EXIT_CODE:" ++ print_int code)).
    rewrite firstn_app.
    rewrite (firstn_all2 (n := 4095)
               ((lit "EXIT_CODE:" ++ print_int code) ++ [LF]))
      by (rewrite !length_app; simpl; lia).
    rewrite <- !app_assoc.
    now apply parse_exit_code_record. }
  rewrite P. fold (special_code code). now rewrite Hc.
Qed.

Lemma special_code_reaches_dispatcher_witness :
  test_command_in_sandbox true
    (send_to_sandbox (lit "OK")
       (write_result_to_mmap (-109) Cases.not_found []))
  = (-109)%Z.
Proof.
  apply (special_code_reaches_dispatcher (-109) Cases.not_found).
  - reflexivity.
  - repeat constructor; discriminate.
  - reflexivity.
  - vm_compute. reflexivity.
Defined.

(** ** Switching the provider *)

Lemma provider_commands (cmd p : bytes) :
  In (UpdateConfig (lit "AI_PROVIDER") p) (handle_awesh_command cmd) ->
  exists name : string,
    p = lit name
    /\ handle_awesh_command cmd = set_provider name
    /\ (name = "openai" \/ name = "openrouter")%string.
Proof.
  unfold handle_awesh_command.
  repeat match goal with
         | |- context [if ?b then _ else _] => destruct b
         end;
    simpl; intros H;
    repeat (destruct H as [H|H]; [try discriminate H|]);
    try contradiction;
    injection H as <-;
    first [ exists "openai"%string; split; [reflexivity|];
            split; [reflexivity | tauto]
          | exists "openrouter"%string; split; [reflexivity|];
            split; [reflexivity | tauto] ].
Qed.

(** X28.  A switch of provider with [awea] takes effect at the next start:
    the running frontend's settings stay as they are, the provider is
    written to [~/.aweshrc], and, for a file that was absent or of fewer
    than 99 lines, the next [load_config] exports the new provider and,
    when the environment names no model, picks the default model of that
    provider. *)
Theorem provider_switch_applies_at_restart (cmd p : bytes)
  (st st0 : settings) (old ini : option bytes) :
  In (UpdateConfig (lit "AI_PROVIDER") p) (handle_awesh_command cmd) ->
  short_file old ->
  getenv (environ st0) (lit "MODEL") = None ->
  fst (run_command cmd (st, old)) = st
  /\ exists f,
       snd (run_command cmd (st, old)) = Some f
       /\ getenv (environ (load_config (Some f) ini st0)) (lit "AI_PROVIDER")
          = Some p
       /\ getenv (environ (load_config (Some f) ini st0)) (lit "MODEL")
          = Some (if strcmp_eq p (lit "openrouter")
                  then lit "claude-sonnet" else lit "gpt-5").
Proof.
  intros H Hs Hm.
  destruct (provider_commands cmd p H) as (name & -> & E & V).
  unfold run_command. rewrite E.
  cbn [set_provider fold_left apply_effect fst snd].
  split; [reflexivity|]. eexists; split; [reflexivity|].
  assert (L : getenv
                (environ
                   (load_file st0
                      (update_config_file (lit "AI_PROVIDER") (lit name) old)))
                (lit "AI_PROVIDER") = Some (lit name)).
  { refine (proj1 (update_then_load (lit "AI_PROVIDER") (lit name)
                     _ _ _ _ _ _ _ old st0 Hs));
      try discriminate; try reflexivity;
      destruct V as [-> | ->];
      try reflexivity; try (repeat constructor; discriminate);
      apply Nat.ltb_lt; reflexivity. }
  unfold load_config.
  rewrite load_file_model, Hm. cbn [verbose environ].
  rewrite (setenv_other (lit "MODEL") _ _ (lit "AI_PROVIDER"))
    by (compute; discriminate).
  rewrite setenv_same by (compute; first [discriminate | reflexivity]).
  rewrite L. split; [reflexivity|].
  destruct (strcmp_eq (lit name) (lit "openrouter")); reflexivity.
Qed.

Lemma provider_switch_applies_at_restart_witness :
  fst (run_command (lit "awea openrouter")
         (Cases.unset, Some Cases.aweshrc)) = Cases.unset
  /\ exists f,
       snd (run_command (lit "awea openrouter")
              (Cases.unset, Some Cases.aweshrc)) = Some f
       /\ getenv (environ (load_config (Some f) None Cases.unset))
            (lit "AI_PROVIDER") = Some (lit "openrouter")
       /\ getenv (environ (load_config (Some f) None Cases.unset))
            (lit "MODEL")
          = Some (if strcmp_eq (lit "openrouter") (lit "openrouter")
                  then lit "claude-sonnet" else lit "gpt-5").
Proof.
  apply (provider_switch_applies_at_restart (lit "awea openrouter")
           (lit "openrouter") Cases.unset Cases.unset (Some Cases.aweshrc)
           None).
  - vm_compute. left; reflexivity.
  - apply Nat.ltb_lt; reflexivity.
  - reflexivity.
Defined.

(** X29.  The guard and the interpreter of the control commands agree: a line
    that [is_awesh_command] turns away has no effect in
    [handle_awesh_command], so no setting is changed, written or sent
    behind the guard's back. *)
Theorem control_needs_guard (cmd : bytes) :
  is_awesh_command cmd = false -> handle_awesh_command cmd = [].
Proof.
  unfold is_awesh_command, handle_awesh_command. intros H.
  repeat (apply orb_false_iff in H; destruct H as [H ?]).
  repeat match goal with
         | E : ?b = false |- context [if ?b then _ else _] => rewrite E
         end.
  reflexivity.
Qed.

Lemma control_needs_guard_witness :
  handle_awesh_command (lit "ls -la") = [].
Proof.
  apply (control_needs_guard (lit "ls -la")). reflexivity.
Defined.

(** ** The server loop *)

Import Server.

Lemma handler_keeps_region_ready (fuel : nat) (s : session) (env : pty_env)
  (m m' : mmap_state) (received : bytes) (t : list event) :
  mmap_ready m = true ->
  handle_client_request fuel s env m received = Some (m', t) ->
  mmap_ready m' = true.
Proof.
  intros Hm. unfold handle_client_request.
  destruct (firstn 1023 received); [now intros [= <- _]|].
  destruct (execute_command_in_sandbox _ _ _ _) as [[ops|ops code out err]|];
    [| |discriminate]; unfold do_write_result; rewrite Hm;
    now intros [= <- _].
Qed.

Lemma ipc_answers_app (t1 t2 : list event) (a1 a2 : list (bytes * bytes)) :
  ipc t1 = flat_map answer a1 -> ipc t2 = flat_map answer a2 ->
  ipc (t1 ++ t2) = flat_map answer (a1 ++ a2).
Proof. intros H1 H2. now rewrite ipc_app, flat_map_app, H1, H2. Qed.

Lemma last_cons (x : bytes) (l : list bytes) (d : bytes) :
  last (x :: l) d = last l x.
Proof.
  revert x d; induction l as [|y l IH]; intros x d; [reflexivity|].
  change (last (x :: y :: l) d) with (last (y :: l) d).
  now rewrite (IH y d), (IH y x).
Qed.

(** X30.  The server answers the requests one by one.  Over any sequence of
    connections that are all served, the traffic towards the frontend is
    one record followed by one acknowledgment, [OK] or [ERROR], for each
    connection on which a command arrived, in the order of the
    connections and with nothing in between; at the end the region holds
    the last record written. *)
Theorem each_request_gets_one_answer (fuel : nat) (conns : list connection)
  (m m' : mmap_state) (t : list event) :
  mmap_ready m = true ->
  serve fuel conns m = Some (m', t) ->
  exists answers : list (bytes * bytes),
    ipc t = flat_map answer answers
    /\ List.length answers = List.length (with_command conns)
    /\ Forall (fun a => snd a = lit "OK" \/ snd a = lit "ERROR") answers
    /\ region m' = last (map fst answers) (region m).
Proof.
  revert m m' t; induction conns as [|c conns IH]; intros m m' t Hm; simpl.
  - intros [= <- <-]. exists []. repeat split; constructor.
  - destruct (handle_client_request fuel (conn_session c) (conn_env c) m
                (conn_received c)) as [[m1 t1]|] eqn:E; [|discriminate].
    destruct (serve fuel conns m1) as [[m2 t2]|] eqn:S; [|discriminate].
    intros [= <- <-].
    pose proof (handler_keeps_region_ready _ _ _ _ _ _ _ Hm E) as Hm1.
    destruct (IH m1 m2 t2 Hm1 S) as (ans & I & L & F & R).
    destruct (conn_received c) as [|x r] eqn:Rc.
    + cbn in E. injection E as <- <-.
      exists ans. repeat split; assumption.
    + destruct (handler_writes_then_acks fuel _ _ m m1 (x :: r) t1 Hm
                  ltac:(discriminate) E) as (record & ack & I1 & A & R1).
      exists ((record, ack) :: ans). split; [|split; [|split]].
      * apply (ipc_answers_app t1 t2 [(record, ack)] ans); [|exact I].
        rewrite I1. reflexivity.
      * simpl. now rewrite L.
      * constructor; assumption.
      * rewrite R. cbn [map fst]. rewrite R1. now rewrite last_cons.
Qed.

Lemma each_request_gets_one_answer_witness :
  exists m' t,
    serve 12 Cases.three_connections Scenario.mmap0 = Some (m', t)
    /\ exists answers : list (bytes * bytes),
         ipc t = flat_map answer answers
         /\ List.length answers
            = List.length (with_command Cases.three_connections)
         /\ Forall (fun a => snd a = lit "OK" \/ snd a = lit "ERROR") answers
         /\ region m' = last (map fst answers) (region Scenario.mmap0).
Proof.
  eexists _, _. split; [vm_compute; reflexivity|].
  eapply (each_request_gets_one_answer 12 Cases.three_connections
            Scenario.mmap0).
  - reflexivity.
  - vm_compute; reflexivity.
Defined.
